(** * Verification of the attention / masking / loss core of [translate/models.py]

    A shallow embedding of the tensor programs of [translate/models.py]
    (sequence-to-sequence translation model) together with the
    properties its specification states about them.

    Conventions of the embedding.
    - A tensor of shape (batch, time) is a list of rows; an operation
      along [axis=1] acts on each row, an operation along [axis=0] on the
      list of rows.
    - [int32]/[int64] tensors hold [Z].
    - Float tensors that only ever hold integer values (0/1 indicators,
      running counts, alignment positions) hold [Z] as well, so that the
      definitions compute.
    - Float tensors holding energies, weights and losses hold [R]:
      rounding is not part of the model.  The exponential and the
      division of [global_attention] and the division of
      [average_attention] are taken from a record of float operations,
      so that the underflow of an exponential to 0 and a division by 0
      are part of it.
    - Learned variables, dropout noise and random draws are explicit
      arguments.
    - [tf.stop_gradient] is the identity on values; where a property is
      about gradient flow the value carries a flag. *)

From Stdlib Require Import String ZArith List Bool Lia.
From Stdlib Require Import Reals Lra.
Import ListNotations.

Open Scope Z_scope.

(** ** Elementary tensor operations on integer-valued rows *)

(** [tf.to_float] of a boolean: 1.0 or 0.0. *)
Definition to_float (b : bool) : Z := if b then 1 else 0.

(** [tf.not_equal(row, c)] against a scalar. *)
Definition tf_not_equal (row : list Z) (c : Z) : list bool :=
  map (fun x => negb (x =? c)) row.

(** [tf.equal(a, b)], elementwise. *)
Definition tf_equal (a b : list Z) : list bool :=
  map (fun p => fst p =? snd p) (combine a b).

(** Running sum of a row, started from [acc]. *)
Fixpoint cumsum_from (acc : Z) (l : list Z) : list Z :=
  match l with
  | [] => []
  | x :: r => (acc + x) :: cumsum_from (acc + x) r
  end.

(** [tf.cumsum(row)] along the time axis. *)
Definition tf_cumsum (l : list Z) : list Z := cumsum_from 0 l.

(** [tf.range(start, limit)]: [start, start+1, ..., limit-1]. *)
Definition tf_range (start limit : Z) : list Z :=
  map (fun i => start + Z.of_nat i) (seq 0 (Z.to_nat (limit - start))).

(** [tf.reduce_sum] of an integer-valued row. *)
Definition reduce_sumZ (l : list Z) : Z := fold_right Z.add 0 l.

(** [tf.sequence_mask(length, maxlen)] for one row: position [j] is set
    iff [j < lengths]. *)
Definition sequence_mask (lengths : Z) (maxlen : nat) : list bool :=
  map (fun j => Z.of_nat j <? lengths) (seq 0 maxlen).

(** [tf.one_hot(index, depth)] for one row; an index outside
    [0, depth) gives the all-zero row. *)
Definition one_hot (index : Z) (depth : nat) : list bool :=
  map (fun j => Z.of_nat j =? index) (seq 0 depth).

(** ** [get_weights] (models.py, l. 964-975) *)

(** One row of [get_weights].  [range_] is [1..T] with [T] the time
    length [tf.shape(sequence)[1]], which every row of the tensor has;
    with [include_first_eos] the last column is dropped
    ([weights[:, :-1]]) and a column of ones is put in front. *)
Definition get_weights_row (eos_id : Z) (include_first_eos : bool)
    (row : list Z) : list Z :=
  let cumsum := tf_cumsum (map to_float (tf_not_equal row eos_id)) in
  let range_ := tf_range 1 (Z.of_nat (length row) + 1) in
  let weights := map to_float (tf_equal cumsum range_) in
  if include_first_eos then 1 :: removelast weights else weights.

Definition get_weights (sequence : list (list Z)) (eos_id : Z)
    (include_first_eos : bool) : list (list Z) :=
  map (get_weights_row eos_id include_first_eos) sequence.

(** Number of tokens before the first end-of-sequence id (the whole
    length when there is none).  Used to describe the masks. *)
Fixpoint eos_free_prefix (eos_id : Z) (row : list Z) : nat :=
  match row with
  | [] => O
  | x :: r => if x =? eos_id then O else S (eos_free_prefix eos_id r)
  end.

(** The unshifted mask of a row, with the running count and the range
    started anywhere (the loop invariant of the mask computation). *)
Definition raw_mask (eos_id acc s : Z) (row : list Z) : list Z :=
  map to_float
    (tf_equal (cumsum_from acc (map to_float (tf_not_equal row eos_id)))
              (tf_range s (s + Z.of_nat (length row)))).

(** ** Real-valued tensors *)

Open Scope R_scope.

(** A (batch, d) tensor and a (batch, time, d) tensor. *)
Definition tensor2 := list (list R).
Definition tensor3 := list (list (list R)).

(** [tf.shape(t)[1]]. *)
Definition shape1 {A} (t : list (list A)) : nat :=
  match t with
  | [] => O
  | r :: _ => length r
  end.

Definition zip_with {A B C} (f : A -> B -> C) (a : list A) (b : list B) : list C :=
  map (fun p => f (fst p) (snd p)) (combine a b).

(** [tf.to_float] of a boolean, as a real. *)
Definition to_floatR (b : bool) : R := if b then 1 else 0.

(** [tf.reduce_sum] along the last axis of one row. *)
Definition reduce_sum (l : list R) : R := fold_right Rplus 0 l.

(** [tf.reduce_max] along the time axis of one row.  The value on the
    empty row is never looked at: it is only subtracted from the
    entries of that same row. *)
Definition reduce_max (l : list R) : R :=
  match l with
  | [] => 0
  | x :: r => fold_right Rmax x r
  end.

(** [tf.clip_by_value]. *)
Definition clip_by_value (x lo hi : R) : R := Rmin (Rmax x lo) hi.

(** Sum of vectors; the empty vector is neutral, so that the sum over
    an empty time axis is the empty vector. *)
Fixpoint vadd (a b : list R) : list R :=
  match a, b with
  | [], _ => b
  | _, [] => a
  | x :: a', y :: b' => (x + y) :: vadd a' b'
  end.

(** [tf.reduce_sum(tf.expand_dims(weights, 2) * hidden_states, axis=1)]
    for one batch entry. *)
Definition weighted_sum (weights : list R) (hidden : list (list R)) : list R :=
  fold_right vadd [] (zip_with (fun w h => map (Rmult w) h) weights hidden).

(** [tf.concat([a, b], axis=1)] of two (batch, d) tensors. *)
Definition concat1 (a b : tensor2) : tensor2 := zip_with (@app R) a b.

(** Python truthiness of an optional integer attribute. *)
Definition truthy (x : option Z) : bool :=
  match x with
  | None => false
  | Some z => negb (z =? 0)%Z
  end.

(** ** Configuration (the attributes the modelled code reads)

    Encoder and decoder configurations are objects of one kind: the
    chained pipeline hands its first encoder configuration to the
    first-stage decoder. *)

Record Config := {
  attention_type : string;
  use_context : bool;
  attn_filters : option Z;
  attn_temperature : option R;
  attn_window_size : Z;
  attn_size : Z;
  binary : bool;
  convolutions : list Z;
  maxout_stride : option Z;
  bidir : bool;
  time_pooling : list Z;
  final_state : string;
  layers : Z;
  use_lstm : bool;
  cell_size : Z;
  pred_edits : bool;
  pred_maxout_layer : bool;
  conditional_rnn : bool;
  update_first : bool;
  generate_first : bool
}.

Definition EncoderConfig := Config.
Definition DecoderConfig := Config.

(** Learned variables and the energies computed from them.
    [compute_energy] (l. 259-281) and [compute_energy_with_filter]
    (l. 284-313) combine learned projections, dropout noise and layer
    normalisation into one energy per (batch, time) position;
    [Wp] and [vp] are the variables of the position predictor of
    [local_attention]; [window_dense] is the projection applied to the
    concatenated window of [local_attention]. *)
Record Learned := {
  compute_energy : EncoderConfig -> tensor3 -> tensor2 -> tensor2;
  compute_energy_with_filter :
    EncoderConfig -> tensor3 -> tensor2 -> option tensor2 -> tensor2;
  Wp : list (list R);
  vp : list (list R);
  window_dense : tensor2 -> tensor2
}.

(** Energies of shape (batch, time) for hidden states of that shape. *)
Definition energy_shape_ok (e : tensor2) (hidden_states : tensor3) : Prop :=
  length e = length hidden_states /\
  Forall (fun row => length row = shape1 hidden_states) e.

(** Both energy functions return one energy per (batch, time) position
    of the hidden states they are given. *)
Definition Learned_shape_ok (L : Learned) : Prop :=
  forall encoder hidden_states state,
    energy_shape_ok (compute_energy L encoder hidden_states state) hidden_states /\
    forall prev_weights,
      energy_shape_ok
        (compute_energy_with_filter L encoder hidden_states state prev_weights)
        hidden_states.

(** [state = tf.concat([state, context], axis=1)] when a context is
    given and the encoder uses it. *)
Definition with_context (encoder : EncoderConfig) (state : tensor2)
    (context : option tensor2) : tensor2 :=
  match context with
  | Some c => if use_context encoder then concat1 state c else state
  | None => state
  end.

(** [T = encoder.attn_temperature or 1.0]. *)
Definition temperature (encoder : EncoderConfig) : R :=
  match attn_temperature encoder with
  | None => 1
  | Some t => if Req_dec_T t 0 then 1 else t
  end.

(** ** Float32 operations that leave the reals

    The real-valued tensors of the source hold float32 numbers.  The
    model computes over the reals and does not represent rounding.  Two
    operations of the normalisations can give results that no rounding
    explains, and these are taken from a record: [tf.exp], which
    underflows to exactly 0 on very negative arguments and overflows to
    an infinity on large ones, and the division, whose result on the
    divisor 0 (a NaN or an infinity) is no real number. *)
Record FloatOps := {
  fexp : R -> R;
  fdiv : R -> R -> R
}.

(** What is assumed of them: on an argument that is not positive the
    exponential lies between 0 and 1 (it may be 0), the exponential of
    0 is 1, and a division by a divisor other than 0 is the quotient.
    Nothing is assumed of the exponential of a positive argument, which
    may have overflowed, nor of a division by 0: a property proved for
    every such record holds whatever these return. *)
Definition FloatOps_ok (F : FloatOps) : Prop :=
  (forall x, x <= 0 -> 0 <= fexp F x <= 1) /\
  fexp F 0 = 1 /\
  (forall x y, y <> 0 -> fdiv F x y = x / y).

(** Arithmetic without underflow: the real exponential and quotient. *)
Definition exact_reals : FloatOps := {| fexp := exp; fdiv := Rdiv |}.

(** Float32 underflow: for x <= -104 the exponential of x is below
    2^-150, half the smallest positive float32, and is rounded to 0; a
    division by 0 returns [undefined], which stands for the NaN or the
    infinity of the source. *)
Definition float32 (undefined : R) : FloatOps := {|
  fexp := fun x => if Rle_dec x (-104) then 0 else exp x;
  fdiv := fun x y => if Req_dec_T y 0 then undefined else x / y
|}.

(** ** [global_attention] (l. 316-338) *)

(** The energies [e] of l. 321-328, before the row maximum is
    subtracted. *)
Definition global_attention_energies (L : Learned) (state : tensor2)
    (hidden_states : tensor3) (encoder : EncoderConfig)
    (context prev_weights : option tensor2) : tensor2 :=
  let state := with_context encoder state context in
  if truthy (attn_filters encoder)
  then compute_energy_with_filter L encoder hidden_states state prev_weights
  else compute_energy L encoder hidden_states state.

(** [exp = tf.exp(T * e) * mask] after the row maximum, taken over the
    padded positions as well, was subtracted. *)
Definition global_attention_exp (F : FloatOps) (T : R) (e : list R) (len : Z)
    (maxlen : nat) : list R :=
  let e := map (fun x => x - reduce_max e) e in
  let mask := map to_floatR (sequence_mask len maxlen) in
  zip_with Rmult (map (fun x => fexp F (T * x)) e) mask.

(** [weights = exp / tf.reduce_sum(exp, axis=-1, keep_dims=True)]. *)
Definition global_attention_row (F : FloatOps) (T : R) (e : list R) (len : Z)
    (maxlen : nat) : list R :=
  let exp := global_attention_exp F T e len maxlen in
  map (fun x => fdiv F x (reduce_sum exp)) exp.

Definition global_attention (F : FloatOps) (L : Learned) (state : tensor2)
    (hidden_states : tensor3) (encoder : EncoderConfig)
    (encoder_input_length : list Z) (context prev_weights : option tensor2)
    : tensor2 * tensor2 :=
  let e := global_attention_energies L state hidden_states encoder context
                                     prev_weights in
  let T := temperature encoder in
  let weights :=
    zip_with (fun e_row len =>
                global_attention_row F T e_row len (shape1 hidden_states))
             e encoder_input_length in
  let weighted_average := zip_with weighted_sum weights hidden_states in
  (weighted_average, weights).

(** ** [no_attention] (l. 341-345) *)

Definition no_attention (state : tensor2) (hidden_states : tensor3)
    : tensor2 * tensor2 :=
  let batch_size := length state in
  let weighted_average := repeat [] batch_size in
  let weights := repeat (repeat 0 (shape1 hidden_states)) batch_size in
  (weighted_average, weights).

(** ** [average_attention] (l. 348-354) *)

(** [weights = tf.to_float(mask) / lengths] for one row. *)
Definition average_attention_row (F : FloatOps) (len : Z) (maxlen : nat)
    : list R :=
  map (fun m => fdiv F (to_floatR m) (IZR len)) (sequence_mask len maxlen).

Definition average_attention (F : FloatOps) (hidden_states : tensor3)
    (encoder_input_length : list Z) : tensor2 * tensor2 :=
  let weights :=
    map (fun len => average_attention_row F len (shape1 hidden_states))
        encoder_input_length in
  let weighted_average := zip_with weighted_sum weights hidden_states in
  (weighted_average, weights).

(** ** [last_state_attention] (l. 357-362) *)

Definition last_state_attention (hidden_states : tensor3)
    (encoder_input_length : list Z) : tensor2 * tensor2 :=
  let weights :=
    map (fun len => map to_floatR (one_hot (len - 1) (shape1 hidden_states)))
        encoder_input_length in
  let weighted_average := zip_with weighted_sum weights hidden_states in
  (weighted_average, weights).

(** ** [softmax] (l. 928-933) *)

(** The clamped denominator of one row. *)
Definition softmax_denominator (e : list R) : R :=
  clip_by_value (reduce_sum e) (10 * / 10 ^ 37) (10 * 10 ^ 37).

Definition softmax (logits : list R) (mask : option (list R)) : list R :=
  let e := map exp logits in
  let e := match mask with
           | Some m => zip_with Rmult e m
           | None => e
           end in
  map (fun x => x / softmax_denominator e) e.

(** ** [local_attention] (l. 365-438) *)

Definition zip_with3 {A B C D} (f : A -> B -> C -> D)
    (a : list A) (b : list B) (c : list C) : list D :=
  zip_with (fun x yz => f x (fst yz) (snd yz)) a (combine b c).

(** [tf.nn.sigmoid]. *)
Definition sigmoid (x : R) : R := 1 / (1 + exp (- x)).

(** The window of the position-supervised branch for one batch entry:
    the hidden states at [pos + offset], each position clamped into
    [0, len - 1], concatenated over the offsets. *)
Definition local_window (w : Z) (pos len : Z) (attn_length : nat)
    (hidden : list (list R)) : list R :=
  concat
    (map (fun offset =>
            let pos_ := Z.max (Z.min (pos + offset) (len - 1)) 0 in
            weighted_sum (map to_floatR (one_hot pos_ attn_length)) hidden)
         (tf_range (- w) (w + 1))).

(** The hard window mask of the learned-position branch: position [j]
    is kept iff it is not left of [low], not right of [high] and not
    padding. *)
Definition local_mask (w : Z) (pos len : Z) (attn_length : nat) : list R :=
  map (fun j =>
         let idx := Z.of_nat j in
         let low := (pos - w)%Z in
         let high := (pos + w)%Z in
         let mlow := to_float (idx <? low)%Z in
         let mhigh := to_float (idx >? high)%Z in
         let m := (mlow + mhigh + to_float (idx >=? len)%Z)%Z in
         to_floatR (m =? 0)%Z)
      (seq 0 attn_length).

(** The truncated-normal factor [tf.exp(div)] of the learned-position
    branch, with [sigma = attn_window_size / 2] (true division). *)
Definition local_gaussian (w : Z) (pos : Z) (attn_length : nat) : list R :=
  let sigma := IZR w / 2 in
  map (fun j =>
         let numerator := - (IZR (Z.of_nat j - pos)) ^ 2 in
         exp (numerator / (2 * sigma ^ 2)))
      (seq 0 attn_length).

(** One row of weights of the learned-position branch; the
    renormalisation after the truncated-normal factor is commented out
    in the source. *)
Definition local_learned_row (w : Z) (e : list R) (len pos : Z)
    (attn_length : nat) : list R :=
  let mask := local_mask w pos len attn_length in
  let weights := softmax e (Some mask) in
  zip_with Rmult weights (local_gaussian w pos attn_length).

(** The predicted position of one batch entry:
    [floor(len * sigmoid(tanh(state . Wp) . vp))], at most [len - 1].
    A row of [tf.matmul(s, W)] is the sum of the rows of [W] weighted
    by the entries of [s]; the product with [vp] has one column. *)
Definition local_predicted_pos (L : Learned) (s : list R) (len : Z) : Z :=
  let p := map sigmoid (weighted_sum (map tanh (weighted_sum s (Wp L))) (vp L)) in
  let pos := Int_part (IZR len * hd 0 p) in
  Z.min pos (len - 1).

Definition local_attention (L : Learned) (state : tensor2)
    (hidden_states : tensor3) (encoder : EncoderConfig)
    (encoder_input_length : list Z) (pos : option (list Z))
    (context : option tensor2) : tensor2 * tensor2 :=
  let attn_length := shape1 hidden_states in
  let state := with_context encoder state context in
  let w := attn_window_size encoder in
  let pos :=
    option_map (fun p => zip_with (fun p len => Z.min p (len - 1))
                                  p encoder_input_length) pos in
  match pos with
  | Some pos =>
      let weights := map (fun p => map to_floatR (one_hot p attn_length)) pos in
      if (0 <? w)%Z then
        let weighted_average :=
          zip_with3 (fun p len hidden => local_window w p len attn_length hidden)
                    pos encoder_input_length hidden_states in
        (window_dense L weighted_average, weights)
      else
        (zip_with weighted_sum weights hidden_states, weights)
  | None =>
      let pos := zip_with (local_predicted_pos L) state encoder_input_length in
      let e := compute_energy L encoder hidden_states state in
      let weights :=
        zip_with3 (fun e_row len p => local_learned_row w e_row len p attn_length)
                  e encoder_input_length pos in
      (zip_with weighted_sum weights hidden_states, weights)
  end.

(** ** [attention] (l. 441-452): dispatch on [encoder.attention_type],
    [global_attention] being the default of the table lookup *)

Definition attention (F : FloatOps) (L : Learned) (encoder : EncoderConfig)
    (state : tensor2) (hidden_states : tensor3) (encoder_input_length : list Z)
    (pos : option (list Z)) (context prev_weights : option tensor2)
    : tensor2 * tensor2 :=
  let ty := attention_type encoder in
  if (ty =? "global")%string then
    global_attention F L state hidden_states encoder encoder_input_length
                     context prev_weights
  else if (ty =? "local")%string then
    local_attention L state hidden_states encoder encoder_input_length
                    pos context
  else if (ty =? "none")%string then
    no_attention state hidden_states
  else if (ty =? "average")%string then
    average_attention F hidden_states encoder_input_length
  else if (ty =? "last_state")%string then
    last_state_attention hidden_states encoder_input_length
  else
    global_attention F L state hidden_states encoder encoder_input_length
                     context prev_weights.

(** The encoder's type is none of the four named variants other than
    "global": the dispatcher hands it to [global_attention]. *)
Definition dispatches_to_global (encoder : EncoderConfig) : Prop :=
  attention_type encoder <> "local"%string /\
  attention_type encoder <> "none"%string /\
  attention_type encoder <> "average"%string /\
  attention_type encoder <> "last_state"%string.

(** At least one valid position of a row of energies keeps a non-zero
    exponential [exp(T * (e_j - max e))]: the sum that
    [global_attention] divides by is then not 0. *)
Definition valid_exponential_nonzero (F : FloatOps) (T : R) (e : list R)
    (len : Z) : Prop :=
  exists j, (j < length e)%nat /\ (Z.of_nat j < len)%Z /\
            fexp F (T * (nth j e 0 - reduce_max e)) <> 0.

(** The normalisation of [global_attention] is defined at batch entry
    [b]: the temperature is not negative, so that no exponent is
    positive, and a valid exponential of the row is not 0. *)
Definition global_attention_defined (F : FloatOps) (L : Learned)
    (state : tensor2) (hidden_states : tensor3) (encoder : EncoderConfig)
    (encoder_input_length : list Z) (context prev_weights : option tensor2)
    (b : nat) : Prop :=
  0 <= temperature encoder /\
  forall e_row len,
    nth_error (global_attention_energies L state hidden_states encoder
                 context prev_weights) b = Some e_row ->
    nth_error encoder_input_length b = Some len ->
    valid_exponential_nonzero F (temperature encoder) e_row len.

(** ** The decoder step (l. 482-777) *)

Open Scope Z_scope.

(** Vocabulary ids of [translate.utils]; the module is not part of the
    sources at hand, so the ids are taken as they come. *)
Record Utils := {
  BOS_ID : Z;
  EOS_ID : Z;
  KEEP_ID : Z;
  DEL_ID : Z
}.

(** Modelled from the spec: [beam_search.resize_like] is not part of the
    sources at hand; it resizes its first argument to the batch/beam
    size of the second.  Each row is repeated
    [size(like) / size(src)] times, which leaves [src] as it is when the
    two sizes agree. *)
Definition resize_like {A B} (src : list A) (like : list B) : list A :=
  let beam_size := (length like / length src)%nat in
  flat_map (fun x => repeat x beam_size) src.

(** [update_pos] (l. 587-601).  The position is a float tensor holding
    integers.  [max_pos] is resized before it is tested against [None];
    every call passes the valid lengths of the aligned encoder. *)
Definition update_pos (U : Utils) (decoder : DecoderConfig)
    (pos : list Z) (symbol : list Z) (max_pos : option (list Z)) : list Z :=
  if negb (pred_edits decoder) then pos
  else
    let is_keep := map (fun s => s =? KEEP_ID U) symbol in
    let is_del := map (fun s => s =? DEL_ID U) symbol in
    let is_not_ins := zip_with orb is_keep is_del in
    let pos := resize_like pos symbol in
    let max_pos := option_map (fun m => resize_like m symbol) max_pos in
    let pos := zip_with Z.add pos (map to_float is_not_ins) in
    match max_pos with
    | Some m => zip_with Z.min pos m
    | None => pos
    end.

(** Whether gradients flow back through a value. *)
Inductive gradient := Flows | Stopped.

(** [tf.stop_gradient]: the same value, cut off from gradient flow. *)
Definition stop_gradient {A} (x : A * gradient) : A * gradient :=
  (fst x, Stopped).

(** A [tf.TensorArray] of fixed size: one optional entry per index. *)
Definition TensorArray (A : Type) := list (option A).

Definition ta_new (A : Type) (size : nat) : TensorArray A := repeat None size.

Definition ta_index {A} (ta : TensorArray A) (i : Z) : option nat :=
  if (0 <=? i) && (i <? Z.of_nat (length ta)) then Some (Z.to_nat i) else None.

(** [ta.read(i)]: fails outside the array and on an unwritten entry. *)
Definition ta_read {A} (ta : TensorArray A) (i : Z) : option A :=
  match ta_index ta i with
  | Some n => nth n ta None
  | None => None
  end.

(** [ta.write(i, v)]: fails outside the array. *)
Definition ta_write {A} (ta : TensorArray A) (i : Z) (v : A)
    : option (TensorArray A) :=
  match ta_index ta i with
  | Some n => Some (firstn n ta ++ Some v :: skipn (S n) ta)
  | None => None
  end.

(** [ta.unstack(rows)]. *)
Definition ta_unstack {A} (rows : list A) : TensorArray A := map Some rows.

Open Scope R_scope.

(** [tf.nn.softmax] of one row of logits. *)
Definition tf_nn_softmax (row : list R) : list R :=
  map (fun x => exp x / reduce_sum (map exp row)) row.

(** [tf.argmax] of one row: the first index holding the maximum. *)
Fixpoint argmax_from (best_i : Z) (best : R) (i : Z) (l : list R) : Z :=
  match l with
  | [] => best_i
  | x :: r =>
      if Rlt_dec best x then argmax_from i x (i + 1) r
      else argmax_from best_i best (i + 1) r
  end.

Definition tf_argmax (row : list R) : Z :=
  match row with
  | [] => 0%Z
  | x :: r => argmax_from 0 x 1 r
  end.

(** The random draws of one decoding step: the scalar of
    [tf.random_uniform([])] and the sampler [tf.multinomial], which
    draws one class per row of log-probabilities. *)
Record Randomness := {
  random_uniform : R;
  multinomial : tensor2 -> list Z
}.

(** The learned parts of the decoder: projection of the initial state,
    embedding lookup, recurrent update, attention lookup and output
    projection. *)
Record DecoderNet := {
  initial_state_projection : tensor2 -> tensor2;
  embed : list Z -> tensor2;
  update : tensor2 -> tensor2 -> option tensor2 -> option (list Z) -> tensor2;
  look : tensor2 -> tensor2 -> list Z -> tensor2 -> tensor2 * tensor2;
  generate : tensor2 -> tensor2 -> tensor2 -> tensor2
}.

(** The choice of the next input symbol (l. 726-738): [tf.case] takes
    the first branch whose predicate holds, [argmax] being the default. *)
Definition predicted_symbol (inputs : TensorArray (list Z))
    (time time_steps : Z) (rnd : Randomness) (feed_previous : R)
    (feed_argmax : bool) (output_ : tensor2) : option (list Z * gradient) :=
  let argmax := Some (map tf_argmax output_, Flows) in
  let target := option_map (fun t => (t, Flows)) (ta_read inputs (time + 1)) in
  let softmax_ :=
    Some (multinomial rnd (map (fun row => map ln (tf_nn_softmax row)) output_),
          Flows) in
  let use_target :=
    (time <? time_steps - 1)%Z &&
    (if Rge_dec (random_uniform rnd) feed_previous then true else false) in
  let predicted_symbol :=
    if use_target then target
    else if negb feed_argmax then softmax_
    else argmax in
  option_map stop_gradient predicted_symbol.

(** The variables carried through the decoding loop. *)
Record LoopVars := {
  lv_time : Z;
  lv_input : tensor2;
  lv_input_symbol : list Z * gradient;
  lv_pos : list Z;
  lv_state : tensor2;
  lv_outputs : TensorArray tensor2;
  lv_states : TensorArray tensor2;
  lv_weights : TensorArray tensor2;
  lv_attns : TensorArray tensor2;
  lv_prev_weights : tensor2;
  lv_samples : TensorArray (list Z)
}.

(** [_time_step] (l. 709-753); [None] when a tensor array is read or
    written outside its bounds. *)
Definition time_step (U : Utils) (decoder : DecoderConfig) (net : DecoderNet)
    (inputs : TensorArray (list Z)) (time_steps : Z) (rnd : Randomness)
    (feed_previous : R) (feed_argmax : bool) (max_pos : list Z)
    (v : LoopVars) : option LoopVars :=
  let time := lv_time v in
  let input_ := lv_input v in
  let input_symbol := fst (lv_input_symbol v) in
  let pos := lv_pos v in
  let state := lv_state v in
  let state :=
    if conditional_rnn decoder then update net state input_ None None
    else if update_first decoder then update net state input_ None (Some input_symbol)
    else state in
  let '(context, new_weights) := look net state input_ pos (lv_prev_weights v) in
  let state :=
    if conditional_rnn decoder then update net state context None None
    else if negb (generate_first decoder)
    then update net state input_ (Some context) (Some input_symbol)
    else state in
  let output_ := generate net state input_ context in
  match predicted_symbol inputs time time_steps rnd feed_previous feed_argmax
          output_ with
  | None => None
  | Some predicted =>
      match ta_write (lv_samples v) time (fst predicted),
            ta_write (lv_attns v) time context,
            ta_write (lv_weights v) time new_weights,
            ta_write (lv_states v) time state,
            ta_write (lv_outputs v) time output_ with
      | Some samples, Some attns, Some weights, Some states, Some outputs =>
          let input_ := embed net (fst predicted) in
          let pos := update_pos U decoder pos (fst predicted) (Some max_pos) in
          let state :=
            if negb (conditional_rnn decoder) && negb (update_first decoder)
               && generate_first decoder
            then update net state input_ (Some context) (Some (fst predicted))
            else state in
          Some {| lv_time := time + 1;
                  lv_input := input_;
                  lv_input_symbol := predicted;
                  lv_pos := pos;
                  lv_state := state;
                  lv_outputs := outputs;
                  lv_states := states;
                  lv_weights := weights;
                  lv_attns := attns;
                  lv_prev_weights := new_weights;
                  lv_samples := samples |}
      | _, _, _, _, _ => None
      end
  end.

(** A weight row over [time_steps] positions that sums to 1 over the
    first [valid_length] positions and is 0 over the padded ones. *)
Definition normalised (w : list R) (valid_length : Z) (time_steps : nat) : Prop :=
  length w = time_steps /\
  reduce_sum (firstn (Z.to_nat valid_length) w) = 1 /\
  (forall j, (Z.to_nat valid_length <= j)%nat -> nth j w 0 = 0).

(** The first [k] entries of a tensor array are written. *)
Definition ta_written {A} (ta : TensorArray A) (k : nat) : Prop :=
  forall i, (i < k)%nat -> nth i ta None <> None.

(** The loop variables after [k] steps of a loop over [T] steps: the
    clock shows [k] and each tensor array has [T] entries, the first
    [k] of them written. *)
Definition loop_invariant (T k : nat) (v : LoopVars) : Prop :=
  lv_time v = Z.of_nat k /\
  (length (lv_outputs v) = T /\ ta_written (lv_outputs v) k) /\
  (length (lv_states v) = T /\ ta_written (lv_states v) k) /\
  (length (lv_weights v) = T /\ ta_written (lv_weights v) k) /\
  (length (lv_attns v) = T /\ ta_written (lv_attns v) k) /\
  (length (lv_samples v) = T /\ ta_written (lv_samples v) k).

(** ** Exceptions *)

Open Scope Z_scope.

(** The exceptions of the modelled code.  [OutOfRangeError] is the
    run-time error of a tensor array accessed outside its bounds or
    stacked with an unwritten entry.  [OutOfFuel] is not an exception of
    the program: it says that the step bound given to a loop of the
    model was too small. *)
Inductive exception :=
| NotImplementedError
| AssertionError
| IndexError
| TypeError
| OutOfRangeError
| OutOfFuel.

Inductive result (A : Type) :=
| Ok (a : A)
| Raise (e : exception).

Arguments Ok {A} a.
Arguments Raise {A} e.

Definition bind {A B} (m : result A) (f : A -> result B) : result B :=
  match m with
  | Ok a => f a
  | Raise e => Raise e
  end.

Notation "x <- m ;; k" := (bind m (fun x => k))
  (at level 61, m at next level, right associativity).
Notation "' p <- m ;; k" := (bind m (fun x => let 'p := x in k))
  (at level 61, p pattern, m at next level, right associativity).

(** [l[i]] for a non-negative index. *)
Definition index {A} (l : list A) (i : nat) : result A :=
  match nth_error l i with
  | Some x => Ok x
  | None => Raise IndexError
  end.

(** A tensor-array access, as a result. *)
Definition in_range {A} (x : option A) : result A :=
  match x with
  | Some a => Ok a
  | None => Raise OutOfRangeError
  end.

(** ** [multi_encoder] (l. 55-256) *)

(** The learned part of one encoder: embedding, projections,
    convolutions, pooling and recurrent layers, giving the hidden states
    and the final state from the inputs, the optional auxiliary inputs
    and the valid lengths. *)
Record EncoderNet := {
  encode : EncoderConfig -> list (list Z) -> option tensor3 -> list Z ->
           tensor3 * tensor2
}.

Definition nonempty {A} (l : list A) : bool :=
  match l with
  | [] => false
  | _ :: _ => true
  end.

(** [ceil(a / b)]. *)
Definition ceil_div (a b : Z) : Z := - ((- a) / b).

(** [l[:n]]. *)
Definition slice_to {A} (l : list A) (n : Z) : list A :=
  if 0 <=? n then firstn (Z.to_nat n) l
  else firstn (Z.to_nat (Z.of_nat (length l) + n)) l.

(** [tf.concat(ts, axis=1)] of a list of (batch, d) tensors. *)
Definition concat_axis1 (ts : list tensor2) : tensor2 :=
  match ts with
  | [] => []
  | t :: r => fold_left concat1 r t
  end.

(** The body of the loop over the encoders, for one encoder. *)
Definition encoder_graph (net : EncoderNet) (encoder : EncoderConfig)
    (encoder_inputs_ : list (list Z)) (encoder_input_length_ : list Z)
    (other_inputs : option tensor3) : result (tensor3 * tensor2 * list Z) :=
  _ <- (if nonempty (convolutions encoder)
        then if binary encoder then Raise NotImplementedError else Ok tt
        else Ok tt) ;;
  encoder_input_length_ <-
    (if truthy (maxout_stride encoder)
     then if binary encoder then Raise NotImplementedError
          else let stride := match maxout_stride encoder with
                             | Some s => s
                             | None => 0
                             end in
               Ok (map (fun l => ceil_div l stride) encoder_input_length_)
     else Ok encoder_input_length_) ;;
  _ <- (if bidir encoder then Ok tt
        else if nonempty (time_pooling encoder)
                || (final_state encoder =? "concat_last")%string
             then Raise NotImplementedError
             else Ok tt) ;;
  let '(encoder_outputs_, encoder_state_) :=
    encode net encoder encoder_inputs_ other_inputs encoder_input_length_ in
  let encoder_input_length_ :=
    if nonempty (time_pooling encoder)
    then fold_left (fun len stride => map (fun l => (l + stride - 1) / stride) len)
                   (slice_to (time_pooling encoder) (layers encoder - 1))
                   encoder_input_length_
    else encoder_input_length_ in
  Ok (encoder_outputs_, encoder_state_, encoder_input_length_).

Fixpoint multi_encoder_from (net : EncoderNet) (i : nat)
    (encoder_inputs : list (list (list Z))) (encoders : list EncoderConfig)
    (encoder_input_length : list (list Z)) (other_inputs : option tensor3)
    : result (list (tensor3 * tensor2 * list Z)) :=
  match encoders with
  | [] => Ok []
  | encoder :: rest =>
      encoder_inputs_ <- index encoder_inputs i ;;
      encoder_input_length_ <- index encoder_input_length i ;;
      r <- encoder_graph net encoder encoder_inputs_ encoder_input_length_
                         other_inputs ;;
      rs <- multi_encoder_from net (S i) encoder_inputs rest
                               encoder_input_length other_inputs ;;
      Ok (r :: rs)
  end.

(** Returns the encoder outputs, the concatenated final states and the
    new valid lengths. *)
Definition multi_encoder (net : EncoderNet)
    (encoder_inputs : list (list (list Z))) (encoders : list EncoderConfig)
    (encoder_input_length : list (list Z)) (other_inputs : option tensor3)
    : result (list tensor3 * tensor2 * list (list Z)) :=
  rs <- multi_encoder_from net 0 encoder_inputs encoders encoder_input_length
                           other_inputs ;;
  Ok (map (fun r => fst (fst r)) rs,
      concat_axis1 (map (fun r => snd (fst r)) rs),
      map snd rs).

(** ** [attention_decoder] (l. 482-777) *)

(** [tf.transpose] of the first two axes. *)
Definition transpose {A} (t : list (list A)) : list (list A) :=
  map (fun j => flat_map (fun row => match nth_error row j with
                                     | Some x => [x]
                                     | None => []
                                     end) t)
      (seq 0 (shape1 t)).

(** [ta.stack()]: fails on an unwritten entry. *)
Fixpoint ta_stack {A} (ta : TensorArray A) : option (list A) :=
  match ta with
  | [] => Some []
  | None :: _ => None
  | Some x :: r => option_map (cons x) (ta_stack r)
  end.

(** [tf.while_loop]: at most [fuel] runs of the body. *)
Fixpoint while_loop {St} (fuel : nat) (cond : St -> bool)
    (body : St -> result St) (v : St) : result St :=
  match fuel with
  | O => if cond v then Raise OutOfFuel else Ok v
  | S fuel' =>
      if cond v then v' <- body v ;; while_loop fuel' cond body v'
      else Ok v
  end.

(** What [attention_decoder] returns, but for the step function and the
    initial data handed to the beam search. *)
Record DecoderOutputs := {
  do_outputs : tensor3;
  do_weights : tensor3;
  do_states : tensor3;
  do_attns : tensor3;
  do_samples : list (list Z)
}.

(** The tensor arrays [weights] and [states] enter the loop in each
    other's place, as in the source; both are empty and of one size.
    The assertion and the two list accesses by [align_encoder_id]
    (l. 661 and, in the loop body, l. 742) fail while the graph is
    built, the accesses to the tensor arrays only when it is run: the
    former are checked first. *)
Definition attention_decoder (U : Utils) (decoder : DecoderConfig)
    (net : DecoderNet) (rnd : Z -> Randomness)
    (decoder_inputs : list (list Z)) (initial_state : tensor2)
    (attention_states : list tensor3) (encoder_input_length : list (list Z))
    (feed_previous : R) (align_encoder_id : nat) (feed_argmax : bool)
    : result DecoderOutputs :=
  if pred_maxout_layer decoder && negb (cell_size decoder mod 2 =? 0)
  then Raise AssertionError
  else
    let batch_size := length decoder_inputs in
    let time_steps := shape1 decoder_inputs in
    let outputs := ta_new tensor2 time_steps in
    let samples := ta_new (list Z) time_steps in
    let inputs := ta_unstack (transpose decoder_inputs) in
    let states := ta_new tensor2 time_steps in
    let weights := ta_new tensor2 time_steps in
    let attns := ta_new tensor2 time_steps in
    align_states <- index attention_states align_encoder_id ;;
    max_pos <- index encoder_input_length align_encoder_id ;;
    initial_symbol <- in_range (ta_read inputs 0) ;;
    let initial_input := embed net initial_symbol in
    let initial_pos := repeat 0 batch_size in
    let initial_weights :=
      map (fun _ => repeat 0%R (shape1 align_states)) align_states in
    let initial_state := initial_state_projection net initial_state in
    final <- while_loop time_steps
               (fun v => lv_time v <? Z.of_nat time_steps)
               (fun v => in_range
                  (time_step U decoder net inputs (Z.of_nat time_steps)
                             (rnd (lv_time v)) feed_previous feed_argmax
                             max_pos v))
               {| lv_time := 0;
                  lv_input := initial_input;
                  lv_input_symbol := (initial_symbol, Flows);
                  lv_pos := initial_pos;
                  lv_state := initial_state;
                  lv_outputs := outputs;
                  lv_states := weights;
                  lv_weights := states;
                  lv_attns := attns;
                  lv_prev_weights := initial_weights;
                  lv_samples := samples |} ;;
    outputs <- in_range (ta_stack (lv_outputs final)) ;;
    weights <- in_range (ta_stack (lv_weights final)) ;;
    states <- in_range (ta_stack (lv_states final)) ;;
    attns <- in_range (ta_stack (lv_attns final)) ;;
    samples <- in_range (ta_stack (lv_samples final)) ;;
    Ok {| do_outputs := transpose outputs;
          do_weights := transpose weights;
          do_states := transpose states;
          do_attns := transpose attns;
          do_samples := transpose samples |}.

(** ** Losses (l. 936-1019) *)

Open Scope R_scope.

(** Elementwise product of two (batch, time) tensors. *)
Definition mul2 (a b : tensor2) : tensor2 := zip_with (zip_with Rmult) a b.

(** A mask of [get_weights] as a real-valued tensor. *)
Definition mask_to_float (m : list (list Z)) : tensor2 := map (map IZR) m.

(** [tf.nn.sparse_softmax_cross_entropy_with_logits] at one position;
    the label is assumed to lie in the vocabulary. *)
Definition sparse_softmax_cross_entropy_with_logits (logits : list R)
    (label : Z) : R :=
  - ln (nth (Z.to_nat label) (tf_nn_softmax logits) 0).

(** [sequence_loss]; logits, targets and weights are assumed to agree
    in batch size and time length, and the batch not to be empty where
    the loss is averaged over it. *)
Definition sequence_loss (logits : tensor3) (targets : list (list Z))
    (weights : tensor2) (average_across_timesteps average_across_batch : bool)
    (rewards : option tensor2) : R :=
  let batch_size := length targets in
  let crossent :=
    zip_with (zip_with sparse_softmax_cross_entropy_with_logits) logits targets in
  let crossent := match rewards with
                  | Some r => mul2 crossent r
                  | None => crossent
                  end in
  let log_perp := map reduce_sum (mul2 crossent weights) in
  let log_perp :=
    if average_across_timesteps
    then zip_with (fun lp w => lp / (reduce_sum w + / 10 ^ 12)) log_perp weights
    else log_perp in
  let cost := reduce_sum log_perp in
  if average_across_batch then cost / INR batch_size else cost.

(** [baseline_loss]; the batch is assumed not to be empty where the
    loss is averaged over it. *)
Definition baseline_loss (rewards weights : tensor2)
    (average_across_timesteps average_across_batch : bool) : R :=
  let batch_size := length rewards in
  let cost := map (map (fun r => r ^ 2)) rewards in
  let cost := map reduce_sum (mul2 cost weights) in
  let cost :=
    if average_across_timesteps
    then zip_with (fun c w => c / (reduce_sum w + / 10 ^ 12)) cost weights
    else cost in
  let cost := reduce_sum cost in
  if average_across_batch then cost / INR batch_size else cost.

(** [reinforce_baseline]: the reward minus a learned baseline computed
    from the decoder outputs. *)
Definition reinforce_baseline (reward_baseline : tensor3 -> tensor2)
    (decoder_states : tensor3) (reward : tensor2) : tensor2 :=
  let baseline := reward_baseline decoder_states in
  zip_with (zip_with Rminus) reward baseline.

(** ** [encoder_decoder] (l. 780-820) *)

(** The valid lengths computed from the end-of-sequence masks. *)
Definition lengths_of_inputs (U : Utils) (encoder_inputs : list (list (list Z)))
    : list (list Z) :=
  map (fun encoder_inputs_ =>
         map reduce_sumZ (get_weights encoder_inputs_ (EOS_ID U) true))
      encoder_inputs.

(** What the two assemblers return, but for the step function and the
    initial data handed to the beam search. *)
Record ModelOutputs := {
  mo_losses : list (option R);
  mo_outputs : list tensor3;
  mo_encoder_state : tensor2;
  mo_attention_states : list tensor3;
  mo_attention_weights : tensor3;
  mo_samples : list (list Z)
}.

Definition encoder_decoder (U : Utils) (enet : EncoderNet) (dnet : DecoderNet)
    (rnd : Z -> Randomness) (reward_baseline : tensor3 -> tensor2)
    (encoders : list EncoderConfig) (decoders : list DecoderConfig)
    (encoder_inputs : list (list (list Z))) (targets : list (list (list Z)))
    (feed_previous : R) (align_encoder_id : nat)
    (encoder_input_length : option (list (list Z))) (feed_argmax : bool)
    (rewards : option tensor2) (use_baseline : bool) : result ModelOutputs :=
  decoder <- index decoders 0 ;;
  targets <- index targets 0 ;;
  let encoder_input_length :=
    match encoder_input_length with
    | Some l => l
    | None => lengths_of_inputs U encoder_inputs
    end in
  let target_weights := get_weights (map (@tl Z) targets) (EOS_ID U) true in
  '(attention_states, encoder_state, encoder_input_length) <-
    multi_encoder enet encoder_inputs encoders encoder_input_length None ;;
  out <- attention_decoder U decoder dnet rnd (map (@removelast Z) targets)
           encoder_state attention_states encoder_input_length feed_previous
           align_encoder_id feed_argmax ;;
  let outputs := do_outputs out in
  let samples := do_samples out in
  '(baseline_rewards, baseline_loss_) <-
    (if use_baseline
     then match rewards with
          | Some r =>
              let baseline_rewards := reinforce_baseline reward_baseline outputs r in
              let baseline_weights := get_weights samples (EOS_ID U) false in
              Ok (Some baseline_rewards,
                  baseline_loss baseline_rewards (mask_to_float baseline_weights)
                                false true)
          | None => Raise TypeError
          end
     else Ok (rewards, 0)) ;;
  let reinforce_weights := get_weights samples (EOS_ID U) true in
  let reinforce_loss :=
    sequence_loss outputs samples (mask_to_float reinforce_weights) false true
                  baseline_rewards in
  let xent_loss :=
    sequence_loss outputs (map (@tl Z) targets) (mask_to_float target_weights)
                  false true None in
  Ok {| mo_losses := [Some xent_loss; Some reinforce_loss; Some baseline_loss_];
        mo_outputs := [outputs];
        mo_encoder_state := encoder_state;
        mo_attention_states := attention_states;
        mo_attention_weights := do_weights out;
        mo_samples := samples |}.

(** ** [chained_encoder_decoder] (l. 823-925) *)

(** Static size of the last axis of a (batch, time, d) tensor. *)
Definition shape2 (t : tensor3) : nat :=
  match t with
  | (r :: _) :: _ => length r
  | _ => O
  end.

(** [tf.concat([a, b], axis=2)] and elementwise sum of two
    (batch, time, d) tensors. *)
Definition concat2 (a b : tensor3) : tensor3 := zip_with concat1 a b.
Definition add3 (a b : tensor3) : tensor3 :=
  zip_with (zip_with (zip_with Rplus)) a b.

(** The learned map of the [map_*] chaining strategies. *)
Record ChainingVars := {
  map_matrix : list (list R);
  map_bias : list R
}.

(** [tf.einsum('ijk,kl->ijl', x, w) + b], through [tanh] if asked. *)
Definition chaining_map (cv : ChainingVars) (non_linearity : bool) (x : tensor3)
    : tensor3 :=
  map (fun xb =>
         map (fun row =>
                let y := zip_with Rplus (weighted_sum row (map_matrix cv))
                                  (map_bias cv) in
                if non_linearity then map tanh y else y)
             xb)
      x.

(** [a[0] = f(a[0])]. *)
Definition update_first_entry {A} (f : A -> A) (l : list A) : result (list A) :=
  match l with
  | [] => Raise IndexError
  | x :: r => Ok (f x :: r)
  end.

(** The first stage: the second encoder is encoded, and the first
    encoder's configuration drives a decoder that reconstructs the first
    encoder's input.  Returns the decoder's outputs and the chaining
    loss. *)
Definition chained_first_stage (U : Utils) (enet : EncoderNet)
    (dnet : DecoderNet) (rnd : Z -> Randomness)
    (encoders : list EncoderConfig) (encoder_inputs : list (list (list Z)))
    : result (DecoderOutputs * R) :=
  let encoder_input_length := lengths_of_inputs U encoder_inputs in
  let input_weights :=
    map (fun x => get_weights x (EOS_ID U) true) encoder_inputs in
  decoder1 <- index encoders 0 ;;
  '(attention_states, encoder_state, new_length) <-
    multi_encoder enet (tl encoder_inputs) (tl encoders)
                  (tl encoder_input_length) None ;;
  encoder_inputs0 <- index encoder_inputs 0 ;;
  let decoder_inputs := map (@removelast Z) encoder_inputs0 in
  let decoder_inputs := map (fun row => BOS_ID U :: row) decoder_inputs in
  out <- attention_decoder U decoder1 dnet rnd decoder_inputs encoder_state
           attention_states new_length 0 0 true ;;
  input_weights0 <- index input_weights 0 ;;
  let chaining_loss :=
    sequence_loss (do_outputs out) encoder_inputs0 (mask_to_float input_weights0)
                  false true None in
  Ok (out, chaining_loss).

Definition chained_encoder_decoder (U : Utils) (enet1 enet2 : EncoderNet)
    (dnet1 dnet2 : DecoderNet) (rnd1 rnd2 : Z -> Randomness)
    (cv : ChainingVars)
    (encoders : list EncoderConfig) (decoders : list DecoderConfig)
    (encoder_inputs : list (list (list Z))) (targets : list (list (list Z)))
    (feed_previous : R) (chaining_strategy : option string)
    (align_encoder_id : nat) (chaining_non_linearity : bool)
    (chaining_loss_ratio : R) (chaining_stop_gradient : bool)
    : result ModelOutputs :=
  decoder <- index decoders 0 ;;
  targets <- index targets 0 ;;
  if negb (length encoders =? 2)%nat then Raise AssertionError
  else
    let encoder_input_length := lengths_of_inputs U encoder_inputs in
    let target_weights := get_weights (map (@tl Z) targets) (EOS_ID U) true in
    '(stage1, chaining_loss) <-
      chained_first_stage U enet1 dnet1 rnd1 encoders encoder_inputs ;;
    let states := do_states stage1 in
    let attns := do_attns stage1 in
    let decoder_outputs :=
      if use_lstm decoder
      then map (map (skipn (shape2 states / 2))) states
      else states in
    let is_strategy (name : string) :=
      match chaining_strategy with
      | Some s => (s =? name)%string
      | None => false
      end in
    let other_inputs :=
      if is_strategy "share_states"%string then Some states
      else if is_strategy "share_outputs"%string then Some decoder_outputs
      else None in
    '(attention_states, encoder_state, new_length) <-
      multi_encoder enet2 (firstn 1 encoder_inputs) (firstn 1 encoders)
                    (firstn 1 encoder_input_length) other_inputs ;;
    attention_states <-
      (if is_strategy "concat_attns"%string
       then update_first_entry (fun a => concat2 a attns) attention_states
       else if is_strategy "concat_states"%string
       then update_first_entry (fun a => concat2 a states) attention_states
       else if is_strategy "sum_attns"%string
       then update_first_entry (fun a => add3 a attns) attention_states
       else if is_strategy "map_attns"%string || is_strategy "map_states"%string
               || is_strategy "map_outputs"%string
       then let x := if is_strategy "map_attns"%string then attns
                     else if is_strategy "map_outputs"%string then decoder_outputs
                     else states in
            update_first_entry
              (fun a => add3 a (chaining_map cv chaining_non_linearity x))
              attention_states
       else Ok attention_states) ;;
    out <- attention_decoder U decoder dnet2 rnd2 (map (@removelast Z) targets)
             encoder_state attention_states new_length feed_previous
             align_encoder_id true ;;
    let outputs := do_outputs out in
    let xent_loss :=
      sequence_loss outputs (map (@tl Z) targets) (mask_to_float target_weights)
                    false true None in
    let xent_loss :=
      if Req_dec_T chaining_loss_ratio 0 then xent_loss
      else xent_loss + chaining_loss_ratio * chaining_loss in
    let losses := [Some xent_loss; None; None] in
    Ok {| mo_losses := losses;
          mo_outputs := [outputs];
          mo_encoder_state := encoder_state;
          mo_attention_states := attention_states;
          mo_attention_weights := do_weights out;
          mo_samples := do_samples out |}.

(** ** Unsupported configurations *)

(** Convolutions on a binary (feature-valued) encoder. *)
Definition convolutions_on_binary (encoder : EncoderConfig) : Prop :=
  convolutions encoder <> [] /\ binary encoder = true.

(** Time pooling, or the [concat_last] final state, on a unidirectional
    encoder. *)
Definition pooling_on_unidirectional (encoder : EncoderConfig) : Prop :=
  bidir encoder = false /\
  (time_pooling encoder <> [] \/ final_state encoder = "concat_last"%string).

(** A maxout output layer with an odd cell size. *)
Definition odd_maxout (decoder : DecoderConfig) : Prop :=
  pred_maxout_layer decoder = true /\ (cell_size decoder mod 2 <> 0)%Z.

(** An encoder configuration the loop body of [multi_encoder] accepts. *)
Definition supported_encoder (encoder : EncoderConfig) : Prop :=
  (convolutions encoder = [] \/ binary encoder = false) /\
  (truthy (maxout_stride encoder) = false \/ binary encoder = false) /\
  (bidir encoder = true \/
   (time_pooling encoder = [] /\ final_state encoder <> "concat_last"%string)).

(** A decoder configuration that passes the assertion of
    [attention_decoder]. *)
Definition supported_decoder (decoder : DecoderConfig) : Prop :=
  pred_maxout_layer decoder = false \/ (cell_size decoder mod 2 = 0)%Z.

(** The second-stage cross-entropy of the chained pipeline, from the
    second decoder's outputs. *)
Definition chained_xent_loss (U : Utils) (targets : list (list Z))
    (outputs : tensor3) : R :=
  sequence_loss outputs (map (@tl Z) targets)
    (mask_to_float (get_weights (map (@tl Z) targets) (EOS_ID U) true))
    false true None.

(** ** [compute_energy] (l. 259-281) *)

(** The variables and the noise of [compute_energy]: the kernel and
    bias of the projection [W_a] of the state, the kernel of the
    projection [U_a] of the hidden states, the vector [v_a], the two
    dropouts with their noise (keep probability and pervasive flag
    given) and the two layer normalisations. *)
Record EnergyVars := {
  W_a_kernel : list (list R);
  W_a_bias : list R;
  U_a_kernel : list (list R);
  v_a : list R;
  dropout_state : R -> bool -> tensor2 -> tensor2;
  dropout_hidden : R -> bool -> tensor3 -> tensor3;
  layer_norm_state : tensor2 -> tensor2;
  layer_norm_hidden : tensor3 -> tensor3
}.

(** [tf.layers.dense] on one vector: the kernel's rows weighted by the
    entries, plus the bias when there is one. *)
Definition dense_vector (kernel : list (list R)) (bias : option (list R))
    (x : list R) : list R :=
  let y := weighted_sum x kernel in
  match bias with
  | Some b => zip_with Rplus y b
  | None => y
  end.

(** The energy of one position:
    [tf.reduce_sum(v * tf.tanh(s))] with [s = f + y]. *)
Definition energy_of (v f y : list R) : R :=
  reduce_sum (zip_with Rmult v (map tanh (zip_with Rplus f y))).

Definition compute_energy_src (V : EnergyVars) (hidden : tensor3)
    (state : tensor2) (attn_keep_prob : option R)
    (pervasive_dropout layer_norm : bool) : tensor2 :=
  let state := match attn_keep_prob with
               | Some kp => dropout_state V kp pervasive_dropout state
               | None => state
               end in
  let hidden := match attn_keep_prob with
                | Some kp => dropout_hidden V kp pervasive_dropout hidden
                | None => hidden
                end in
  let y := map (dense_vector (W_a_kernel V)
                             (if negb layer_norm then Some (W_a_bias V) else None))
               state in
  let y := if layer_norm then layer_norm_state V y else y in
  let hidden := if layer_norm then layer_norm_hidden V hidden else hidden in
  let f := map (map (dense_vector (U_a_kernel V) None)) hidden in
  zip_with (fun f_b y_b => map (fun f_bt => energy_of (v_a V) f_bt y_b) f_b) f y.

(** ** [multi_attention] (l. 455-479) *)

(** [tf.reduce_sum(tf.stack(attns, axis=2), axis=2)], or
    [tf.concat(attns, axis=1)] for every method but "sum".  Both take
    a non-empty list of tensors (of one shape, for the sum); the
    properties below are stated for such lists only. *)
Definition aggregate (aggregation_method : string) (attns : list tensor2)
    : tensor2 :=
  if (aggregation_method =? "sum")%string
  then match attns with
       | [] => []
       | a :: r => fold_left (zip_with (zip_with Rplus)) r a
       end
  else concat_axis1 attns.

(** [l[i]] when the list is given, nothing otherwise. *)
Definition optional_index {A} (l : option (list (option A))) (i : nat)
    : result (option A) :=
  match l with
  | Some l => index l i
  | None => Ok None
  end.

(** The loop over the zipped hidden states, encoders and lengths, from
    index [i] on, with the context vector of the previous encoder. *)
Fixpoint multi_attention_from (F : FloatOps) (L : Learned) (state : tensor2)
    (i : nat)
    (items : list (tensor3 * (EncoderConfig * list Z)))
    (pos : option (list (option (list Z))))
    (prev_weights : option (list (option tensor2)))
    (context_vector : option tensor2) : result (list (tensor2 * tensor2)) :=
  match items with
  | [] => Ok []
  | (hidden, (encoder, input_length)) :: rest =>
      pos_ <- optional_index pos i ;;
      prev_weights_ <- optional_index prev_weights i ;;
      let hidden := resize_like hidden state in
      let input_length := resize_like input_length state in
      let r := attention F L encoder state hidden input_length pos_
                         context_vector prev_weights_ in
      rs <- multi_attention_from F L state (S i) rest pos prev_weights
                                 (Some (fst r)) ;;
      Ok (r :: rs)
  end.

Definition multi_attention (F : FloatOps) (L : Learned) (state : tensor2)
    (hidden_states : list tensor3) (encoders : list EncoderConfig)
    (encoder_input_length : list (list Z))
    (pos : option (list (option (list Z)))) (aggregation_method : string)
    (prev_weights : option (list (option tensor2)))
    : result (tensor2 * list tensor2) :=
  rs <- multi_attention_from F L state 0
          (combine hidden_states (combine encoders encoder_input_length))
          pos prev_weights None ;;
  Ok (aggregate aggregation_method (map fst rs), map snd rs).

(** One of the zipped items of [multi_attention] can be attended at
    batch entry [b] with a normalised result: its encoder is not of
    type "none" or "local", its tensors have the batch size of the
    state, its valid length at [b] lies between 1 and the time length,
    and, where the dispatcher hands it to [global_attention], the
    normalisation is defined for every context and previous weights it
    may be given. *)
Definition attendable (F : FloatOps) (L : Learned) (state : tensor2) (b : nat)
    (item : tensor3 * (EncoderConfig * list Z)) : Prop :=
  let '(hidden, (encoder, input_length)) := item in
  attention_type encoder <> "none"%string /\
  attention_type encoder <> "local"%string /\
  length hidden = length state /\
  length input_length = length state /\
  (exists len, nth_error input_length b = Some len /\
               (1 <= len <= Z.of_nat (shape1 hidden))%Z) /\
  (dispatches_to_global encoder ->
   forall context prev_weights,
     global_attention_defined F L state hidden encoder input_length
                              context prev_weights b).

(** Every vector of a tensor of hidden states has [d] entries. *)
Definition same_width (d : nat) (hidden : tensor3) : Prop :=
  Forall (Forall (fun h => length h = d)) hidden.

(** The weights returned for an item are normalised at batch entry [b]. *)
Definition attended (b : nat) (item : tensor3 * (EncoderConfig * list Z))
    (r : tensor2 * tensor2) : Prop :=
  let '(hidden, (encoder, input_length)) := item in
  exists w len,
    nth_error (snd r) b = Some w /\
    nth_error input_length b = Some len /\
    normalised w len (shape1 hidden).

(** ** Reference formulas *)

(** The masked softmax with temperature, written without the
    subtraction of the row maximum. *)
Definition masked_softmax_row (T : R) (e : list R) (len : Z) (maxlen : nat)
    : list R :=
  let x := zip_with Rmult (map (fun v => exp (T * v)) e)
                    (map to_floatR (sequence_mask len maxlen)) in
  map (fun v => v / reduce_sum x) x.

(** A (batch, time) tensor without negative entries. *)
Definition nonneg2 (t : tensor2) : Prop := Forall (Forall (fun x => 0 <= x)) t.

(** Every label lies in the vocabulary of its row of logits; logits and
    targets then agree in batch size and time length. *)
Definition labels_in_vocabulary (logits : tensor3) (targets : list (list Z))
    : Prop :=
  Forall2 (Forall2 (fun lrow label =>
                      (0 <= label < Z.of_nat (length lrow))%Z))
          logits targets.

Open Scope R_scope.

(** ** Sample inputs *)

(** Learned functions giving the energy 0 everywhere, with empty
    position-predictor variables and the identity as window projection. *)
Definition zero_learned : Learned := {|
  compute_energy := fun _ hidden_states _ =>
    map (fun _ => repeat 0 (shape1 hidden_states)) hidden_states;
  compute_energy_with_filter := fun _ hidden_states _ _ =>
    map (fun _ => repeat 0 (shape1 hidden_states)) hidden_states;
  Wp := [];
  vp := [];
  window_dense := fun x => x
|}.

(** A configuration with the given attention type, window, binary
    flag, convolutions, bidirectionality, time pooling, maxout flag,
    cell size and edit-prediction flag. *)
Definition make_config (ty : string) (w : Z) (bin : bool) (conv : list Z)
    (bid : bool) (pool : list Z) (maxout : bool) (cell : Z) (edits : bool)
    : Config := {|
  attention_type := ty;
  use_context := false;
  attn_filters := None;
  attn_temperature := None;
  attn_window_size := w;
  attn_size := 2;
  binary := bin;
  convolutions := conv;
  maxout_stride := None;
  bidir := bid;
  time_pooling := pool;
  final_state := "last";
  layers := 1;
  use_lstm := false;
  cell_size := cell;
  pred_edits := edits;
  pred_maxout_layer := maxout;
  conditional_rnn := false;
  update_first := false;
  generate_first := true
|}.

(** A supported encoder of the given attention type and window. *)
Definition sample_encoder (ty : string) (w : Z) : EncoderConfig :=
  make_config ty w false [] true [] false 4 false.

(** Learned functions giving the first position of every row the
    energy -3 and every other position the energy 0. *)
Definition steep_learned : Learned := {|
  compute_energy := fun _ hidden_states _ =>
    map (fun _ => map (fun j => match j with O => -3 | S _ => 0 end)
                      (seq 0 (shape1 hidden_states)))
        hidden_states;
  compute_energy_with_filter := fun _ hidden_states _ _ =>
    map (fun _ => map (fun j => match j with O => -3 | S _ => 0 end)
                      (seq 0 (shape1 hidden_states)))
        hidden_states;
  Wp := [];
  vp := [];
  window_dense := fun x => x
|}.

(** A configuration with its attention temperature replaced. *)
Definition with_temperature (t : R) (c : Config) : Config := {|
  attention_type := attention_type c;
  use_context := use_context c;
  attn_filters := attn_filters c;
  attn_temperature := Some t;
  attn_window_size := attn_window_size c;
  attn_size := attn_size c;
  binary := binary c;
  convolutions := convolutions c;
  maxout_stride := maxout_stride c;
  bidir := bidir c;
  time_pooling := time_pooling c;
  final_state := final_state c;
  layers := layers c;
  use_lstm := use_lstm c;
  cell_size := cell_size c;
  pred_edits := pred_edits c;
  pred_maxout_layer := pred_maxout_layer c;
  conditional_rnn := conditional_rnn c;
  update_first := update_first c;
  generate_first := generate_first c
|}.

(** A global-attention encoder with the temperature 40. *)
Definition hot_encoder : EncoderConfig :=
  with_temperature 40 (sample_encoder "global" 0).

(** An encoder with convolutions on binary inputs. *)
Definition binary_conv_encoder : EncoderConfig :=
  make_config "global" 0 true [3%Z] true [] false 4 false.

(** A decoder with a maxout output layer and the odd cell size 5. *)
Definition odd_maxout_decoder : DecoderConfig :=
  make_config "global" 0 false [] true [] true 5 false.

(** Empty variables for the learned chaining map. *)
Definition sample_chaining_vars : ChainingVars :=
  {| map_matrix := []; map_bias := [] |}.

(** An encoder net with one-dimensional hidden states and final states. *)
Definition sample_enet : EncoderNet := {|
  encode := fun _ x _ _ =>
    (map (fun row => map (fun t => [IZR t]) row) x, map (fun _ => [0]) x)
|}.

(** Hidden states of shape (1, 3, 2) and a query state of shape (1, 1). *)
Definition sample_hidden : tensor3 := [[[1; 2]; [3; 4]; [5; 6]]].
Definition sample_state : tensor2 := [[0]].

(** Vocabulary ids with the keep marker 3 and the deletion marker 4. *)
Definition sample_utils : Utils :=
  {| BOS_ID := 0; EOS_ID := 1; KEEP_ID := 3; DEL_ID := 4 |}.

(** A decoder predicting edit operations. *)
Definition sample_decoder : DecoderConfig :=
  make_config "global" 0 false [] true [] false 4 true.

(** A decoder net whose output projection gives the logits [[0; 1]] for
    a batch of one, and random draws with the uniform number 1/2 and a
    sampler always drawing class 0. *)
Definition sample_net : DecoderNet := {|
  initial_state_projection := fun state => state;
  embed := fun symbol => map (fun s => [IZR s]) symbol;
  update := fun state _ _ _ => state;
  look := fun _ _ _ prev_weights => ([[]], prev_weights);
  generate := fun _ _ _ => [[0; 1]]
|}.

Definition sample_randomness : Randomness :=
  {| random_uniform := 1 / 2; multinomial := fun logp => map (fun _ => 0%Z) logp |}.

(** Loop variables at time 0 for a batch of one and two time steps. *)
Definition sample_loop_vars : LoopVars := {|
  lv_time := 0;
  lv_input := [[0]];
  lv_input_symbol := ([0%Z], Stopped);
  lv_pos := [0%Z];
  lv_state := [[0]];
  lv_outputs := ta_new tensor2 2;
  lv_states := ta_new tensor2 2;
  lv_weights := ta_new tensor2 2;
  lv_attns := ta_new tensor2 2;
  lv_prev_weights := [[0; 0; 0]];
  lv_samples := ta_new (list Z) 2
|}.


(** * Properties *)

Open Scope Z_scope.


(** ** get_weights *)

Lemma tf_range_cons (s : Z) (n : nat) :
  tf_range s (s + Z.of_nat (S n)) = s :: tf_range (s + 1) (s + 1 + Z.of_nat n).
Proof.
  unfold tf_range.
  replace (s + Z.of_nat (S n) - s) with (Z.of_nat (S n)) by lia.
  replace (s + 1 + Z.of_nat n - (s + 1)) with (Z.of_nat n) by lia.
  rewrite !Nat2Z.id. simpl seq. simpl map.
  f_equal; [lia|].
  rewrite <- seq_shift, map_map.
  apply map_ext. intros a. lia.
Qed.

Lemma tf_range_nil (s : Z) : tf_range s (s + Z.of_nat 0) = [].
Proof.
  unfold tf_range. replace (s + Z.of_nat 0 - s) with 0 by lia. reflexivity.
Qed.

Lemma raw_mask_behind (eos_id : Z) (row : list Z) :
  forall acc s, acc < s - 1 ->
  raw_mask eos_id acc s row = repeat 0 (length row).
Proof.
  induction row as [|x r IH]; intros acc s Hlt.
  - reflexivity.
  - unfold raw_mask. cbn [length]. rewrite tf_range_cons.
    cbn [tf_not_equal map cumsum_from tf_equal combine fst snd repeat].
    f_equal.
    + assert (acc + to_float (negb (x =? eos_id)) <> s)
        by (destruct (x =? eos_id); cbn; lia).
      apply Z.eqb_neq in H. rewrite H. reflexivity.
    + apply (IH (acc + to_float (negb (x =? eos_id))) (s + 1)).
      destruct (x =? eos_id); cbn; lia.
Qed.

Lemma raw_mask_spec (eos_id : Z) (row : list Z) :
  forall s,
  raw_mask eos_id (s - 1) s row =
  repeat 1 (eos_free_prefix eos_id row) ++
  repeat 0 (length row - eos_free_prefix eos_id row).
Proof.
  induction row as [|x r IH]; intros s.
  - reflexivity.
  - unfold raw_mask. cbn [length]. rewrite tf_range_cons.
    cbn [tf_not_equal map cumsum_from tf_equal combine fst snd eos_free_prefix].
    destruct (x =? eos_id) eqn:E; cbn [negb to_float].
    + replace (s - 1 + 0 =? s) with false by (symmetry; apply Z.eqb_neq; lia).
      cbn [to_float repeat app Nat.sub]. f_equal.
      apply (raw_mask_behind eos_id r (s - 1 + 0) (s + 1)). lia.
    + replace (s - 1 + 1 =? s) with true by (symmetry; apply Z.eqb_eq; lia).
      cbn [to_float repeat app Nat.sub]. f_equal.
      replace (s - 1 + 1) with (s + 1 - 1) by lia.
      apply (IH (s + 1)).
Qed.

Lemma eos_free_prefix_le (eos_id : Z) (row : list Z) :
  (eos_free_prefix eos_id row <= length row)%nat.
Proof.
  induction row as [|x r IH]; cbn; [lia|].
  destruct (x =? eos_id); lia.
Qed.

(** The mask without the forced first column: ones on the
    end-of-sequence-free prefix, zeros from the first end-of-sequence
    id on. *)
Lemma get_weights_row_false (eos_id : Z) (row : list Z) :
  get_weights_row eos_id false row =
  repeat 1 (eos_free_prefix eos_id row) ++
  repeat 0 (length row - eos_free_prefix eos_id row).
Proof.
  unfold get_weights_row, tf_cumsum.
  replace (Z.of_nat (length row) + 1) with (1 + Z.of_nat (length row)) by lia.
  exact (raw_mask_spec eos_id row 1).
Qed.

Lemma repeat_snoc {A} (a : A) (n : nat) : repeat a (S n) = repeat a n ++ [a].
Proof. induction n as [|n IH]; cbn in *; [reflexivity | now rewrite <- IH]. Qed.

Lemma removelast_ones_zeros (k n : nat) :
  (1 <= k + n)%nat ->
  1 :: removelast (repeat 1 k ++ repeat 0 n) =
  repeat 1 (Nat.min (S k) (k + n)) ++ repeat 0 (k + n - Nat.min (S k) (k + n)).
Proof.
  intros Hpos. destruct n as [|n].
  - destruct k as [|k]; [lia|].
    rewrite app_nil_r, repeat_snoc, removelast_last.
    replace (Nat.min (S (S k)) (S k + 0)) with (S k) by lia.
    replace (S k + 0 - S k)%nat with O by lia.
    now rewrite app_nil_r.
  - rewrite repeat_snoc, app_assoc, removelast_last.
    replace (Nat.min (S k) (k + S n)) with (S k) by lia.
    replace (k + S n - S k)%nat with n by lia.
    reflexivity.
Qed.

(** The mask with the forced first column, for a row of positive time
    length: one more leading one than without it, up to the length. *)
Lemma get_weights_row_true (eos_id : Z) (row : list Z) :
  row <> [] ->
  get_weights_row eos_id true row =
  repeat 1 (Nat.min (S (eos_free_prefix eos_id row)) (length row)) ++
  repeat 0 (length row - Nat.min (S (eos_free_prefix eos_id row)) (length row)).
Proof.
  intros Hne.
  pose proof (get_weights_row_false eos_id row) as Hf.
  pose proof (eos_free_prefix_le eos_id row) as Hle.
  unfold get_weights_row in *. cbv zeta in *. rewrite Hf.
  set (k := eos_free_prefix eos_id row) in *.
  assert (Hlen : length row = (k + (length row - k))%nat) by lia.
  rewrite removelast_ones_zeros.
  - now rewrite <- Hlen.
  - destruct row; [contradiction | cbn in *; lia].
Qed.

(** On the empty row the forced column is all there is: the result has
    one column although the input has none. *)
Lemma get_weights_row_true_nil (eos_id : Z) :
  get_weights_row eos_id true [] = [1].
Proof. reflexivity. Qed.

Lemma nth_ones_zeros (k n t : nat) :
  nth t (repeat 1 k ++ repeat 0 n) 0 = if (t <? k)%nat then 1 else 0.
Proof.
  destruct (Nat.ltb_spec t k) as [Hlt|Hge].
  - rewrite app_nth1 by (rewrite repeat_length; exact Hlt).
    apply nth_repeat_lt; exact Hlt.
  - rewrite app_nth2 by (rewrite repeat_length; exact Hge).
    rewrite repeat_length.
    destruct (Nat.lt_ge_cases (t - k) n) as [H|H].
    + apply nth_repeat_lt; exact H.
    + apply nth_overflow. rewrite repeat_length. exact H.
Qed.

Lemma nth_error_ones_zeros (k n t : nat) :
  nth_error (repeat 1 k ++ repeat 0 n) t =
  if (t <? k)%nat then Some 1
  else if (t <? k + n)%nat then Some 0 else None.
Proof.
  destruct (Nat.ltb_spec t k) as [Hlt|Hge].
  - rewrite nth_error_app1 by (rewrite repeat_length; exact Hlt).
    apply nth_error_repeat; exact Hlt.
  - rewrite nth_error_app2 by (rewrite repeat_length; exact Hge).
    rewrite repeat_length.
    destruct (Nat.ltb_spec t (k + n)) as [H|H].
    + apply nth_error_repeat; lia.
    + apply nth_error_None. rewrite repeat_length. lia.
Qed.

(** Where the first end-of-sequence id sits decides the prefix. *)
Lemma eos_free_prefix_at (eos_id : Z) (row : list Z) (p : nat) :
  nth_error row p = Some eos_id ->
  (forall i, (i < p)%nat -> nth_error row i <> Some eos_id) ->
  eos_free_prefix eos_id row = p.
Proof.
  revert p. induction row as [|x r IH]; intros p Hp Hbefore.
  - destruct p; discriminate.
  - cbn. destruct (Z.eqb_spec x eos_id) as [->|Hne].
    + destruct p as [|p]; [reflexivity|].
      exfalso. apply (Hbefore O); [lia | reflexivity].
    + destruct p as [|p].
      * cbn in Hp. congruence.
      * f_equal. apply IH; [exact Hp|].
        intros i Hi. apply (Hbefore (S i)). lia.
Qed.

Lemma eos_free_prefix_In (eos_id : Z) (row : list Z) :
  In eos_id row ->
  (eos_free_prefix eos_id row < length row)%nat /\
  nth_error row (eos_free_prefix eos_id row) = Some eos_id.
Proof.
  induction row as [|x r IH]; intros Hin; [contradiction|].
  cbn. destruct (Z.eqb_spec x eos_id) as [->|Hne].
  - split; [lia | reflexivity].
  - destruct Hin as [->|Hin]; [contradiction|].
    destruct (IH Hin) as [H1 H2]. split; [lia | exact H2].
Qed.

Lemma eos_free_prefix_not_In (eos_id : Z) (row : list Z) :
  ~ In eos_id row -> eos_free_prefix eos_id row = length row.
Proof.
  induction row as [|x r IH]; intros Hnin; [reflexivity|].
  cbn. destruct (Z.eqb_spec x eos_id) as [->|Hne].
  - exfalso. apply Hnin. now left.
  - f_equal. apply IH. intros H. apply Hnin. now right.
Qed.

(** C2. For a sequence tensor whose rows have time length T and any L
    with 1 <= L <= T: a row whose token at 0-based position L-1 is the
    end-of-sequence id, with no earlier token equal to it, gets from
    [get_weights] with [include_first_eos=True] the mask made of exactly
    L ones followed by T-L zeros. *)
Theorem C2_get_weights_first_eos
    (sequence : list (list Z)) (eos_id : Z) (b L : nat) (row : list Z) :
  nth_error sequence b = Some row ->
  (1 <= L <= length row)%nat ->
  nth_error row (L - 1) = Some eos_id ->
  (forall i, (i < L - 1)%nat -> nth_error row i <> Some eos_id) ->
  nth_error (get_weights sequence eos_id true) b =
  Some (repeat 1 L ++ repeat 0 (length row - L)).
Proof.
  intros Hrow HL Heos Hbefore.
  unfold get_weights. rewrite nth_error_map, Hrow. cbn [option_map]. f_equal.
  rewrite get_weights_row_true by (destruct row; [cbn in HL; lia | discriminate]).
  rewrite (eos_free_prefix_at eos_id row (L - 1) Heos Hbefore).
  replace (Nat.min (S (L - 1)) (length row)) with L by lia.
  reflexivity.
Qed.

Lemma C2_get_weights_first_eos_witness :
  nth_error (get_weights [[7; 8; 1; 9]; [1; 1; 5; 1]] 1 true) 0 =
  Some (repeat 1 3 ++ repeat 0 (4 - 3)).
Proof.
  apply (C2_get_weights_first_eos [[7; 8; 1; 9]; [1; 1; 5; 1]] 1 0 3 [7; 8; 1; 9]).
  - reflexivity.
  - cbn; lia.
  - reflexivity.
  - intros i Hi.
    destruct i as [|[|i]]; cbn; [discriminate | discriminate | lia].
Defined.

(** C9. For every sequence tensor and both values of
    [include_first_eos], every row of the mask returned by
    [get_weights] is a run of ones followed only by zeros: whenever the
    mask is 1 at position t+1 it is 1 at position t. *)
Theorem C9_get_weights_prefix_mask
    (sequence : list (list Z)) (eos_id : Z) (include_first_eos : bool)
    (m : list Z) :
  In m (get_weights sequence eos_id include_first_eos) ->
  (exists k, (k <= length m)%nat /\ m = repeat 1 k ++ repeat 0 (length m - k)) /\
  (forall t, nth_error m (S t) = Some 1 -> nth_error m t = Some 1).
Proof.
  intros Hin. unfold get_weights in Hin.
  apply in_map_iff in Hin. destruct Hin as [row [Hm _]]. subst m.
  assert (Hshape : exists k n,
    get_weights_row eos_id include_first_eos row = repeat 1 k ++ repeat 0 n).
  { destruct include_first_eos.
    - destruct row as [|x r].
      + exists 1%nat, 0%nat. reflexivity.
      + eexists _, _. apply get_weights_row_true. discriminate.
    - eexists _, _. apply get_weights_row_false. }
  destruct Hshape as [k [n Hshape]]. rewrite Hshape. split.
  - exists k. rewrite length_app, !repeat_length. split; [lia|].
    now replace (k + n - k)%nat with n by lia.
  - intros t. rewrite !nth_error_ones_zeros.
    destruct (Nat.ltb_spec (S t) k) as [H1|H1].
    + intros _. destruct (Nat.ltb_spec t k); [reflexivity | lia].
    + destruct (S t <? k + n)%nat; discriminate.
Qed.

Lemma C9_get_weights_prefix_mask_witness :
  (exists k, (k <= length [1; 1; 0])%nat /\
             [1; 1; 0] = repeat 1 k ++ repeat 0 (length [1; 1; 0] - k)) /\
  (forall t, nth_error [1; 1; 0] (S t) = Some 1 ->
             nth_error [1; 1; 0] t = Some 1).
Proof.
  apply (C9_get_weights_prefix_mask [[4; 1; 6]] 1 true [1; 1; 0]).
  cbn. left. reflexivity.
Defined.

Lemma eos_free_prefix_before (eos_id : Z) (row : list Z) :
  forall i, (i < eos_free_prefix eos_id row)%nat ->
  nth_error row i <> Some eos_id.
Proof.
  induction row as [|x r IH]; intros i Hi; cbn in Hi; [lia|].
  destruct (Z.eqb_spec x eos_id) as [->|Hne]; [lia|].
  destruct i as [|i]; cbn; [congruence | apply IH; lia].
Qed.

(** C10. On every row of sampled tokens, the mask of the baseline loss
    ([include_first_eos=False]) is pointwise below the mask of the
    reinforcement loss ([include_first_eos=True]).  If the row contains
    an end-of-sequence id, the two masks differ exactly at its first
    position, where the reinforcement mask is 1 and the baseline mask
    0.  If it contains none, the masks agree at every position of the
    row, and are the same list when the row has positive time length. *)
Theorem C10_baseline_mask_below_reinforce_mask
    (samples : list (list Z)) (eos_id : Z) (b : nat) (row : list Z) :
  nth_error samples b = Some row ->
  exists baseline_weights reinforce_weights,
    nth_error (get_weights samples eos_id false) b = Some baseline_weights /\
    nth_error (get_weights samples eos_id true) b = Some reinforce_weights /\
    (forall t, nth t baseline_weights 0 <= nth t reinforce_weights 0) /\
    (In eos_id row ->
       exists p,
         nth_error row p = Some eos_id /\
         (forall i, (i < p)%nat -> nth_error row i <> Some eos_id) /\
         length baseline_weights = length reinforce_weights /\
         nth p reinforce_weights 0 = 1 /\
         nth p baseline_weights 0 = 0 /\
         (forall t, t <> p ->
            nth t baseline_weights 0 = nth t reinforce_weights 0)) /\
    (~ In eos_id row ->
       (forall t, (t < length row)%nat ->
          nth t baseline_weights 0 = nth t reinforce_weights 0) /\
       (row <> [] -> baseline_weights = reinforce_weights)).
Proof.
  intros Hrow.
  exists (get_weights_row eos_id false row), (get_weights_row eos_id true row).
  unfold get_weights. rewrite !nth_error_map, Hrow. cbn [option_map].
  split; [reflexivity|]. split; [reflexivity|].
  destruct row as [|x r].
  { cbn. split; [|split].
    - intros [|t]; cbn; [lia | destruct t; lia].
    - intros [].
    - intros _. split; [intros t Ht; lia | intros H; now contradiction H]. }
  set (row := x :: r) in *.
  assert (Hne : row <> []) by discriminate.
  rewrite (get_weights_row_true eos_id row Hne), (get_weights_row_false eos_id row).
  pose proof (eos_free_prefix_le eos_id row) as Hle.
  set (k := eos_free_prefix eos_id row) in *.
  set (T := length row) in *.
  split; [|split].
  - intros t. rewrite !nth_ones_zeros.
    destruct (Nat.ltb_spec t k), (Nat.ltb_spec t (Nat.min (S k) T)); lia.
  - intros Hin. destruct (eos_free_prefix_In eos_id row Hin) as [Hlt Hat].
    fold k T in Hlt, Hat.
    exists k. split; [exact Hat|]. split; [apply eos_free_prefix_before|].
    split; [rewrite !length_app, !repeat_length; lia|].
    rewrite !nth_ones_zeros.
    split; [destruct (Nat.ltb_spec k (Nat.min (S k) T)); lia|].
    split; [destruct (Nat.ltb_spec k k); lia|].
    intros t Ht. rewrite !nth_ones_zeros.
    destruct (Nat.ltb_spec t k), (Nat.ltb_spec t (Nat.min (S k) T)); lia.
  - intros Hnin. pose proof (eos_free_prefix_not_In eos_id row Hnin) as Hk.
    fold k T in Hk.
    replace (Nat.min (S k) T) with k by lia.
    split; [reflexivity | intros _; reflexivity].
Qed.

Lemma C10_baseline_mask_below_reinforce_mask_witness :
  exists baseline_weights reinforce_weights,
    nth_error (get_weights [[5; 6; 1; 7]] 1 false) 0 = Some baseline_weights /\
    nth_error (get_weights [[5; 6; 1; 7]] 1 true) 0 = Some reinforce_weights /\
    (forall t, nth t baseline_weights 0 <= nth t reinforce_weights 0) /\
    (In 1 [5; 6; 1; 7] ->
       exists p,
         nth_error [5; 6; 1; 7] p = Some 1 /\
         (forall i, (i < p)%nat -> nth_error [5; 6; 1; 7] i <> Some 1) /\
         length baseline_weights = length reinforce_weights /\
         nth p reinforce_weights 0 = 1 /\
         nth p baseline_weights 0 = 0 /\
         (forall t, t <> p ->
            nth t baseline_weights 0 = nth t reinforce_weights 0)) /\
    (~ In 1 [5; 6; 1; 7] ->
       (forall t, (t < length [5; 6; 1; 7])%nat ->
          nth t baseline_weights 0 = nth t reinforce_weights 0) /\
       (([5; 6; 1; 7] : list Z) <> [] -> baseline_weights = reinforce_weights)).
Proof.
  apply (C10_baseline_mask_below_reinforce_mask [[5; 6; 1; 7]] 1 0 [5; 6; 1; 7]).
  reflexivity.
Defined.

(** ** Sums and positions of real-valued rows *)

Section RealRows.
Open Scope R_scope.

Lemma nth_zip_with {A B C} (f : A -> B -> C) (a : list A) (b : list B)
    (j : nat) (da : A) (db : B) (dc : C) :
  (j < length a)%nat -> (j < length b)%nat ->
  nth j (zip_with f a b) dc = f (nth j a da) (nth j b db).
Proof.
  revert b j. induction a as [|a0 a IH]; intros b j Ha Hb; [cbn in Ha; lia|].
  destruct b as [|b0 b]; [cbn in Hb; lia|].
  destruct j as [|j]; [reflexivity|].
  cbn in *. apply IH; lia.
Qed.

Lemma nth_map_lt {A B} (f : A -> B) (l : list A) (j : nat) (da : A) (db : B) :
  (j < length l)%nat -> nth j (map f l) db = f (nth j l da).
Proof.
  revert j. induction l as [|x l IH]; intros j Hj; [cbn in Hj; lia|].
  destruct j as [|j]; [reflexivity|]. cbn in *. apply IH. lia.
Qed.

Lemma length_zip_with {A B C} (f : A -> B -> C) (a : list A) (b : list B) :
  length (zip_with f a b) = Nat.min (length a) (length b).
Proof. unfold zip_with. now rewrite length_map, length_combine. Qed.

Lemma nth_error_zip_with {A B C} (f : A -> B -> C) (a : list A) (b : list B)
    (j : nat) (x : A) (y : B) :
  nth_error a j = Some x -> nth_error b j = Some y ->
  nth_error (zip_with f a b) j = Some (f x y).
Proof.
  revert b j. induction a as [|a0 a IH]; intros b j Ha Hb.
  - destruct j; discriminate.
  - destruct b as [|b0 b]; [destruct j; discriminate|].
    destruct j as [|j]; cbn in *.
    + congruence.
    + apply IH; assumption.
Qed.

Lemma reduce_sum_app (a b : list R) :
  reduce_sum (a ++ b) = reduce_sum a + reduce_sum b.
Proof.
  unfold reduce_sum. induction a as [|x a IH]; simpl; [lra|].
  rewrite IH. lra.
Qed.

Lemma reduce_sum_split (k : nat) (l : list R) :
  reduce_sum l = reduce_sum (firstn k l) + reduce_sum (skipn k l).
Proof. now rewrite <- reduce_sum_app, firstn_skipn. Qed.

Lemma reduce_sum_scale (d : R) (l : list R) :
  reduce_sum (map (fun x => x / d) l) = reduce_sum l / d.
Proof.
  unfold reduce_sum. induction l as [|x l IH]; simpl.
  - unfold Rdiv. lra.
  - rewrite IH. unfold Rdiv. lra.
Qed.

Lemma reduce_sum_zero (l : list R) :
  (forall j, (j < length l)%nat -> nth j l 0 = 0) -> reduce_sum l = 0.
Proof.
  unfold reduce_sum. induction l as [|x l IH]; intros H; simpl; [reflexivity|].
  pose proof (H O) as H0. simpl in H0. rewrite H0 by lia.
  rewrite IH; [lra|].
  intros j Hj. apply (H (S j)). simpl. lia.
Qed.

Lemma reduce_sum_nonneg (l : list R) :
  (forall j, (j < length l)%nat -> 0 <= nth j l 0) -> 0 <= reduce_sum l.
Proof.
  unfold reduce_sum. induction l as [|x l IH]; intros H; simpl; [lra|].
  assert (0 <= x) by (apply (H O); simpl; lia).
  assert (0 <= fold_right Rplus 0 l).
  { apply IH. intros j Hj. apply (H (S j)). simpl. lia. }
  lra.
Qed.

Lemma reduce_sum_pos (l : list R) :
  l <> [] ->
  (forall j, (j < length l)%nat -> 0 < nth j l 0) -> 0 < reduce_sum l.
Proof.
  intros Hne H. destruct l as [|x l]; [contradiction|].
  assert (0 < x) by (apply (H O); simpl; lia).
  assert (0 <= reduce_sum l).
  { apply reduce_sum_nonneg. intros j Hj.
    apply Rlt_le. apply (H (S j)). simpl. lia. }
  unfold reduce_sum in *. simpl. lra.
Qed.

Lemma nth_skipn_R (k j : nat) (l : list R) :
  nth j (skipn k l) 0 = nth (k + j) l 0.
Proof.
  revert l. induction k as [|k IH]; intros l; [reflexivity|].
  destruct l as [|x l]; [now destruct j | apply IH].
Qed.

Lemma nth_firstn_R (k j : nat) (l : list R) :
  (j < k)%nat -> nth j (firstn k l) 0 = nth j l 0.
Proof.
  revert j l. induction k as [|k IH]; intros j l Hj; [lia|].
  destruct l as [|x l]; [now destruct j|].
  destruct j as [|j]; [reflexivity | cbn; apply IH; lia].
Qed.

Lemma nth_sequence_mask (len : Z) (maxlen j : nat) :
  (j < maxlen)%nat ->
  nth j (map to_floatR (sequence_mask len maxlen)) 0 =
  to_floatR (Z.of_nat j <? len)%Z.
Proof.
  intros Hj. unfold sequence_mask. rewrite map_map.
  rewrite (nth_map_lt _ _ j O) by (rewrite length_seq; exact Hj).
  rewrite seq_nth by exact Hj. reflexivity.
Qed.

Lemma length_sequence_mask (len : Z) (maxlen : nat) :
  length (sequence_mask len maxlen) = maxlen.
Proof. unfold sequence_mask. now rewrite length_map, length_seq. Qed.

(** *** The float operations *)

Lemma exp_le_1 (x : R) : x <= 0 -> 0 <= exp x <= 1.
Proof.
  intros Hx. split; [apply Rlt_le; apply exp_pos|].
  destruct (Req_dec x 0) as [->|Hne]; [rewrite exp_0; lra|].
  rewrite <- exp_0. apply Rlt_le. apply exp_increasing. lra.
Qed.

Lemma exact_reals_ok : FloatOps_ok exact_reals.
Proof.
  split; [|split].
  - exact exp_le_1.
  - apply exp_0.
  - intros x y _. reflexivity.
Qed.

Lemma float32_ok (undefined : R) : FloatOps_ok (float32 undefined).
Proof.
  split; [|split]; cbn [fexp fdiv float32].
  - intros x Hx. destruct (Rle_dec x (-104)); [lra|].
    apply exp_le_1. exact Hx.
  - destruct (Rle_dec 0 (-104)); [lra | apply exp_0].
  - intros x y Hy. destruct (Req_dec_T y 0); [contradiction | reflexivity].
Qed.

(** *** The row maximum *)

Lemma fold_right_Rmax_ge (x : R) (r : list R) :
  x <= fold_right Rmax x r /\
  (forall y, In y r -> y <= fold_right Rmax x r).
Proof.
  induction r as [|z r [IH1 IH2]]; cbn [fold_right].
  - split; [lra | intros y []].
  - split.
    + eapply Rle_trans; [exact IH1 | apply Rmax_r].
    + intros y [->|Hy]; [apply Rmax_l|].
      eapply Rle_trans; [apply IH2; exact Hy | apply Rmax_r].
Qed.

Lemma reduce_max_ge (e : list R) (x : R) : In x e -> x <= reduce_max e.
Proof.
  destruct e as [|x0 r]; intros Hin; [contradiction|].
  unfold reduce_max. destruct (fold_right_Rmax_ge x0 r) as [H1 H2].
  destruct Hin as [<-|Hin]; [exact H1 | apply H2; exact Hin].
Qed.

(** With a temperature that is not negative no exponent is positive. *)
Lemma exponent_nonpos (T : R) (e : list R) (j : nat) :
  0 <= T -> (j < length e)%nat -> T * (nth j e 0 - reduce_max e) <= 0.
Proof.
  intros HT Hj.
  pose proof (reduce_max_ge e (nth j e 0) (nth_In e 0 Hj)). nra.
Qed.

Lemma nth_le_reduce_sum (l : list R) (j : nat) :
  (forall i, (i < length l)%nat -> 0 <= nth i l 0) ->
  nth j l 0 <= reduce_sum l.
Proof.
  revert j. unfold reduce_sum. induction l as [|x l IH]; intros j H.
  - destruct j; simpl; lra.
  - assert (0 <= x) by (apply (H O); simpl; lia).
    assert (Hl : forall i, (i < length l)%nat -> 0 <= nth i l 0).
    { intros i Hi. apply (H (S i)). simpl. lia. }
    pose proof (reduce_sum_nonneg l Hl) as Hs. unfold reduce_sum in Hs.
    destruct j as [|j]; simpl; [lra|].
    specialize (IH j Hl). lra.
Qed.

(** *** One row of [global_attention] *)

Lemma length_global_attention_exp (F : FloatOps) (T : R) (e : list R) (len : Z) :
  length (global_attention_exp F T e len (length e)) = length e.
Proof.
  unfold global_attention_exp.
  rewrite length_zip_with, !length_map, length_sequence_mask. lia.
Qed.

Lemma nth_global_attention_exp (F : FloatOps) (T : R) (e : list R) (len : Z)
    (j : nat) :
  (j < length e)%nat ->
  nth j (global_attention_exp F T e len (length e)) 0 =
  fexp F (T * (nth j e 0 - reduce_max e)) * to_floatR (Z.of_nat j <? len)%Z.
Proof.
  intros Hj. unfold global_attention_exp.
  rewrite (nth_zip_with Rmult _ _ j 0 0 0)
    by (rewrite ?length_map, ?length_sequence_mask; exact Hj).
  rewrite nth_sequence_mask by exact Hj. f_equal.
  rewrite map_map.
  now rewrite (nth_map_lt _ _ j 0) by exact Hj.
Qed.

Lemma global_attention_exp_nonneg (F : FloatOps) (T : R) (e : list R) (len : Z) :
  FloatOps_ok F -> 0 <= T ->
  forall j, (j < length (global_attention_exp F T e len (length e)))%nat ->
            0 <= nth j (global_attention_exp F T e len (length e)) 0.
Proof.
  intros [Hexp _] HT j Hj. rewrite length_global_attention_exp in Hj.
  rewrite nth_global_attention_exp by exact Hj.
  pose proof (Hexp _ (exponent_nonpos T e j HT Hj)) as H.
  destruct (Z.of_nat j <? len)%Z; unfold to_floatR; lra.
Qed.

(** The masked exponential of a padded position is 0. *)
Lemma global_attention_exp_padded (F : FloatOps) (T : R) (e : list R) (len : Z)
    (j : nat) :
  (len <= Z.of_nat j)%Z ->
  nth j (global_attention_exp F T e len (length e)) 0 = 0.
Proof.
  intros Hj. destruct (Nat.lt_ge_cases j (length e)) as [Hin|Hout].
  - rewrite nth_global_attention_exp by exact Hin.
    replace (Z.of_nat j <? len)%Z with false
      by (symmetry; apply Z.ltb_ge; exact Hj).
    unfold to_floatR. lra.
  - apply nth_overflow. rewrite length_global_attention_exp. exact Hout.
Qed.

Lemma global_attention_exp_le_1 (F : FloatOps) (T : R) (e : list R) (len : Z) :
  FloatOps_ok F -> 0 <= T ->
  forall j, nth j (global_attention_exp F T e len (length e)) 0 <= 1.
Proof.
  intros [Hexp _] HT j.
  destruct (Nat.lt_ge_cases j (length e)) as [Hj|Hj].
  - rewrite nth_global_attention_exp by exact Hj.
    pose proof (Hexp _ (exponent_nonpos T e j HT Hj)) as H.
    destruct (Z.of_nat j <? len)%Z; unfold to_floatR; lra.
  - rewrite nth_overflow by (rewrite length_global_attention_exp; exact Hj).
    lra.
Qed.

Lemma reduce_sum_le_length (l : list R) :
  (forall j, nth j l 0 <= 1) -> reduce_sum l <= INR (length l).
Proof.
  unfold reduce_sum. induction l as [|x l IH]; intros H.
  - simpl. lra.
  - cbn [fold_right length]. rewrite S_INR.
    pose proof (H O) as H0. cbn in H0.
    assert (fold_right Rplus 0 l <= INR (length l))
      by (apply IH; intros j; exact (H (S j))).
    lra.
Qed.

(** The sum of the masked exponentials is at most the valid length. *)
Lemma global_attention_sum_le (F : FloatOps) (T : R) (e : list R) (len : Z) :
  FloatOps_ok F -> 0 <= T -> (0 <= len)%Z ->
  reduce_sum (global_attention_exp F T e len (length e)) <= IZR len.
Proof.
  intros HF HT Hlen.
  rewrite (reduce_sum_split (Z.to_nat len)).
  assert (Htail : reduce_sum
            (skipn (Z.to_nat len) (global_attention_exp F T e len (length e)))
            = 0).
  { apply reduce_sum_zero. intros j _.
    rewrite nth_skipn_R. apply global_attention_exp_padded. lia. }
  assert (Hhead : reduce_sum
            (firstn (Z.to_nat len) (global_attention_exp F T e len (length e)))
            <= INR (Z.to_nat len)).
  { eapply Rle_trans.
    - apply reduce_sum_le_length. intros j.
      destruct (Nat.lt_ge_cases j (Z.to_nat len)) as [Hj|Hj].
      + rewrite nth_firstn_R by exact Hj.
        apply global_attention_exp_le_1; assumption.
      + rewrite nth_overflow; [lra|].
        rewrite length_firstn. lia.
    - apply le_INR. rewrite length_firstn. lia. }
  rewrite INR_IZR_INZ, Z2Nat.id in Hhead by exact Hlen. lra.
Qed.

(** When a valid exponential is not 0, the sum that the row is divided
    by is positive. *)
Lemma global_attention_sum_pos (F : FloatOps) (T : R) (e : list R) (len : Z) :
  FloatOps_ok F -> 0 <= T ->
  valid_exponential_nonzero F T e len ->
  0 < reduce_sum (global_attention_exp F T e len (length e)).
Proof.
  intros HF HT [j [Hj [Hv Hne]]].
  pose proof (nth_le_reduce_sum _ j
                (global_attention_exp_nonneg F T e len HF HT)) as Hle.
  rewrite nth_global_attention_exp in Hle by exact Hj.
  replace (Z.of_nat j <? len)%Z with true in Hle
    by (symmetry; apply Z.ltb_lt; exact Hv).
  unfold to_floatR in Hle.
  destruct HF as [Hexp _].
  pose proof (Hexp _ (exponent_nonpos T e j HT Hj)). lra.
Qed.

(** When no valid exponential is left, the sum is 0 and so is every
    masked exponential: each weight is the quotient of 0 by 0. *)
Lemma global_attention_row_undefined (F : FloatOps) (T : R) (e : list R)
    (len : Z) :
  (forall j, (j < length e)%nat -> (Z.of_nat j < len)%Z ->
             fexp F (T * (nth j e 0 - reduce_max e)) = 0) ->
  global_attention_row F T e len (length e) = repeat (fdiv F 0 0) (length e).
Proof.
  intros Hzero.
  assert (Hx : forall j, nth j (global_attention_exp F T e len (length e)) 0 = 0).
  { intros j. destruct (Z.ltb_spec (Z.of_nat j) len) as [Hv|Hp];
      [|apply global_attention_exp_padded; exact Hp].
    destruct (Nat.lt_ge_cases j (length e)) as [Hin|Hout].
    - rewrite nth_global_attention_exp by exact Hin.
      rewrite (Hzero j Hin Hv). lra.
    - apply nth_overflow. rewrite length_global_attention_exp. exact Hout. }
  unfold global_attention_row. cbv zeta.
  rewrite (reduce_sum_zero _ (fun j _ => Hx j)).
  rewrite <- (length_global_attention_exp F T e len) at 2.
  set (x := global_attention_exp F T e len (length e)) in *.
  clearbody x. clear Hzero. induction x as [|y x IH]; [reflexivity|].
  cbn [map length repeat]. f_equal.
  - f_equal. exact (Hx O).
  - apply IH. intros j. exact (Hx (S j)).
Qed.

(** A row whose maximal energy is at a valid position keeps the
    exponential 1 there. *)
Lemma max_at_valid_position (F : FloatOps) (T : R) (e : list R) (len : Z)
    (j : nat) :
  FloatOps_ok F ->
  (j < length e)%nat -> (Z.of_nat j < len)%Z ->
  nth j e 0 = reduce_max e ->
  valid_exponential_nonzero F T e len.
Proof.
  intros [_ [H0 _]] Hj Hv Hmax. exists j.
  split; [exact Hj|]. split; [exact Hv|].
  rewrite Hmax, Rminus_diag, Rmult_0_r, H0. lra.
Qed.

(** Over the exact reals no exponential is 0. *)
Lemma exact_reals_never_underflow (T : R) (e : list R) (len : Z) :
  (1 <= len)%Z -> e <> [] ->
  valid_exponential_nonzero exact_reals T e len.
Proof.
  intros Hlen Hne. exists O.
  split; [destruct e; [contradiction | cbn; lia]|].
  split; [lia|].
  cbn [fexp exact_reals]. apply Rgt_not_eq. apply exp_pos.
Qed.

Lemma global_attention_row_spec (F : FloatOps) (T : R) (e : list R) (len : Z) :
  FloatOps_ok F -> 0 <= T ->
  valid_exponential_nonzero F T e len ->
  let w := global_attention_row F T e len (length e) in
  normalised w len (length e) /\
  (forall j, 0 <= nth j w 0 <= 1) /\
  (forall j, (j < length e)%nat ->
     fexp F (T * (nth j e 0 - reduce_max e)) = 0 -> nth j w 0 = 0) /\
  (forall j, (j < length e)%nat -> (Z.of_nat j < len)%Z ->
     nth j e 0 = reduce_max e -> 1 / IZR len <= nth j w 0).
Proof.
  intros HF HT Hvalid w. subst w.
  pose proof (global_attention_sum_pos F T e len HF HT Hvalid) as HD.
  pose proof (global_attention_exp_nonneg F T e len HF HT) as Hnonneg.
  pose proof (global_attention_exp_padded F T e len) as Hpadded.
  pose proof (length_global_attention_exp F T e len) as Hlength.
  pose proof (nth_global_attention_exp F T e len) as Hexp.
  assert (Hlen1 : (1 <= len)%Z) by (destruct Hvalid as [j [_ [Hv _]]]; lia).
  pose proof (global_attention_sum_le F T e len HF HT ltac:(lia)) as HDle.
  assert (Hrow : global_attention_row F T e len (length e) =
                 map (fun y => y / reduce_sum
                                    (global_attention_exp F T e len (length e)))
                     (global_attention_exp F T e len (length e))).
  { unfold global_attention_row. cbv zeta. apply map_ext. intros y.
    destruct HF as [_ [_ Hdiv]]. apply Hdiv. lra. }
  rewrite Hrow. clear Hrow.
  set (x := global_attention_exp F T e len (length e)) in *.
  set (D := reduce_sum x) in *.
  assert (Hnth : forall j, nth j (map (fun y => y / D) x) 0 = nth j x 0 / D).
  { intros j. destruct (Nat.lt_ge_cases j (length x)) as [Hin|Hout].
    - now rewrite (nth_map_lt _ _ j 0) by exact Hin.
    - rewrite !nth_overflow by (rewrite ?length_map; exact Hout).
      unfold Rdiv. lra. }
  assert (HinvD : 0 < / D) by (apply Rinv_0_lt_compat; exact HD).
  split; [split; [|split]|split; [|split]].
  - rewrite length_map. exact Hlength.
  - rewrite <- (Rplus_0_r (reduce_sum _)).
    replace 0 with (reduce_sum (skipn (Z.to_nat len) (map (fun y => y / D) x)))
      at 1.
    + rewrite <- reduce_sum_split, reduce_sum_scale.
      fold D. unfold Rdiv. apply Rinv_r. lra.
    + apply reduce_sum_zero. intros j Hj.
      rewrite nth_skipn_R, Hnth, Hpadded by lia.
      unfold Rdiv. lra.
  - intros j Hj. rewrite Hnth, Hpadded by lia. unfold Rdiv. lra.
  - intros j. rewrite Hnth.
    assert (H0 : 0 <= nth j x 0).
    { destruct (Nat.lt_ge_cases j (length x)) as [Hin|Hout];
        [apply Hnonneg; exact Hin | rewrite nth_overflow by exact Hout; lra]. }
    assert (H1 : nth j x 0 <= D) by (apply nth_le_reduce_sum; exact Hnonneg).
    unfold Rdiv. split; [nra|].
    replace 1 with (D * / D) by (apply Rinv_r; lra).
    apply Rmult_le_compat_r; lra.
  - intros j Hj Hz. rewrite Hnth, Hexp by exact Hj.
    rewrite Hz. unfold Rdiv. lra.
  - intros j Hj Hv Hmax. rewrite Hnth, Hexp by exact Hj.
    replace (Z.of_nat j <? len)%Z with true
      by (symmetry; apply Z.ltb_lt; exact Hv).
    destruct HF as [_ [H0 _]].
    rewrite Hmax, Rminus_diag, Rmult_0_r, H0.
    unfold to_floatR, Rdiv. rewrite !Rmult_1_l.
    apply Rinv_le_contravar; [exact HD | exact HDle].
Qed.

End RealRows.

(** ** global_attention *)

Section GlobalAttention.
Open Scope R_scope.

Lemma zero_learned_shape_ok : Learned_shape_ok zero_learned.
Proof.
  intros encoder hidden_states state.
  assert (H : energy_shape_ok
            (map (fun _ : list (list R) => repeat 0 (shape1 hidden_states))
                 hidden_states) hidden_states).
  { split; [apply length_map|].
    apply Forall_forall. intros row Hin.
    apply in_map_iff in Hin. destruct Hin as [h [<- _]].
    apply repeat_length. }
  split; [exact H | intros pw; exact H].
Qed.

Lemma steep_learned_shape_ok : Learned_shape_ok steep_learned.
Proof.
  intros encoder hidden_states state.
  assert (H : energy_shape_ok
            (map (fun _ : list (list R) =>
                    map (fun j => match j with O => -3 | S _ => 0 end)
                        (seq 0 (shape1 hidden_states)))
                 hidden_states) hidden_states).
  { split; [apply length_map|].
    apply Forall_forall. intros row Hin.
    apply in_map_iff in Hin. destruct Hin as [h [<- _]].
    now rewrite length_map, length_seq. }
  split; [exact H | intros pw; exact H].
Qed.

Lemma energy_row (e : tensor2) (hidden_states : tensor3) (b : nat) :
  energy_shape_ok e hidden_states ->
  (b < length hidden_states)%nat ->
  exists e_row, nth_error e b = Some e_row /\
                length e_row = shape1 hidden_states.
Proof.
  intros [Hlen Hrows] Hb.
  destruct (nth_error e b) as [e_row|] eqn:E.
  - exists e_row. split; [reflexivity|].
    rewrite Forall_forall in Hrows. apply Hrows.
    eapply nth_error_In; exact E.
  - apply nth_error_None in E. lia.
Qed.

(** The weight row of [global_attention] at a batch entry is
    [global_attention_row] of that entry's energies. *)
Lemma global_attention_weights_at
    (F : FloatOps) (L : Learned) (state : tensor2) (hidden_states : tensor3)
    (encoder : EncoderConfig) (encoder_input_length : list Z)
    (context prev_weights : option tensor2) (b : nat) (len : Z) :
  Learned_shape_ok L ->
  (b < length hidden_states)%nat ->
  nth_error encoder_input_length b = Some len ->
  exists e_row,
    nth_error (global_attention_energies L state hidden_states encoder
                 context prev_weights) b = Some e_row /\
    length e_row = shape1 hidden_states /\
    nth_error (snd (global_attention F L state hidden_states encoder
                      encoder_input_length context prev_weights)) b
    = Some (global_attention_row F (temperature encoder) e_row len
                                 (length e_row)).
Proof.
  intros HL Hb Hlen.
  unfold global_attention. cbv zeta. cbn [snd].
  set (e := global_attention_energies L state hidden_states encoder context
                                      prev_weights).
  assert (He : energy_shape_ok e hidden_states).
  { unfold e, global_attention_energies. cbv zeta.
    destruct (HL encoder hidden_states (with_context encoder state context))
      as [H1 H2].
    destruct (truthy (attn_filters encoder)); [apply H2 | exact H1]. }
  destruct (energy_row e hidden_states b He Hb) as [e_row [Hrow Hlen_row]].
  exists e_row. split; [exact Hrow|]. split; [exact Hlen_row|].
  rewrite Hlen_row.
  exact (nth_error_zip_with _ _ _ _ _ _ Hrow Hlen).
Qed.

(** The weight row of [global_attention] at a batch entry where the
    normalisation is defined. *)
Lemma global_attention_normalised
    (F : FloatOps) (L : Learned) (state : tensor2) (hidden_states : tensor3)
    (encoder : EncoderConfig) (encoder_input_length : list Z)
    (context prev_weights : option tensor2) (b : nat) (len : Z) :
  FloatOps_ok F ->
  Learned_shape_ok L ->
  (b < length hidden_states)%nat ->
  nth_error encoder_input_length b = Some len ->
  global_attention_defined F L state hidden_states encoder encoder_input_length
                           context prev_weights b ->
  exists w,
    nth_error (snd (global_attention F L state hidden_states encoder
                      encoder_input_length context prev_weights)) b = Some w /\
    normalised w len (shape1 hidden_states).
Proof.
  intros HF HL Hb Hlen [HT Hdef].
  destruct (global_attention_weights_at F L state hidden_states encoder
              encoder_input_length context prev_weights b len HL Hb Hlen)
    as [e_row [Hrow [Hshape Hw]]].
  eexists. split; [exact Hw|].
  rewrite <- Hshape.
  apply (global_attention_row_spec F (temperature encoder) e_row len HF HT).
  exact (Hdef e_row len Hrow Hlen).
Qed.

(** The normalisation is defined on the all-zero energies of
    [zero_learned]: every position holds the row maximum. *)
Lemma zero_learned_defined (F : FloatOps) (state : tensor2)
    (hidden_states : tensor3) (encoder : EncoderConfig)
    (encoder_input_length : list Z) (context prev_weights : option tensor2)
    (b : nat) :
  FloatOps_ok F ->
  0 <= temperature encoder ->
  (0 < shape1 hidden_states)%nat ->
  (forall len, nth_error encoder_input_length b = Some len -> (1 <= len)%Z) ->
  global_attention_defined F zero_learned state hidden_states encoder
                           encoder_input_length context prev_weights b.
Proof.
  intros HF HT Hsteps Hlens. split; [exact HT|].
  intros e_row len Hrow Hlen. specialize (Hlens len Hlen).
  assert (He : e_row = repeat 0 (shape1 hidden_states)).
  { unfold global_attention_energies in Hrow. cbv zeta in Hrow.
    assert (Hin : In e_row (map (fun _ : list (list R) =>
                                   repeat 0 (shape1 hidden_states))
                                hidden_states)).
    { destruct (truthy (attn_filters encoder));
        cbn [compute_energy compute_energy_with_filter zero_learned] in Hrow;
        eapply nth_error_In; exact Hrow. }
    apply in_map_iff in Hin. destruct Hin as [h [<- _]]. reflexivity. }
  subst e_row.
  apply (max_at_valid_position F _ _ len O HF).
  - rewrite repeat_length. exact Hsteps.
  - lia.
  - destruct (shape1 hidden_states) as [|n]; [lia|].
    cbn [repeat nth]. unfold reduce_max. symmetry.
    clear. induction n as [|n IH]; cbn [repeat fold_right]; [reflexivity|].
    rewrite IH. apply Rmax_left. lra.
Qed.

(** With the temperature 40 and a row whose one valid position has an
    energy 3 below that of the padded position, the row maximum is
    taken at the padded position, the exponent of the valid position is
    -120, its float32 exponential is 0, and so is the sum of the masked
    exponentials: both weights are the quotient of 0 by 0, whatever
    value [q] that gives. *)
Lemma underflow_leaves_row_undefined (q : R) :
  nth_error (snd (global_attention (float32 q) steep_learned [[0]]
                    [[[1]; [2]]] hot_encoder [1%Z] None None)) 0
  = Some [q; q].
Proof.
  unfold global_attention, global_attention_energies. cbv zeta.
  cbn [snd with_context hot_encoder with_temperature sample_encoder
       make_config attn_filters truthy steep_learned compute_energy
       shape1 length seq map zip_with combine fst snd nth_error].
  f_equal.
  rewrite (global_attention_row_undefined (float32 q) _ [-3; 0] 1).
  - cbn [length repeat fdiv float32].
    destruct (Req_dec_T 0 0) as [_|H]; [reflexivity | contradiction].
  - intros j Hj Hv. cbn [length] in Hj.
    assert (j = O) by lia. subst j.
    assert (Hmax : reduce_max [-3; 0] = 0).
    { unfold reduce_max. cbn [fold_right]. apply Rmax_left. lra. }
    assert (HT : temperature
                   (with_temperature 40 (sample_encoder "global" 0)) = 40).
    { unfold temperature. cbn [attn_temperature with_temperature].
      destruct (Req_dec_T 40 0); [lra | reflexivity]. }
    fold hot_encoder in HT. rewrite HT, Hmax.
    cbn [nth fexp float32].
    destruct (Rle_dec (40 * (-3 - 0)) (-104)) as [_|H]; [reflexivity|].
    exfalso. apply H. lra.
Qed.

(** C1, as stated, fails: float32 exponentials underflow.  On the row
    above, of valid length 1 out of 2 time steps, both weights are the
    quotient of 0 by 0: where that quotient is taken to be 0 the weight
    of the valid position is 0 and not 1, and where it is taken to be 1
    the weight of the padded position is 1 and not 0. *)
Lemma C1_underflow_leaves_row_undefined :
  (exists w,
     nth_error (snd (global_attention (float32 0) steep_learned [[0]]
                       [[[1]; [2]]] hot_encoder [1%Z] None None)) 0 = Some w /\
     reduce_sum (firstn (Z.to_nat 1) w) <> 1) /\
  (exists w,
     nth_error (snd (global_attention (float32 1) steep_learned [[0]]
                       [[[1]; [2]]] hot_encoder [1%Z] None None)) 0 = Some w /\
     nth 1 w 0 <> 0).
Proof.
  split.
  - exists [0; 0]. split; [apply underflow_leaves_row_undefined|].
    change (Z.to_nat 1) with 1%nat. unfold reduce_sum. cbn. lra.
  - exists [1; 1]. split; [apply underflow_leaves_row_undefined|].
    cbn. lra.
Qed.

(** C1, amended. For every batch of hidden states, every query state
    and every valid-length vector, at a batch entry whose valid length
    lies between 1 and time_steps, with a temperature that is not
    negative and a row of energies of which at least one valid position
    keeps an exponential [exp(T * (e_j - max e))] other than 0, the
    weight row returned by [global_attention] has one weight per time
    step, sums to 1 over the first valid_length positions and is 0 at
    every position from index valid_length on; this for any batch size
    and time length, and whatever a division by 0 returns. *)
Theorem C1_global_attention_weights
    (F : FloatOps) (L : Learned) (state : tensor2) (hidden_states : tensor3)
    (encoder : EncoderConfig) (encoder_input_length : list Z)
    (context prev_weights : option tensor2) (b : nat) (valid_length : Z) :
  FloatOps_ok F ->
  Learned_shape_ok L ->
  (b < length hidden_states)%nat ->
  nth_error encoder_input_length b = Some valid_length ->
  (1 <= valid_length <= Z.of_nat (shape1 hidden_states))%Z ->
  global_attention_defined F L state hidden_states encoder encoder_input_length
                           context prev_weights b ->
  exists w,
    nth_error (snd (global_attention F L state hidden_states encoder
                      encoder_input_length context prev_weights)) b = Some w /\
    length w = shape1 hidden_states /\
    reduce_sum (firstn (Z.to_nat valid_length) w) = 1 /\
    (forall j, (Z.to_nat valid_length <= j)%nat -> nth j w 0 = 0).
Proof.
  intros HF HL Hb Hlen Hrange [HT Hdef].
  destruct (global_attention_weights_at F L state hidden_states encoder
              encoder_input_length context prev_weights b valid_length
              HL Hb Hlen) as [e_row [Hrow [Hshape Hw]]].
  eexists. split; [exact Hw|].
  rewrite <- Hshape.
  destruct (global_attention_row_spec F (temperature encoder) e_row
              valid_length HF HT (Hdef e_row valid_length Hrow Hlen))
    as [[H1 [H2 H3]] _].
  split; [exact H1|]. split; [exact H2 | exact H3].
Qed.

Lemma C1_global_attention_weights_witness :
  exists w,
    nth_error (snd (global_attention (float32 0) zero_learned sample_state
                      sample_hidden (sample_encoder "global" 0) [2%Z]
                      None None)) 0 = Some w /\
    length w = shape1 sample_hidden /\
    reduce_sum (firstn (Z.to_nat 2) w) = 1 /\
    (forall j, (Z.to_nat 2 <= j)%nat -> nth j w 0 = 0).
Proof.
  apply (C1_global_attention_weights (float32 0) zero_learned sample_state
           sample_hidden (sample_encoder "global" 0) [2%Z] None None 0 2).
  - apply float32_ok.
  - exact zero_learned_shape_ok.
  - cbn. lia.
  - reflexivity.
  - cbn. lia.
  - apply zero_learned_defined.
    + apply float32_ok.
    + unfold temperature. cbn. lra.
    + cbn. lia.
    + intros len Hlen. injection Hlen as <-. lia.
Defined.

End GlobalAttention.

(** ** The attention variants *)

Section AttentionVariants.
Open Scope R_scope.

Lemma reduce_sum_const {A} (f : A -> R) (c : R) (l : list A) :
  (forall x, In x l -> f x = c) ->
  reduce_sum (map f l) = INR (length l) * c.
Proof.
  unfold reduce_sum. induction l as [|x l IH]; intros H.
  - simpl. lra.
  - cbn [map fold_right length]. rewrite S_INR, IH.
    + rewrite (H x) by now left. lra.
    + intros y Hy. apply H. now right.
Qed.

Lemma firstn_map_seq {A} (f : nat -> A) (k n : nat) :
  (k <= n)%nat -> firstn k (map f (seq 0 n)) = map f (seq 0 k).
Proof.
  intros Hk. rewrite firstn_map. f_equal.
  replace n with (k + (n - k))%nat by lia.
  rewrite seq_app, firstn_app, length_seq, Nat.sub_diag, firstn_O, app_nil_r.
  apply firstn_all2. rewrite length_seq. lia.
Qed.

(** Sum of a one-hot row over a range of positions. *)
Lemma reduce_sum_one_hot (i : Z) (n : nat) :
  forall s : nat,
  reduce_sum (map (fun j => to_floatR (Z.of_nat j =? i)%Z) (seq s n)) =
  if ((Z.of_nat s <=? i) && (i <? Z.of_nat (s + n)))%Z then 1 else 0.
Proof.
  unfold reduce_sum. induction n as [|n IH]; intros s.
  - simpl. destruct (Z.leb_spec (Z.of_nat s) i), (Z.ltb_spec i (Z.of_nat (s + 0)));
      cbn; try reflexivity; lia.
  - cbn [seq map fold_right]. rewrite IH.
    destruct (Z.eqb_spec (Z.of_nat s) i) as [E|E];
      destruct (Z.leb_spec (Z.of_nat (S s)) i);
      destruct (Z.ltb_spec i (Z.of_nat (S s + n)));
      destruct (Z.leb_spec (Z.of_nat s) i);
      destruct (Z.ltb_spec i (Z.of_nat (s + S n)));
      cbn; try lra; lia.
Qed.

Lemma nth_one_hot (i : Z) (depth j : nat) :
  nth j (map to_floatR (one_hot i depth)) 0 =
  if (j <? depth)%nat then to_floatR (Z.of_nat j =? i)%Z else 0.
Proof.
  unfold one_hot. rewrite map_map.
  destruct (Nat.ltb_spec j depth) as [Hin|Hout].
  - rewrite (nth_map_lt _ _ j O) by (rewrite length_seq; exact Hin).
    now rewrite seq_nth by exact Hin.
  - apply nth_overflow. now rewrite length_map, length_seq.
Qed.

(** A one-hot row at a valid position is normalised. *)
Lemma one_hot_normalised (i len : Z) (T : nat) :
  (0 <= i < len)%Z -> (len <= Z.of_nat T)%Z ->
  normalised (map to_floatR (one_hot i T)) len T.
Proof.
  intros Hi Hlen. split; [|split].
  - unfold one_hot. now rewrite !length_map, length_seq.
  - unfold one_hot. rewrite map_map, firstn_map_seq by lia.
    rewrite reduce_sum_one_hot.
    destruct (Z.leb_spec (Z.of_nat 0) i), (Z.ltb_spec i (Z.of_nat (0 + Z.to_nat len)));
      cbn; try reflexivity; lia.
  - intros j Hj. rewrite nth_one_hot.
    destruct (j <? T)%nat; [|reflexivity].
    destruct (Z.eqb_spec (Z.of_nat j) i); [lia | reflexivity].
Qed.

(** With a valid length other than 0, [average_attention] divides by
    it. *)
Lemma average_attention_row_defined (F : FloatOps) (len : Z) (T : nat) :
  FloatOps_ok F -> len <> 0%Z ->
  average_attention_row F len T =
  map (fun m => to_floatR m / IZR len) (sequence_mask len T).
Proof.
  intros [_ [_ Hdiv]] Hlen. unfold average_attention_row.
  apply map_ext. intros m. apply Hdiv. apply not_0_IZR. exact Hlen.
Qed.


(** The uniform row of [average_attention] is normalised. *)
Lemma average_attention_row_normalised (F : FloatOps) (len : Z) (T : nat) :
  FloatOps_ok F ->
  (1 <= len <= Z.of_nat T)%Z ->
  normalised (average_attention_row F len T) len T.
Proof.
  intros HF Hlen.
  rewrite (average_attention_row_defined F len T HF) by lia.
  unfold sequence_mask.
  rewrite map_map. split; [|split].
  - now rewrite length_map, length_seq.
  - rewrite firstn_map_seq by lia.
    rewrite (reduce_sum_const _ (1 / IZR len)).
    + rewrite length_seq, INR_IZR_INZ, Z2Nat.id by lia.
      field. apply not_0_IZR. lia.
    + intros j Hj. apply in_seq in Hj.
      replace (Z.of_nat j <? len)%Z with true
        by (symmetry; apply Z.ltb_lt; lia).
      reflexivity.
  - intros j Hj.
    destruct (Nat.lt_ge_cases j T) as [Hin|Hout].
    + rewrite (nth_map_lt _ _ j O) by (rewrite length_seq; exact Hin).
      rewrite seq_nth by exact Hin.
      replace (Z.of_nat (0 + j) <? len)%Z with false
        by (symmetry; apply Z.ltb_ge; lia).
      cbn. unfold Rdiv. lra.
    + apply nth_overflow. now rewrite length_map, length_seq.
Qed.





End AttentionVariants.

(** ** The attention dispatcher *)

Section AttentionDispatch.
Open Scope R_scope.



Lemma nth_error_lt_Some {A} (l : list A) (j : nat) :
  (j < length l)%nat -> exists x, nth_error l j = Some x.
Proof.
  intros Hj. destruct (nth_error l j) as [x|] eqn:E; [now exists x|].
  apply nth_error_None in E. lia.
Qed.




End AttentionDispatch.

Section AttentionWeightsInvariant.
Open Scope R_scope.




End AttentionWeightsInvariant.

(** ** Numerical guards of the normalisations *)

Section NumericalGuards.
Open Scope R_scope.












End NumericalGuards.

(** ** The learned-position weights are not renormalised *)

Section LearnedPositionWeights.
Open Scope R_scope.

Lemma clamp_low_le_1 : 10 * / 10 ^ 37 <= 1.
Proof.
  assert (H1 : 1 <= 10 ^ 36) by (apply pow_R1_Rle; lra).
  assert (H2 : / 10 ^ 37 <= / 10).
  { apply Rinv_le_contravar; [lra|].
    change (10 ^ 37) with (10 * 10 ^ 36). lra. }
  lra.
Qed.

Lemma clamp_high_ge_10 : 10 <= 10 * 10 ^ 37.
Proof.
  assert (H1 : 1 <= 10 ^ 37) by (apply pow_R1_Rle; lra). lra.
Qed.

(** A sum inside the clamping range is its own clamped value. *)
Lemma softmax_denominator_inside (e : list R) :
  1 <= reduce_sum e <= 10 -> softmax_denominator e = reduce_sum e.
Proof.
  intros [Hlo Hhi]. unfold softmax_denominator, clip_by_value.
  pose proof clamp_low_le_1. pose proof clamp_high_ge_10.
  rewrite Rmax_left by lra. apply Rmin_left. lra.
Qed.

Lemma Int_part_0 : Int_part 0 = 0%Z.
Proof. exact (Int_part_INR 0). Qed.

(** With all energies 0, window radius 2, predicted position 0 and two
    valid positions out of three, the two valid weights are 1/2 and
    exp(-1/2)/2: their sum stays below 1. *)
Lemma local_learned_row_sum_below_1 :
  reduce_sum (firstn 2 (local_learned_row 2 [0; 0; 0] 2 0 3)) < 1.
Proof.
  unfold local_learned_row, softmax, local_mask, local_gaussian.
  cbn [seq map zip_with combine fst snd].
  cbn [Z.of_nat Z.ltb Z.gtb Z.geb Z.eqb Z.sub Z.add Z.compare Z.opp
       Pos.of_succ_nat Pos.succ Pos.compare Pos.compare_cont Z.pos_sub
       Pos.pred_double Z.double Z.succ_double Z.pred_double
       to_float to_floatR].
  rewrite exp_0.
  set (x := [1 * 1; 1 * 1; 1 * 0]).
  assert (HD : softmax_denominator x = 2).
  { rewrite softmax_denominator_inside; unfold x, reduce_sum; simpl; lra. }
  rewrite HD. unfold x, reduce_sum. cbn [map firstn fold_right].
  replace (- IZR 0 ^ 2 / (2 * (IZR 2 / 2) ^ 2)) with 0 by (simpl; field).
  replace (- IZR 1 ^ 2 / (2 * (IZR 2 / 2) ^ 2)) with (- (1 / 2))
    by (simpl; field).
  rewrite exp_0.
  assert (Hlt : exp (- (1 / 2)) < 1).
  { apply Rlt_le_trans with (exp 0);
      [apply exp_increasing; lra | rewrite exp_0; lra]. }
  lra.
Qed.

(** Through the dispatcher: attention type "local" without a supplied
    position returns, on such an input, a weight row whose sum over the
    valid positions is not 1. *)
Lemma local_learned_weights_not_normalised :
  exists w,
    nth_error (snd (attention exact_reals zero_learned (sample_encoder "local" 2)
                      sample_state sample_hidden [2%Z] None None None)) 0
      = Some w /\
    reduce_sum (firstn (Z.to_nat 2) w) <> 1.
Proof.
  exists (local_learned_row 2 [0; 0; 0] 2 0 3). split.
  - unfold attention. cbn [attention_type sample_encoder make_config String.eqb
                           Ascii.eqb Bool.eqb].
    unfold local_attention.
    cbn [option_map snd with_context sample_state sample_hidden shape1 length
         attn_window_size sample_encoder make_config zero_learned
         compute_energy map repeat zip_with zip_with3 combine fst snd nth_error].
    unfold local_predicted_pos.
    cbn [Wp vp zero_learned weighted_sum zip_with combine map fold_right hd].
    rewrite Rmult_0_r, Int_part_0. reflexivity.
  - pose proof local_learned_row_sum_below_1 as H.
    change (Z.to_nat 2) with 2%nat. lra.
Qed.

End LearnedPositionWeights.

(** ** The alignment position *)

Section AlignmentPosition.
Open Scope Z_scope.

Lemma flat_map_singleton {A} (l : list A) : flat_map (fun x => repeat x 1) l = l.
Proof. induction l as [|x l IH]; cbn; [reflexivity | f_equal; exact IH]. Qed.

(** Resizing to the own batch size changes nothing. *)
Lemma resize_like_same {A B} (src : list A) (like : list B) :
  length src = length like -> resize_like src like = src.
Proof.
  intros Hlen. unfold resize_like. rewrite <- Hlen.
  destruct src as [|x src]; [reflexivity|].
  rewrite Nat.div_same by discriminate.
  apply flat_map_singleton.
Qed.

(** C3, as stated, fails: with the deletion marker as chosen symbol the
    position advances (from 0 to 1 here), although the claim says it
    does not; and with a symbol that is neither the keep nor the
    deletion marker (an inserted token, 7 here) it stays, although the
    claim says it advances. *)
Lemma C3_deletion_marker_advances_position :
  update_pos sample_utils sample_decoder [0] [DEL_ID sample_utils] (Some [5])
    = [1] /\
  update_pos sample_utils sample_decoder [0] [7] (Some [5]) = [0].
Proof. split; reflexivity. Qed.

(** C3, amended. For a decoder configured with [pred_edits],
    [update_pos] increments the alignment position by 1 when the
    chosen symbol is the keep marker or the deletion marker, and leaves
    it as it is for every other symbol (an insertion); the result is
    clamped from above to the encoder's true valid length. *)
Theorem C3_update_pos_keep_or_delete
    (U : Utils) (decoder : DecoderConfig) (pos symbol max_pos : list Z)
    (b : nat) (p s m : Z) :
  pred_edits decoder = true ->
  length pos = length symbol ->
  length max_pos = length symbol ->
  nth_error pos b = Some p ->
  nth_error symbol b = Some s ->
  nth_error max_pos b = Some m ->
  nth_error (update_pos U decoder pos symbol (Some max_pos)) b =
  Some (Z.min (if (s =? KEEP_ID U) || (s =? DEL_ID U) then p + 1 else p) m).
Proof.
  intros Hedits Hlp Hlm Hp Hs Hm.
  unfold update_pos. rewrite Hedits. cbn [negb option_map]. cbv zeta.
  rewrite !resize_like_same by assumption.
  apply nth_error_zip_with; [|exact Hm].
  replace (if (s =? KEEP_ID U) || (s =? DEL_ID U) then p + 1 else p)
    with (p + to_float ((s =? KEEP_ID U) || (s =? DEL_ID U)))
    by (destruct ((s =? KEEP_ID U) || (s =? DEL_ID U)); cbn; lia).
  apply nth_error_zip_with; [exact Hp|].
  rewrite nth_error_map.
  erewrite nth_error_zip_with; [reflexivity | |];
    rewrite nth_error_map, Hs; reflexivity.
Qed.

Lemma C3_update_pos_keep_or_delete_witness :
  nth_error (update_pos sample_utils sample_decoder [2; 6] [3; 9] (Some [5; 6])) 1
  = Some (Z.min (if (9 =? KEEP_ID sample_utils) || (9 =? DEL_ID sample_utils)
                 then 6 + 1 else 6) 6).
Proof.
  apply (C3_update_pos_keep_or_delete sample_utils sample_decoder
           [2; 6] [3; 9] [5; 6] 1 6 9 6); reflexivity.
Defined.

End AlignmentPosition.

(** ** The next input symbol *)

Section NextInputSymbol.
Open Scope Z_scope.

Lemma ta_index_in {A} (ta : TensorArray A) (i : Z) :
  0 <= i < Z.of_nat (length ta) -> ta_index ta i = Some (Z.to_nat i).
Proof.
  intros Hi. unfold ta_index.
  replace (0 <=? i) with true by (symmetry; apply Z.leb_le; lia).
  replace (i <? Z.of_nat (length ta)) with true by (symmetry; apply Z.ltb_lt; lia).
  reflexivity.
Qed.

Lemma nth_ta_write {A} (ta : TensorArray A) (n j : nat) (v : A) :
  (n < length ta)%nat ->
  nth j (firstn n ta ++ Some v :: skipn (S n) ta) None =
  if (j =? n)%nat then Some v else nth j ta None.
Proof.
  intros Hn.
  destruct (Nat.eqb_spec j n) as [->|Hne].
  - rewrite app_nth2 by (rewrite length_firstn; lia).
    rewrite length_firstn.
    replace (n - Nat.min n (length ta))%nat with O by lia. reflexivity.
  - rewrite <- (firstn_skipn n ta) at 3.
    destruct (Nat.lt_ge_cases j n) as [Hlt|Hge].
    + rewrite !app_nth1 by (rewrite length_firstn; lia). reflexivity.
    + rewrite !app_nth2 by (rewrite length_firstn; lia).
      rewrite length_firstn.
      replace (j - Nat.min n (length ta))%nat with (S (j - n - 1)) by lia.
      cbn [nth].
      replace (skipn (S n) ta) with (skipn 1 (skipn n ta))
        by (rewrite skipn_skipn; f_equal; lia).
      destruct (skipn n ta) as [|x r]; [now destruct (j - n - 1)%nat|].
      reflexivity.
Qed.

(** A write inside the array succeeds, keeps the size, is read back,
    and extends the written prefix by the entry written. *)
Lemma ta_write_in {A} (ta : TensorArray A) (k : nat) (v : A) :
  (k < length ta)%nat ->
  ta_written ta k ->
  exists ta', ta_write ta (Z.of_nat k) v = Some ta' /\
              ta_read ta' (Z.of_nat k) = Some v /\
              length ta' = length ta /\
              ta_written ta' (S k).
Proof.
  intros Hk Hw. unfold ta_write.
  rewrite (ta_index_in ta (Z.of_nat k)) by lia. rewrite Nat2Z.id.
  eexists. split; [reflexivity|].
  assert (Hlen : length (firstn k ta ++ Some v :: skipn (S k) ta) = length ta).
  { rewrite length_app, length_firstn. cbn [length]. rewrite length_skipn. lia. }
  split; [|split; [exact Hlen|]].
  - unfold ta_read. rewrite ta_index_in by (rewrite Hlen; lia).
    rewrite Nat2Z.id, nth_ta_write by exact Hk.
    now rewrite Nat.eqb_refl.
  - intros i Hi. rewrite nth_ta_write by exact Hk.
    destruct (Nat.eqb_spec i k); [discriminate | apply Hw; lia].
Qed.

Lemma ta_read_unstack {A} (rows : list A) (i : Z) :
  0 <= i < Z.of_nat (length rows) ->
  exists row, nth_error rows (Z.to_nat i) = Some row /\
              ta_read (ta_unstack rows) i = Some row.
Proof.
  intros Hi. unfold ta_read, ta_unstack.
  rewrite ta_index_in by (rewrite length_map; exact Hi).
  destruct (nth_error rows (Z.to_nat i)) as [row|] eqn:E.
  - exists row. split; [reflexivity|].
    apply (map_nth_error Some) in E.
    apply nth_error_nth. exact E.
  - apply nth_error_None in E. lia.
Qed.

(** How [predicted_symbol] chooses, for a step inside the loop. *)
Lemma predicted_symbol_spec
    (decoder_inputs : list (list Z)) (time time_steps : Z) (rnd : Randomness)
    (feed_previous : R) (feed_argmax : bool) (output_ : tensor2) :
  Z.of_nat (length decoder_inputs) = time_steps ->
  0 <= time < time_steps ->
  exists symbol,
    predicted_symbol (ta_unstack decoder_inputs) time time_steps rnd
                     feed_previous feed_argmax output_
      = Some (symbol, Stopped) /\
    ((time < time_steps - 1 /\ (random_uniform rnd >= feed_previous)%R) ->
       nth_error decoder_inputs (Z.to_nat (time + 1)) = Some symbol) /\
    (~ (time < time_steps - 1 /\ (random_uniform rnd >= feed_previous)%R) ->
       feed_argmax = false ->
       symbol = multinomial rnd
                  (map (fun row => map ln (tf_nn_softmax row)) output_)) /\
    (~ (time < time_steps - 1 /\ (random_uniform rnd >= feed_previous)%R) ->
       feed_argmax = true ->
       symbol = map tf_argmax output_).
Proof.
  intros Hin Htime. unfold predicted_symbol. cbv zeta.
  destruct (Z.ltb_spec time (time_steps - 1)) as [Hlt|Hge];
    [destruct (Rge_dec (random_uniform rnd) feed_previous) as [Hu|Hu]|];
    cbn [andb].
  - destruct (ta_read_unstack decoder_inputs (time + 1)) as [row [Hrow Hread]];
      [lia|].
    rewrite Hread. cbn [option_map stop_gradient fst].
    exists row. split; [reflexivity|].
    split; [intros _; exact Hrow|].
    split; intros Hn; exfalso; apply Hn; split; assumption.
  - destruct feed_argmax; cbn [negb option_map stop_gradient fst];
      eexists; (split; [reflexivity|]);
      (split; [intros [_ H]; contradiction|]);
      split; intros _ E; try reflexivity; discriminate.
  - destruct feed_argmax; cbn [negb option_map stop_gradient fst];
      eexists; (split; [reflexivity|]);
      (split; [intros [H _]; lia|]);
      split; intros _ E; try reflexivity; discriminate.
Qed.

(** One step of the loop, from loop variables satisfying the invariant
    at [k < T]: the step succeeds, re-establishes the invariant at
    [k + 1], and feeds on the symbol chosen by [predicted_symbol] from
    the logits it records. *)
Lemma time_step_spec
    (U : Utils) (decoder : DecoderConfig) (net : DecoderNet)
    (decoder_inputs : list (list Z)) (rnd : Randomness)
    (feed_previous : R) (feed_argmax : bool) (max_pos : list Z)
    (T k : nat) (v : LoopVars) :
  length decoder_inputs = T ->
  loop_invariant T k v ->
  (k < T)%nat ->
  exists v' output_ symbol,
    time_step U decoder net (ta_unstack decoder_inputs) (Z.of_nat T) rnd
              feed_previous feed_argmax max_pos v = Some v' /\
    loop_invariant T (S k) v' /\
    ta_read (lv_outputs v') (lv_time v) = Some output_ /\
    predicted_symbol (ta_unstack decoder_inputs) (lv_time v) (Z.of_nat T) rnd
                     feed_previous feed_argmax output_
      = Some (symbol, Stopped) /\
    lv_input_symbol v' = (symbol, Stopped) /\
    ta_read (lv_samples v') (lv_time v) = Some symbol /\
    lv_input v' = embed net symbol.
Proof.
  intros Hin [Htime [[Lo Wo] [[Ls Ws] [[Lw Ww] [[La Wa] [Lsa Wsa]]]]]] Hk.
  unfold time_step. rewrite Htime. cbv zeta.
  destruct (look net _ (lv_input v) (lv_pos v) (lv_prev_weights v))
    as [context new_weights].
  set (state2 := if conditional_rnn decoder then _ else _).
  set (output_ := generate net state2 (lv_input v) context).
  destruct (predicted_symbol_spec decoder_inputs (Z.of_nat k) (Z.of_nat T) rnd
              feed_previous feed_argmax output_) as [symbol [Hpred _]];
    [lia | lia |].
  rewrite Hpred. cbn [fst].
  destruct (ta_write_in (lv_samples v) k symbol) as [sa [E1 [R1 [L1 W1]]]];
    [lia | exact Wsa |].
  destruct (ta_write_in (lv_attns v) k context) as [at_ [E2 [_ [L2 W2]]]];
    [lia | exact Wa |].
  destruct (ta_write_in (lv_weights v) k new_weights) as [we [E3 [_ [L3 W3]]]];
    [lia | exact Ww |].
  destruct (ta_write_in (lv_states v) k state2) as [st [E4 [_ [L4 W4]]]];
    [lia | exact Ws |].
  destruct (ta_write_in (lv_outputs v) k output_) as [ou [E5 [R5 [L5 W5]]]];
    [lia | exact Wo |].
  rewrite E1, E2, E3, E4, E5.
  eexists. exists output_, symbol.
  split; [reflexivity|]. cbn [lv_time lv_outputs lv_states lv_weights lv_attns
                              lv_samples lv_input_symbol lv_input].
  split.
  { unfold loop_invariant.
    cbn [lv_time lv_outputs lv_states lv_weights lv_attns lv_samples].
    repeat split; try assumption; lia. }
  split; [exact R5|]. split; [exact Hpred|]. split; [reflexivity|].
  split; [exact R1 | reflexivity].
Qed.

(** C4. At a decoder time step (0 <= time < time_steps, the tensor
    arrays having one entry per step, those before [time] written),
    [_time_step] succeeds, and the symbol it feeds to the next step is
    chosen from the logits [output_] it records for the step as
    follows: when the step is not the last one and the uniform random
    number is >= feed_previous, it is the ground-truth token at
    time+1; otherwise it is a multinomial sample from (the logarithm
    of) the softmax of the logits when feed_argmax is false, and the
    argmax of the logits when feed_argmax is true.  In all cases the
    chosen symbol is cut off from gradient flow, and it is the symbol
    recorded in [samples] and embedded as the next input. *)
Theorem C4_time_step_next_symbol
    (U : Utils) (decoder : DecoderConfig) (net : DecoderNet)
    (decoder_inputs : list (list Z)) (rnd : Randomness)
    (feed_previous : R) (feed_argmax : bool) (max_pos : list Z)
    (k : nat) (v : LoopVars) :
  let inputs := ta_unstack decoder_inputs in
  let time_steps := Z.of_nat (length decoder_inputs) in
  let time := lv_time v in
  loop_invariant (length decoder_inputs) k v ->
  0 <= time < time_steps ->
  exists v' output_ symbol,
    time_step U decoder net inputs time_steps rnd feed_previous feed_argmax
              max_pos v = Some v' /\
    ta_read (lv_outputs v') time = Some output_ /\
    lv_input_symbol v' = (symbol, Stopped) /\
    ta_read (lv_samples v') time = Some symbol /\
    lv_input v' = embed net symbol /\
    lv_time v' = time + 1 /\
    ((time < time_steps - 1 /\ (random_uniform rnd >= feed_previous)%R) ->
       ta_read inputs (time + 1) = Some symbol) /\
    (~ (time < time_steps - 1 /\ (random_uniform rnd >= feed_previous)%R) ->
       feed_argmax = false ->
       symbol = multinomial rnd
                  (map (fun row => map ln (tf_nn_softmax row)) output_)) /\
    (~ (time < time_steps - 1 /\ (random_uniform rnd >= feed_previous)%R) ->
       feed_argmax = true ->
       symbol = map tf_argmax output_).
Proof.
  intros inputs time_steps time Hinv Htime.
  assert (Hk : time = Z.of_nat k) by apply Hinv.
  destruct (time_step_spec U decoder net decoder_inputs rnd feed_previous
              feed_argmax max_pos (length decoder_inputs) k v eq_refl Hinv)
    as [v' [output_ [symbol [Hstep [Hinv' [Hout [Hpred [Hsym [Hsa Hemb]]]]]]]]];
    [unfold time_steps in Htime; lia|].
  exists v', output_, symbol.
  split; [exact Hstep|]. split; [exact Hout|]. split; [exact Hsym|].
  split; [exact Hsa|]. split; [exact Hemb|].
  split; [destruct Hinv' as [Ht _]; rewrite Ht; lia|].
  destruct (predicted_symbol_spec decoder_inputs time time_steps rnd
              feed_previous feed_argmax output_ eq_refl Htime)
    as [symbol' [Hpred' [Htarget [Hsample Hargmax]]]].
  fold time time_steps in Hpred. unfold inputs in *.
  assert (symbol' = symbol) by congruence. subst symbol'.
  split; [|split; assumption].
  intros Huse. pose proof (Htarget Huse) as Hrow.
  destruct (ta_read_unstack decoder_inputs (time + 1)) as [row [Hrow' Hread]];
    [unfold time_steps in *; lia|].
  congruence.
Qed.

Lemma C4_time_step_next_symbol_witness :
  exists v',
    time_step sample_utils sample_decoder sample_net
              (ta_unstack [[0]; [5]]) (Z.of_nat (length [[0]; [5]]))
              sample_randomness 0 true [3] sample_loop_vars = Some v' /\
    lv_input_symbol v' = ([5], Stopped) /\
    lv_time v' = 1.
Proof.
  destruct (C4_time_step_next_symbol sample_utils sample_decoder sample_net
              [[0]; [5]] sample_randomness 0 true [3] 0 sample_loop_vars)
    as [v' [output_ [symbol [Hstep [_ [Hsym [_ [_ [Ht [Htarget _]]]]]]]]]].
  - unfold loop_invariant, ta_written. cbn.
    repeat split; try reflexivity; intros i Hi; lia.
  - cbn. lia.
  - exists v'. split; [exact Hstep|]. split; [|exact Ht].
    rewrite Hsym. f_equal.
    assert (H : ta_read (ta_unstack [[0]; [5]]) (lv_time sample_loop_vars + 1)
                = Some symbol).
    { apply Htarget. split; [cbn; lia|].
      unfold sample_randomness. cbn. lra. }
    vm_compute in H. congruence.
Defined.

End NextInputSymbol.

(** ** The decoding loop *)

Section DecodingLoop.
Open Scope Z_scope.

Lemma length_transpose {A} (t : list (list A)) :
  length (transpose t) = shape1 t.
Proof. unfold transpose. now rewrite length_map, length_seq. Qed.

Lemma ta_new_invariant (A : Type) (T : nat) :
  length (ta_new A T) = T /\ ta_written (ta_new A T) 0.
Proof.
  split; [apply repeat_length | intros i Hi; lia].
Qed.

(** A tensor array whose entries are all written can be stacked. *)
Lemma ta_stack_written {A} (ta : TensorArray A) :
  ta_written ta (length ta) ->
  exists l, ta_stack ta = Some l /\ length l = length ta.
Proof.
  induction ta as [|x r IH]; intros Hw.
  - exists []. split; reflexivity.
  - destruct x as [x|]; [|exfalso; apply (Hw O); [cbn; lia | reflexivity]].
    destruct IH as [l [Hl Hlen]].
    { intros i Hi. apply (Hw (S i)). cbn. lia. }
    exists (x :: l). cbn [ta_stack]. rewrite Hl. split; [reflexivity|].
    cbn. now rewrite Hlen.
Qed.

(** With as much fuel as there are steps left, the loop over
    [_time_step] ends with every tensor array fully written. *)
Lemma decoding_loop_returns
    (U : Utils) (decoder : DecoderConfig) (net : DecoderNet)
    (decoder_inputs : list (list Z)) (rnd : Z -> Randomness)
    (feed_previous : R) (feed_argmax : bool) (max_pos : list Z) (T : nat) :
  length decoder_inputs = T ->
  forall (fuel k : nat) (v : LoopVars),
  loop_invariant T k v ->
  (k <= T)%nat ->
  (T - k <= fuel)%nat ->
  exists v',
    while_loop fuel
      (fun v => lv_time v <? Z.of_nat T)
      (fun v => in_range
         (time_step U decoder net (ta_unstack decoder_inputs) (Z.of_nat T)
                    (rnd (lv_time v)) feed_previous feed_argmax max_pos v))
      v = Ok v' /\
    loop_invariant T T v'.
Proof.
  intros Hin. induction fuel as [|fuel IH]; intros k v Hinv Hk Hfuel.
  - assert (k = T) by lia. subst k. exists v. cbn [while_loop].
    destruct Hinv as [Ht Hrest]. rewrite Ht, Z.ltb_irrefl.
    split; [reflexivity | split; assumption].
  - cbn [while_loop]. pose proof Hinv as [Ht _]. rewrite Ht.
    destruct (Z.ltb_spec (Z.of_nat k) (Z.of_nat T)) as [Hlt|Hge].
    + destruct (time_step_spec U decoder net decoder_inputs (rnd (Z.of_nat k))
                  feed_previous feed_argmax max_pos T k v Hin Hinv)
        as [v' [_ [_ [Hstep [Hinv' _]]]]]; [lia|].
      rewrite Hstep. cbn [in_range bind].
      apply (IH (S k) v' Hinv'); lia.
    + assert (k = T) by lia. subst k. exists v. split; [reflexivity | exact Hinv].
Qed.

(** Unless the maxout assertion fails, [attention_decoder] returns for
    every non-empty batch of inputs of positive time length and an
    alignment index that points at an encoder. *)
Lemma attention_decoder_returns
    (U : Utils) (decoder : DecoderConfig) (net : DecoderNet)
    (rnd : Z -> Randomness) (decoder_inputs : list (list Z))
    (initial_state : tensor2) (attention_states : list tensor3)
    (encoder_input_length : list (list Z)) (feed_previous : R)
    (align_encoder_id : nat) (feed_argmax : bool) :
  pred_maxout_layer decoder && negb (cell_size decoder mod 2 =? 0) = false ->
  (1 <= shape1 decoder_inputs)%nat ->
  (align_encoder_id < length attention_states)%nat ->
  (align_encoder_id < length encoder_input_length)%nat ->
  exists out,
    attention_decoder U decoder net rnd decoder_inputs initial_state
      attention_states encoder_input_length feed_previous align_encoder_id
      feed_argmax = Ok out.
Proof.
  intros Hassert HT Ha Hl. unfold attention_decoder. rewrite Hassert. cbv zeta.
  set (T := shape1 decoder_inputs) in *.
  unfold index.
  destruct (nth_error attention_states align_encoder_id) as [align_states|] eqn:E1;
    [|apply nth_error_None in E1; lia].
  destruct (nth_error encoder_input_length align_encoder_id) as [max_pos|] eqn:E2;
    [|apply nth_error_None in E2; lia].
  cbn [bind].
  destruct (ta_read_unstack (transpose decoder_inputs) 0) as [sym [_ Hread]];
    [rewrite length_transpose; fold T; lia|].
  rewrite Hread. cbn [in_range bind].
  match goal with
  | |- context [while_loop T ?c ?b ?v0] =>
      destruct (decoding_loop_returns U decoder net (transpose decoder_inputs)
                  rnd feed_previous feed_argmax max_pos T
                  (length_transpose decoder_inputs) T 0 v0)
        as [final [Hloop Hinv]]
  end.
  { unfold loop_invariant.
    cbn [lv_time lv_outputs lv_states lv_weights lv_attns lv_samples].
    split; [reflexivity|].
    repeat split; try apply repeat_length; intros i Hi; lia. }
  { lia. }
  { lia. }
  rewrite Hloop. cbn [bind].
  destruct Hinv as [_ [[Lo Wo] [[Ls Ws] [[Lw Ww] [[La Wa] [Lsa Wsa]]]]]].
  rewrite <- Lo in Wo. rewrite <- Ls in Ws. rewrite <- Lw in Ww.
  rewrite <- La in Wa. rewrite <- Lsa in Wsa.
  destruct (ta_stack_written _ Wo) as [o [-> _]].
  destruct (ta_stack_written _ Ww) as [w [-> _]].
  destruct (ta_stack_written _ Ws) as [s [-> _]].
  destruct (ta_stack_written _ Wa) as [a [-> _]].
  destruct (ta_stack_written _ Wsa) as [sa [-> _]].
  cbn [in_range bind]. eexists. reflexivity.
Qed.

End DecodingLoop.

(** ** Configuration errors *)

Section ConfigurationErrors.
Open Scope Z_scope.

Lemma nonempty_true {A} (l : list A) : l <> [] -> nonempty l = true.
Proof. destruct l; [contradiction | reflexivity]. Qed.

(** The only exception of the loop body of [multi_encoder]. *)
Lemma encoder_graph_raises (net : EncoderNet) (encoder : EncoderConfig)
    (x : list (list Z)) (l : list Z) (other : option tensor3) :
  (exists r, encoder_graph net encoder x l other = Ok r) \/
  encoder_graph net encoder x l other = Raise NotImplementedError.
Proof.
  unfold encoder_graph.
  destruct (nonempty (convolutions encoder)), (binary encoder);
    cbn [bind]; try (right; reflexivity);
    destruct (truthy (maxout_stride encoder));
    cbn [bind]; try (right; reflexivity);
    destruct (bidir encoder); cbn [bind];
    try (destruct (nonempty (time_pooling encoder)
                   || (final_state encoder =? "concat_last")%string);
         cbn [bind]; try (right; reflexivity));
    destruct (encode net encoder x other _);
    left; eexists; reflexivity.
Qed.

Lemma encoder_graph_unsupported (net : EncoderNet) (encoder : EncoderConfig)
    (x : list (list Z)) (l : list Z) (other : option tensor3) :
  convolutions_on_binary encoder \/ pooling_on_unidirectional encoder ->
  encoder_graph net encoder x l other = Raise NotImplementedError.
Proof.
  intros [[Hconv Hbin]|[Hbidir Hpool]]; unfold encoder_graph.
  - rewrite (nonempty_true _ Hconv), Hbin. reflexivity.
  - assert (Hcond : nonempty (time_pooling encoder)
                    || (final_state encoder =? "concat_last")%string = true).
    { destruct Hpool as [Hp|Hf].
      - now rewrite (nonempty_true _ Hp).
      - rewrite Hf, String.eqb_refl. apply orb_true_r. }
    rewrite Hbidir, Hcond.
    destruct (nonempty (convolutions encoder)), (binary encoder);
      cbn [bind]; try reflexivity;
      destruct (truthy (maxout_stride encoder)); reflexivity.
Qed.

Lemma multi_encoder_from_unsupported (net : EncoderNet)
    (encoder_inputs : list (list (list Z)))
    (encoder_input_length : list (list Z)) (other : option tensor3)
    (encoder : EncoderConfig) :
  convolutions_on_binary encoder \/ pooling_on_unidirectional encoder ->
  forall (encoders : list EncoderConfig) (i : nat),
  In encoder encoders ->
  (i + length encoders <= length encoder_inputs)%nat ->
  (i + length encoders <= length encoder_input_length)%nat ->
  multi_encoder_from net i encoder_inputs encoders encoder_input_length other
  = Raise NotImplementedError.
Proof.
  intros Hbad. induction encoders as [|e rest IH]; intros i Hin Hx Hl;
    [contradiction|].
  cbn [length] in Hx, Hl. cbn [multi_encoder_from]. unfold index.
  destruct (nth_error encoder_inputs i) as [x|] eqn:Ex;
    [|apply nth_error_None in Ex; lia].
  destruct (nth_error encoder_input_length i) as [l|] eqn:El;
    [|apply nth_error_None in El; lia].
  cbn [bind].
  destruct Hin as [->|Hin].
  - now rewrite encoder_graph_unsupported.
  - destruct (encoder_graph_raises net e x l other) as [[r ->]| ->];
      [|reflexivity].
    cbn [bind]. rewrite IH by (assumption || lia). reflexivity.
Qed.

Lemma length_lengths_of_inputs (U : Utils) (encoder_inputs : list (list (list Z))) :
  length (lengths_of_inputs U encoder_inputs) = length encoder_inputs.
Proof. unfold lengths_of_inputs. apply length_map. Qed.

(** C8. Unsupported configurations stop the construction with an
    exception and no graph: [multi_encoder] raises NotImplementedError
    when one of its encoders has convolutions on binary inputs, or time
    pooling (or the concat_last final state) without being
    bidirectional; [attention_decoder] fails its assertion when the
    decoder has a maxout output layer and an odd cell size; and
    [encoder_decoder], which builds the whole graph, ends with an
    exception in each of these cases. *)
Theorem C8_unsupported_configurations_raise
    (U : Utils) (enet : EncoderNet) (dnet : DecoderNet) (rnd : Z -> Randomness)
    (reward_baseline : tensor3 -> tensor2)
    (encoders : list EncoderConfig) (decoders : list DecoderConfig)
    (encoder_inputs : list (list (list Z))) (targets : list (list (list Z)))
    (feed_previous : R) (align_encoder_id : nat)
    (encoder_input_length : list (list Z)) (feed_argmax : bool)
    (rewards : option tensor2) (use_baseline : bool)
    (other_inputs : option tensor3) (decoder_inputs : list (list Z))
    (initial_state : tensor2) (attention_states : list tensor3) :
  (forall encoder,
     In encoder encoders ->
     convolutions_on_binary encoder \/ pooling_on_unidirectional encoder ->
     (length encoders <= length encoder_inputs)%nat ->
     (length encoders <= length encoder_input_length)%nat ->
     multi_encoder enet encoder_inputs encoders encoder_input_length other_inputs
       = Raise NotImplementedError /\
     (decoders <> [] -> targets <> [] ->
      encoder_decoder U enet dnet rnd reward_baseline encoders decoders
        encoder_inputs targets feed_previous align_encoder_id
        (Some encoder_input_length) feed_argmax rewards use_baseline
        = Raise NotImplementedError) /\
     (decoders <> [] -> targets <> [] ->
      encoder_decoder U enet dnet rnd reward_baseline encoders decoders
        encoder_inputs targets feed_previous align_encoder_id
        None feed_argmax rewards use_baseline
        = Raise NotImplementedError)) /\
  (forall decoder,
     odd_maxout decoder ->
     attention_decoder U decoder dnet rnd decoder_inputs initial_state
       attention_states encoder_input_length feed_previous align_encoder_id
       feed_argmax = Raise AssertionError /\
     (nth_error decoders 0 = Some decoder ->
      forall lengths, exists e,
        encoder_decoder U enet dnet rnd reward_baseline encoders decoders
          encoder_inputs targets feed_previous align_encoder_id
          lengths feed_argmax rewards use_baseline = Raise e)).
Proof.
  split.
  - intros encoder Hin Hbad Hx Hl.
    assert (Hmulti : forall lengths other,
      (length encoders <= length lengths)%nat ->
      multi_encoder enet encoder_inputs encoders lengths other
      = Raise NotImplementedError).
    { intros lengths other Hlen. unfold multi_encoder.
      rewrite (multi_encoder_from_unsupported enet encoder_inputs lengths other
                 encoder Hbad encoders 0 Hin) by (cbn; lia).
      reflexivity. }
    split; [apply Hmulti; exact Hl|].
    split; intros Hd Ht; unfold encoder_decoder, index;
      (destruct decoders as [|d ds]; [contradiction|]);
      (destruct targets as [|t ts]; [contradiction|]);
      cbn [nth_error bind].
    + rewrite Hmulti by exact Hl. reflexivity.
    + rewrite Hmulti by (rewrite length_lengths_of_inputs; exact Hx).
      reflexivity.
  - intros decoder [Hmax Hodd].
    assert (Hassert : pred_maxout_layer decoder
                      && negb (cell_size decoder mod 2 =? 0) = true).
    { rewrite Hmax. cbn [andb]. apply negb_true_iff. apply Z.eqb_neq. exact Hodd. }
    assert (Hdec : forall inputs st states lens fp al fa,
      attention_decoder U decoder dnet rnd inputs st states lens fp al fa
      = Raise AssertionError).
    { intros. unfold attention_decoder. rewrite Hassert. reflexivity. }
    split; [apply Hdec|].
    intros Hd lengths. unfold encoder_decoder, index. rewrite Hd. cbn [bind].
    destruct (nth_error targets 0) as [t|]; cbn [bind];
      [|eexists; reflexivity].
    destruct (multi_encoder enet encoder_inputs encoders _ None)
      as [[[states st] lens]|e]; cbn [bind]; [|eexists; reflexivity].
    rewrite Hdec. cbn [bind]. eexists; reflexivity.
Qed.

Lemma C8_unsupported_configurations_raise_witness :
  multi_encoder sample_enet [[[1; 2]]] [binary_conv_encoder] [[2]] None
    = Raise NotImplementedError /\
  attention_decoder sample_utils odd_maxout_decoder sample_net
    (fun _ => sample_randomness) [[0; 5]] [[0%R]] [sample_hidden] [[2]]
    0 0 true = Raise AssertionError.
Proof.
  destruct (C8_unsupported_configurations_raise sample_utils sample_enet
              sample_net (fun _ => sample_randomness) (fun _ => [])
              [binary_conv_encoder] [odd_maxout_decoder] [[[1; 2]]]
              [[[0; 5; 1]]] 0 0 [[2]] true None false None [[0; 5]] [[0%R]]
              [sample_hidden]) as [HA HB].
  split.
  - apply (HA binary_conv_encoder).
    + left. reflexivity.
    + left. split; [discriminate | reflexivity].
    + cbn. lia.
    + cbn. lia.
  - apply (HB odd_maxout_decoder).
    split; [reflexivity | cbn; lia].
Defined.

End ConfigurationErrors.

(** ** The chained pipeline *)

Section ChainedPipeline.
Open Scope R_scope.

Lemma encoder_graph_supported (net : EncoderNet) (encoder : EncoderConfig)
    (x : list (list Z)) (l : list Z) (other : option tensor3) :
  supported_encoder encoder ->
  exists r, encoder_graph net encoder x l other = Ok r.
Proof.
  intros [Hconv [Hmax Hbidir]]. unfold encoder_graph.
  assert (H1 : nonempty (convolutions encoder) && binary encoder = false).
  { destruct Hconv as [->| ->]; [reflexivity | apply andb_false_r]. }
  assert (H2 : truthy (maxout_stride encoder) && binary encoder = false).
  { destruct Hmax as [->| ->]; [reflexivity | apply andb_false_r]. }
  assert (H3 : negb (bidir encoder)
               && (nonempty (time_pooling encoder)
                   || (final_state encoder =? "concat_last")%string) = false).
  { destruct Hbidir as [->|[-> Hf]]; [reflexivity|].
    apply String.eqb_neq in Hf. rewrite Hf. apply andb_false_r. }
  destruct (nonempty (convolutions encoder)), (binary encoder);
    try discriminate H1; cbn [bind];
    destruct (truthy (maxout_stride encoder));
    try discriminate H2; cbn [bind];
    destruct (bidir encoder); cbn [bind];
    try (destruct (nonempty (time_pooling encoder)
                   || (final_state encoder =? "concat_last")%string);
         try discriminate H3; cbn [bind]);
    destruct (encode net encoder x other _);
    eexists; reflexivity.
Qed.

(** [multi_encoder] on one supported encoder returns one tensor of
    hidden states and one vector of lengths. *)
Lemma multi_encoder_single (net : EncoderNet) (encoder : EncoderConfig)
    (x : list (list Z)) (xs : list (list (list Z)))
    (l : list Z) (ls : list (list Z)) (other : option tensor3) :
  supported_encoder encoder ->
  exists states st lens,
    multi_encoder net (x :: xs) [encoder] (l :: ls) other
    = Ok ([states], st, [lens]).
Proof.
  intros Hs. unfold multi_encoder. cbn [multi_encoder_from index nth_error bind].
  destruct (encoder_graph_supported net encoder x l other Hs) as [[[o s] n] ->].
  cbn [bind map fst snd]. eexists _, _, _. reflexivity.
Qed.

(** Whatever [chained_encoder_decoder] returns carries the loss triple
    of the second-stage cross-entropy, weighted chaining loss added, and
    two absent entries. *)
Lemma chained_losses_spec
    (U : Utils) (enet1 enet2 : EncoderNet) (dnet1 dnet2 : DecoderNet)
    (rnd1 rnd2 : Z -> Randomness) (cv : ChainingVars)
    (encoders : list EncoderConfig) (decoders : list DecoderConfig)
    (encoder_inputs : list (list (list Z))) (targets : list (list (list Z)))
    (feed_previous : R) (chaining_strategy : option string)
    (align_encoder_id : nat) (chaining_non_linearity : bool)
    (chaining_loss_ratio : R) (chaining_stop_gradient : bool)
    (r : ModelOutputs) :
  chained_encoder_decoder U enet1 enet2 dnet1 dnet2 rnd1 rnd2 cv encoders
    decoders encoder_inputs targets feed_previous chaining_strategy
    align_encoder_id chaining_non_linearity chaining_loss_ratio
    chaining_stop_gradient = Ok r ->
  exists stage1 chaining_loss targets0 outputs,
    chained_first_stage U enet1 dnet1 rnd1 encoders encoder_inputs
      = Ok (stage1, chaining_loss) /\
    nth_error targets 0 = Some targets0 /\
    mo_outputs r = [outputs] /\
    mo_losses r =
      [Some (if Req_dec_T chaining_loss_ratio 0
             then chained_xent_loss U targets0 outputs
             else chained_xent_loss U targets0 outputs
                  + chaining_loss_ratio * chaining_loss);
       None; None].
Proof.
  unfold chained_encoder_decoder, index.
  destruct (nth_error decoders 0) as [decoder|]; cbn [bind]; [|discriminate].
  destruct (nth_error targets 0) as [targets0|]; cbn [bind]; [|discriminate].
  destruct (negb (length encoders =? 2)%nat); [discriminate|].
  cbv zeta.
  destruct (chained_first_stage U enet1 dnet1 rnd1 encoders encoder_inputs)
    as [[stage1 chaining_loss]|e]; cbn [bind]; [|discriminate].
  destruct (multi_encoder enet2 _ _ _ _) as [[[states st] lens]|e];
    cbn [bind]; [|discriminate].
  match goal with
  | |- bind ?m _ = _ -> _ => destruct m as [states'|e]
  end; cbn [bind]; [|discriminate].
  destruct (attention_decoder U decoder dnet2 rnd2 _ _ _ _ _ _ _) as [out|e];
    cbn [bind]; [|discriminate].
  intros H. injection H as <-.
  exists stage1, chaining_loss, targets0, (do_outputs out).
  cbn [mo_outputs mo_losses]. repeat split; reflexivity.
Qed.

Lemma supported_decoder_assert (decoder : DecoderConfig) :
  supported_decoder decoder ->
  pred_maxout_layer decoder && negb (cell_size decoder mod 2 =? 0)%Z = false.
Proof.
  intros [->|H]; [reflexivity|].
  rewrite H. cbn. apply andb_false_r.
Qed.

(** The first stage returns on supported configurations and a
    non-empty batch. *)
Lemma chained_first_stage_returns
    (U : Utils) (enet : EncoderNet) (dnet : DecoderNet) (rnd : Z -> Randomness)
    (e0 e1 : EncoderConfig) (x0 x1 : list (list Z)) (xs : list (list (list Z))) :
  supported_encoder e1 ->
  supported_decoder e0 ->
  x0 <> [] ->
  exists stage1 chaining_loss,
    chained_first_stage U enet dnet rnd [e0; e1] (x0 :: x1 :: xs)
    = Ok (stage1, chaining_loss).
Proof.
  intros He1 Hd0 Hx0. unfold chained_first_stage. cbv zeta.
  cbn [index nth_error bind tl lengths_of_inputs map].
  match goal with
  | |- context [multi_encoder enet (x1 :: xs) [e1] (?l :: ?ls) None] =>
      destruct (multi_encoder_single enet e1 x1 xs l ls None He1)
        as [states [st [lens ->]]]
  end.
  cbn [bind].
  match goal with
  | |- context [attention_decoder U e0 dnet rnd ?di ?s ?a ?l ?fp ?al ?fa] =>
      destruct (attention_decoder_returns U e0 dnet rnd di s a l fp al fa)
        as [out ->]
  end.
  - apply supported_decoder_assert. exact Hd0.
  - destruct x0 as [|row x0]; [contradiction|]. cbn. lia.
  - cbn. lia.
  - cbn. lia.
  - cbn [bind]. eexists _, _. reflexivity.
Qed.

Lemma shape1_removelast (t : list (list Z)) :
  (2 <= shape1 t)%nat -> (1 <= shape1 (map (@removelast Z) t))%nat.
Proof.
  destruct t as [|row t]; cbn; [lia|].
  intros H. rewrite removelast_firstn_len, length_firstn. lia.
Qed.

(** The chained pipeline returns on supported configurations, a
    non-empty batch of inputs, and targets holding at least two tokens
    per row. *)
Lemma chained_encoder_decoder_returns
    (U : Utils) (enet1 enet2 : EncoderNet) (dnet1 dnet2 : DecoderNet)
    (rnd1 rnd2 : Z -> Randomness) (cv : ChainingVars)
    (e0 e1 : EncoderConfig) (decoder : DecoderConfig)
    (decoders : list DecoderConfig)
    (x0 x1 : list (list Z)) (xs : list (list (list Z)))
    (targets0 : list (list Z)) (targets : list (list (list Z)))
    (feed_previous : R) (chaining_strategy : option string)
    (chaining_non_linearity : bool) (chaining_loss_ratio : R)
    (chaining_stop_gradient : bool) :
  supported_encoder e0 -> supported_encoder e1 ->
  supported_decoder e0 -> supported_decoder decoder ->
  x0 <> [] ->
  (2 <= shape1 targets0)%nat ->
  exists r,
    chained_encoder_decoder U enet1 enet2 dnet1 dnet2 rnd1 rnd2 cv [e0; e1]
      (decoder :: decoders) (x0 :: x1 :: xs) (targets0 :: targets)
      feed_previous chaining_strategy 0 chaining_non_linearity
      chaining_loss_ratio chaining_stop_gradient = Ok r.
Proof.
  intros He0 He1 Hd0 Hd Hx0 Ht.
  unfold chained_encoder_decoder. cbn [index nth_error bind length Nat.eqb negb].
  cbv zeta.
  destruct (chained_first_stage_returns U enet1 dnet1 rnd1 e0 e1 x0 x1 xs
              He1 Hd0 Hx0) as [stage1 [chaining_loss ->]].
  cbn [bind firstn lengths_of_inputs map].
  match goal with
  | |- context [multi_encoder enet2 [x0] [e0] [?l] ?other] =>
      destruct (multi_encoder_single enet2 e0 x0 [] l [] other He0)
        as [states [st [lens ->]]]
  end.
  cbn [bind].
  match goal with
  | |- context [bind ?m _] =>
      assert (Hstates : exists a, m = Ok [a])
  end.
  { repeat match goal with
           | |- context [if ?c then _ else _] => destruct c
           end; cbn [update_first_entry]; eexists; reflexivity. }
  destruct Hstates as [a ->]. cbn [bind].
  match goal with
  | |- context [attention_decoder U decoder dnet2 rnd2 ?di ?s ?a ?l ?fp ?al ?fa] =>
      destruct (attention_decoder_returns U decoder dnet2 rnd2 di s a l fp al fa)
        as [out ->]
  end.
  - apply supported_decoder_assert. exact Hd.
  - apply shape1_removelast. exact Ht.
  - cbn. lia.
  - cbn. lia.
  - cbn [bind]. eexists. reflexivity.
Qed.

(** C7. [chained_encoder_decoder] returns a loss triple whose
    reinforcement and baseline entries are absent, and whose first
    entry is the second-stage cross-entropy loss plus
    chaining_loss_ratio times the chaining loss of the first stage
    whenever chaining_loss_ratio is not zero; and it does return on
    supported configurations of two encoders, a non-empty batch, and
    targets of at least two tokens per row. *)
Theorem C7_chained_loss_triple
    (U : Utils) (enet1 enet2 : EncoderNet) (dnet1 dnet2 : DecoderNet)
    (rnd1 rnd2 : Z -> Randomness) (cv : ChainingVars)
    (encoders : list EncoderConfig) (decoders : list DecoderConfig)
    (encoder_inputs : list (list (list Z))) (targets : list (list (list Z)))
    (feed_previous : R) (chaining_strategy : option string)
    (align_encoder_id : nat) (chaining_non_linearity : bool)
    (chaining_loss_ratio : R) (chaining_stop_gradient : bool) :
  (forall r,
     chained_encoder_decoder U enet1 enet2 dnet1 dnet2 rnd1 rnd2 cv encoders
       decoders encoder_inputs targets feed_previous chaining_strategy
       align_encoder_id chaining_non_linearity chaining_loss_ratio
       chaining_stop_gradient = Ok r ->
     exists stage1 chaining_loss targets0 outputs xent_loss,
       chained_first_stage U enet1 dnet1 rnd1 encoders encoder_inputs
         = Ok (stage1, chaining_loss) /\
       nth_error targets 0 = Some targets0 /\
       mo_outputs r = [outputs] /\
       mo_losses r = [Some xent_loss; None; None] /\
       (chaining_loss_ratio <> 0 ->
        xent_loss = chained_xent_loss U targets0 outputs
                    + chaining_loss_ratio * chaining_loss)) /\
  (forall e0 e1 decoder ds x0 x1 xs targets0 ts,
     encoders = [e0; e1] -> decoders = decoder :: ds ->
     encoder_inputs = x0 :: x1 :: xs -> targets = targets0 :: ts ->
     align_encoder_id = O ->
     supported_encoder e0 -> supported_encoder e1 ->
     supported_decoder e0 -> supported_decoder decoder ->
     x0 <> [] -> (2 <= shape1 targets0)%nat ->
     exists r,
       chained_encoder_decoder U enet1 enet2 dnet1 dnet2 rnd1 rnd2 cv encoders
         decoders encoder_inputs targets feed_previous chaining_strategy
         align_encoder_id chaining_non_linearity chaining_loss_ratio
         chaining_stop_gradient = Ok r).
Proof.
  split.
  - intros r Hr.
    destruct (chained_losses_spec _ _ _ _ _ _ _ _ _ _ _ _ _ _ _ _ _ _ _ Hr)
      as [stage1 [chaining_loss [targets0 [outputs [H1 [H2 [H3 H4]]]]]]].
    eexists stage1, chaining_loss, targets0, outputs, _.
    split; [exact H1|]. split; [exact H2|]. split; [exact H3|].
    split; [exact H4|].
    intros Hratio.
    destruct (Req_dec_T chaining_loss_ratio 0); [contradiction | reflexivity].
  - intros e0 e1 decoder ds x0 x1 xs targets0 ts -> -> -> -> ->.
    apply chained_encoder_decoder_returns.
Qed.

Lemma C7_chained_loss_triple_witness :
  exists r xent_loss,
    chained_encoder_decoder sample_utils sample_enet sample_enet sample_net
      sample_net (fun _ => sample_randomness) (fun _ => sample_randomness)
      sample_chaining_vars
      [sample_encoder "global" 0; sample_encoder "global" 0]
      [sample_encoder "global" 0] [[[5; 1]]; [[6; 1]]]%Z [[[0; 7; 1]]]%Z
      0 None 0 false 1 false = Ok r /\
    mo_losses r = [Some xent_loss; None; None].
Proof.
  destruct (C7_chained_loss_triple sample_utils sample_enet sample_enet
              sample_net sample_net (fun _ => sample_randomness)
              (fun _ => sample_randomness) sample_chaining_vars
              [sample_encoder "global" 0; sample_encoder "global" 0]
              [sample_encoder "global" 0] [[[5; 1]]; [[6; 1]]]%Z
              [[[0; 7; 1]]]%Z 0 None 0 false 1 false) as [Hspec Hreturns].
  assert (Hs : supported_encoder (sample_encoder "global" 0)).
  { split; [left; reflexivity|]. split; left; reflexivity. }
  assert (Hd : supported_decoder (sample_encoder "global" 0))
    by (left; reflexivity).
  destruct (Hreturns _ _ _ _ _ _ _ _ _ eq_refl eq_refl eq_refl eq_refl eq_refl
              Hs Hs Hd Hd) as [r Hr].
  - discriminate.
  - cbn. lia.
  - destruct (Hspec r Hr) as [_ [_ [_ [_ [xent_loss [_ [_ [_ [Hl _]]]]]]]]].
    exists r, xent_loss. split; [exact Hr | exact Hl].
Defined.

End ChainedPipeline.

(** * Further properties of the masks and the valid lengths *)

Section ValidLengths.
Open Scope Z_scope.

Lemma reduce_sumZ_ones_zeros (k n : nat) :
  reduce_sumZ (repeat 1 k ++ repeat 0 n) = Z.of_nat k.
Proof.
  unfold reduce_sumZ. induction k as [|k IH].
  - cbn [repeat app]. induction n as [|n IHn]; cbn in *; lia.
  - cbn [repeat app fold_right]. rewrite IH. lia.
Qed.

Lemma map_const_repeat {A B} (f : A -> B) (c : B) (l : list A) :
  (forall x, In x l -> f x = c) -> map f l = repeat c (length l).
Proof.
  induction l as [|x l IH]; intros H; [reflexivity|].
  cbn. rewrite (H x) by now left. f_equal. apply IH.
  intros y Hy. apply H. now right.
Qed.

(** The mask rebuilt from a length: ones below the length, zeros from
    it on. *)
Lemma sequence_mask_ones_zeros (k n : nat) :
  map to_float (sequence_mask (Z.of_nat k) (k + n)) = repeat 1 k ++ repeat 0 n.
Proof.
  unfold sequence_mask. rewrite map_map, seq_app, map_app. f_equal.
  - rewrite (map_const_repeat _ 1); [now rewrite length_seq|].
    intros j Hj. apply in_seq in Hj.
    replace (Z.of_nat j <? Z.of_nat k) with true
      by (symmetry; apply Z.ltb_lt; lia).
    reflexivity.
  - rewrite (map_const_repeat _ 0); [now rewrite length_seq|].
    intros j Hj. apply in_seq in Hj.
    replace (Z.of_nat j <? Z.of_nat k) with false
      by (symmetry; apply Z.ltb_ge; lia).
    reflexivity.
Qed.

(** The valid length of a row of positive time length. *)
Lemma valid_length_row (eos_id : Z) (row : list Z) :
  row <> [] ->
  reduce_sumZ (get_weights_row eos_id true row) =
  Z.of_nat (Nat.min (S (eos_free_prefix eos_id row)) (length row)).
Proof.
  intros Hne. rewrite get_weights_row_true by exact Hne.
  apply reduce_sumZ_ones_zeros.
Qed.

(** X1. The valid length that [encoder_decoder] computes for a row of
    positive time length T, as the sum of its [include_first_eos] mask,
    counts the tokens up to and including the first end-of-sequence id
    (all T tokens when there is none): it lies between 1 and T. *)
Theorem X1_valid_length_counts_through_first_eos
    (U : Utils) (encoder_inputs : list (list (list Z))) (i b : nat)
    (x : list (list Z)) (row : list Z) :
  nth_error encoder_inputs i = Some x ->
  nth_error x b = Some row ->
  row <> [] ->
  exists lens len,
    nth_error (lengths_of_inputs U encoder_inputs) i = Some lens /\
    nth_error lens b = Some len /\
    len = Z.of_nat (Nat.min (S (eos_free_prefix (EOS_ID U) row)) (length row)) /\
    1 <= len <= Z.of_nat (length row) /\
    (forall p, nth_error row p = Some (EOS_ID U) ->
       (forall q, (q < p)%nat -> nth_error row q <> Some (EOS_ID U)) ->
       len = Z.of_nat p + 1) /\
    (~ In (EOS_ID U) row -> len = Z.of_nat (length row)).
Proof.
  intros Hx Hrow Hne.
  unfold lengths_of_inputs, get_weights.
  eexists _, _. split; [|split].
  - rewrite nth_error_map, Hx. reflexivity.
  - rewrite !nth_error_map, Hrow. reflexivity.
  - rewrite valid_length_row by exact Hne.
    pose proof (eos_free_prefix_le (EOS_ID U) row) as Hle.
    assert (0 < length row)%nat by (destruct row; [contradiction | cbn; lia]).
    split; [reflexivity|]. split; [lia|]. split.
    + intros p Hp Hbefore.
      rewrite (eos_free_prefix_at _ _ _ Hp Hbefore).
      assert (p < length row)%nat by (apply nth_error_Some; congruence).
      lia.
    + intros Hnin. rewrite (eos_free_prefix_not_In _ _ Hnin). lia.
Qed.

Lemma X1_valid_length_counts_through_first_eos_witness :
  exists lens len,
    nth_error (lengths_of_inputs sample_utils [[[7; 8; 1; 9]]]) 0 = Some lens /\
    nth_error lens 0 = Some len /\ len = 3.
Proof.
  destruct (X1_valid_length_counts_through_first_eos sample_utils
              [[[7; 8; 1; 9]]] 0 0 [[7; 8; 1; 9]] [7; 8; 1; 9]
              eq_refl eq_refl) as [lens [len [H1 [H2 [H3 _]]]]].
  - discriminate.
  - exists lens, len. split; [exact H1|]. split; [exact H2|].
    rewrite H3. reflexivity.
Defined.

(** X2. The mask and the valid length carry the same information: for
    a row of positive time length T, [tf.sequence_mask] of the sum of
    the [include_first_eos] mask, over T positions, is that mask again;
    so the mask that [global_attention] rebuilds from the lengths is
    the one the lengths were computed from. *)
Theorem X2_sequence_mask_of_valid_length (eos_id : Z) (row : list Z) :
  row <> [] ->
  map to_float
    (sequence_mask (reduce_sumZ (get_weights_row eos_id true row)) (length row))
  = get_weights_row eos_id true row.
Proof.
  intros Hne. rewrite valid_length_row by exact Hne.
  rewrite get_weights_row_true by exact Hne.
  set (k := Nat.min (S (eos_free_prefix eos_id row)) (length row)).
  replace (length row) with (k + (length row - k))%nat at 1 by lia.
  apply sequence_mask_ones_zeros.
Qed.

Lemma X2_sequence_mask_of_valid_length_witness :
  map to_float
    (sequence_mask (reduce_sumZ (get_weights_row 1 true [7; 1; 9]))
                   (length [7; 1; 9]))
  = get_weights_row 1 true [7; 1; 9].
Proof.
  apply (X2_sequence_mask_of_valid_length 1 [7; 1; 9]). discriminate.
Defined.

(** X3. Shape of the mask: without [include_first_eos] a mask row has
    the time length T of its input row; with it the row has T entries
    as well when T >= 1, but one entry when T = 0, since the column of
    ones is put in front of an empty row. *)
Theorem X3_get_weights_row_length (eos_id : Z) (row : list Z) :
  length (get_weights_row eos_id false row) = length row /\
  length (get_weights_row eos_id true row) = Nat.max (length row) 1.
Proof.
  pose proof (eos_free_prefix_le eos_id row) as Hle. split.
  - rewrite get_weights_row_false, length_app, !repeat_length. lia.
  - destruct row as [|x r]; [reflexivity|].
    rewrite get_weights_row_true by discriminate.
    rewrite length_app, !repeat_length. cbn [length] in *. lia.
Qed.

End ValidLengths.

(** * Further properties of [global_attention] *)

Section GlobalAttentionMore.
Open Scope R_scope.

(** X4. Lengths computed from the end-of-sequence masks lie in the
    range [global_attention] needs: for inputs of positive time length
    T and hidden states over the same T steps, at a batch entry where
    the normalisation is defined (a temperature that is not negative
    and a valid exponential other than 0), the weights computed with
    the valid lengths
    [sum(get_weights(inputs, eos, include_first_eos=True))] are a
    probability distribution over the row's valid positions and 0 over
    its padding. *)
Theorem X4_global_attention_on_computed_lengths
    (F : FloatOps) (U : Utils) (L : Learned) (state : tensor2)
    (hidden_states : tensor3) (encoder : EncoderConfig)
    (context prev_weights : option tensor2)
    (encoder_inputs_ : list (list Z)) (b : nat) (row : list Z) :
  FloatOps_ok F ->
  Learned_shape_ok L ->
  (b < length hidden_states)%nat ->
  nth_error encoder_inputs_ b = Some row ->
  row <> [] ->
  length row = shape1 hidden_states ->
  let encoder_input_length :=
    map reduce_sumZ (get_weights encoder_inputs_ (EOS_ID U) true) in
  global_attention_defined F L state hidden_states encoder encoder_input_length
                           context prev_weights b ->
  exists w len,
    nth_error encoder_input_length b = Some len /\
    (1 <= len <= Z.of_nat (shape1 hidden_states))%Z /\
    nth_error (snd (global_attention F L state hidden_states encoder
                      encoder_input_length context prev_weights)) b = Some w /\
    normalised w len (shape1 hidden_states).
Proof.
  intros HF HL Hb Hrow Hne HT lens Hdef.
  assert (Hlen : nth_error lens b
                 = Some (reduce_sumZ (get_weights_row (EOS_ID U) true row))).
  { unfold lens, get_weights. rewrite !nth_error_map, Hrow. reflexivity. }
  destruct (global_attention_normalised F L state hidden_states encoder lens
              context prev_weights b _ HF HL Hb Hlen Hdef) as [w [Hw Hn]].
  exists w, (reduce_sumZ (get_weights_row (EOS_ID U) true row)).
  split; [exact Hlen|]. split; [|split; [exact Hw | exact Hn]].
  rewrite valid_length_row by exact Hne. rewrite <- HT.
  assert (0 < length row)%nat by (destruct row; [contradiction | cbn; lia]).
  lia.
Qed.

Lemma X4_global_attention_on_computed_lengths_witness :
  exists w len,
    nth_error (map reduce_sumZ (get_weights [[7; 1; 9]%Z] (EOS_ID sample_utils) true))
              0 = Some len /\
    (1 <= len <= Z.of_nat (shape1 sample_hidden))%Z /\
    nth_error (snd (global_attention (float32 0) zero_learned sample_state
                      sample_hidden (sample_encoder "global" 0)
                      (map reduce_sumZ
                         (get_weights [[7; 1; 9]%Z] (EOS_ID sample_utils) true))
                      None None)) 0 = Some w /\
    normalised w len (shape1 sample_hidden).
Proof.
  apply (X4_global_attention_on_computed_lengths (float32 0) sample_utils
           zero_learned sample_state sample_hidden (sample_encoder "global" 0)
           None None [[7; 1; 9]%Z] 0 [7; 1; 9]%Z).
  - apply float32_ok.
  - exact zero_learned_shape_ok.
  - cbn. lia.
  - reflexivity.
  - discriminate.
  - reflexivity.
  - apply zero_learned_defined.
    + apply float32_ok.
    + unfold temperature. cbn. lra.
    + cbn. lia.
    + intros len Hlen. injection Hlen as <-. lia.
Defined.

Lemma zip_with_scale (c : R) (g : R -> R) (e m : list R) :
  zip_with Rmult (map (fun v => c * g v) e) m =
  map (Rmult c) (zip_with Rmult (map g e) m).
Proof.
  unfold zip_with. revert m. induction e as [|x e IH]; intros m; [reflexivity|].
  destruct m as [|y m]; [reflexivity|].
  cbn [map combine fst snd]. rewrite IH. f_equal. ring.
Qed.

Lemma reduce_sum_scale_l (c : R) (l : list R) :
  reduce_sum (map (Rmult c) l) = c * reduce_sum l.
Proof.
  unfold reduce_sum. induction l as [|x l IH]; simpl; [ring|].
  rewrite IH. ring.
Qed.

(** Over the exact reals the masked exponentials of [global_attention]
    are those of the unshifted energies, all scaled by
    [exp(- T * max)]. *)
Lemma global_attention_exp_scaled (T : R) (e : list R) (len : Z) (n : nat) :
  global_attention_exp exact_reals T e len n =
  map (Rmult (exp (- (T * reduce_max e))))
      (zip_with Rmult (map (fun v => exp (T * v)) e)
                (map to_floatR (sequence_mask len n))).
Proof.
  unfold global_attention_exp. cbn [fexp exact_reals]. rewrite map_map.
  rewrite <- zip_with_scale. f_equal.
  apply map_ext. intros v. rewrite <- exp_plus. f_equal. ring.
Qed.

(** With a valid position, the sum of the masked real exponentials is
    positive. *)
Lemma masked_exp_sum_pos (T : R) (e : list R) (len : Z) :
  (1 <= len <= Z.of_nat (length e))%Z ->
  0 < reduce_sum (zip_with Rmult (map (fun v => exp (T * v)) e)
                           (map to_floatR (sequence_mask len (length e)))).
Proof.
  intros Hlen.
  set (x := zip_with Rmult (map (fun v => exp (T * v)) e)
                     (map to_floatR (sequence_mask len (length e)))).
  assert (Hx : forall j, (j < length e)%nat ->
             nth j x 0 = exp (T * nth j e 0) * to_floatR (Z.of_nat j <? len)%Z).
  { intros j Hj. unfold x.
    rewrite (nth_zip_with Rmult _ _ j 0 0 0)
      by (rewrite ?length_map, ?length_sequence_mask; exact Hj).
    rewrite nth_sequence_mask by exact Hj. f_equal.
    now rewrite (nth_map_lt _ _ j 0) by exact Hj. }
  assert (Hlx : length x = length e).
  { unfold x. rewrite length_zip_with, !length_map, length_sequence_mask. lia. }
  assert (Hnonneg : forall j, (j < length x)%nat -> 0 <= nth j x 0).
  { intros j Hj. rewrite Hx by lia.
    pose proof (exp_pos (T * nth j e 0)).
    destruct (Z.of_nat j <? len)%Z; unfold to_floatR; lra. }
  pose proof (nth_le_reduce_sum x O Hnonneg) as Hle.
  rewrite Hx in Hle by lia.
  replace (Z.of_nat 0 <? len)%Z with true in Hle
    by (symmetry; apply Z.ltb_lt; lia).
  pose proof (exp_pos (T * nth 0 e 0)). unfold to_floatR in Hle. lra.
Qed.

(** X5. Over the exact reals, subtracting the row maximum does not
    change the result: with at least one valid position, the weights of
    [global_attention] are the plain masked softmax
    [exp(T*e_j)*mask_j / sum_i exp(T*e_i)*mask_i] of the energies. *)
Theorem X5_global_attention_is_masked_softmax (T : R) (e : list R) (len : Z) :
  (1 <= len <= Z.of_nat (length e))%Z ->
  global_attention_row exact_reals T e len (length e) =
  masked_softmax_row T e len (length e).
Proof.
  intros Hlen.
  pose proof (masked_exp_sum_pos T e len Hlen) as HD.
  unfold global_attention_row, masked_softmax_row.
  cbv zeta. cbn [fdiv exact_reals]. rewrite global_attention_exp_scaled.
  set (x := zip_with Rmult (map (fun v => exp (T * v)) e)
                     (map to_floatR (sequence_mask len (length e)))) in *.
  set (c := exp (- (T * reduce_max e))) in *.
  assert (Hc : 0 < c) by apply exp_pos.
  rewrite reduce_sum_scale_l.
  rewrite map_map. apply map_ext. intros v. field. split; lra.
Qed.

Lemma X5_global_attention_is_masked_softmax_witness :
  global_attention_row exact_reals 1 [0; 3; 5] 2 (length [0; 3; 5]) =
  masked_softmax_row 1 [0; 3; 5] 2 (length [0; 3; 5]).
Proof.
  apply (X5_global_attention_is_masked_softmax 1 [0; 3; 5] 2). cbn. lia.
Defined.

(** X6. Where its normalisation is defined (a temperature that is not
    negative and a valid exponential other than 0), [global_attention]
    returns weights between 0 and 1; a position whose exponential
    underflowed to 0 gets the weight 0; and a valid position that holds
    the largest energy of its row gets at least the weight
    1/valid_length. *)
Theorem X6_global_attention_weights_bounded
    (F : FloatOps) (L : Learned) (state : tensor2) (hidden_states : tensor3)
    (encoder : EncoderConfig) (encoder_input_length : list Z)
    (context prev_weights : option tensor2) (b : nat) (valid_length : Z) :
  FloatOps_ok F ->
  Learned_shape_ok L ->
  (b < length hidden_states)%nat ->
  nth_error encoder_input_length b = Some valid_length ->
  global_attention_defined F L state hidden_states encoder encoder_input_length
                           context prev_weights b ->
  exists w e_row,
    nth_error (snd (global_attention F L state hidden_states encoder
                      encoder_input_length context prev_weights)) b = Some w /\
    nth_error (global_attention_energies L state hidden_states encoder
                 context prev_weights) b = Some e_row /\
    (forall j, 0 <= nth j w 0 <= 1) /\
    (forall j, (j < length e_row)%nat ->
       fexp F (temperature encoder * (nth j e_row 0 - reduce_max e_row)) = 0 ->
       nth j w 0 = 0) /\
    (forall j, (j < length e_row)%nat -> (Z.of_nat j < valid_length)%Z ->
       nth j e_row 0 = reduce_max e_row ->
       1 / IZR valid_length <= nth j w 0).
Proof.
  intros HF HL Hb Hlen [HT Hdef].
  destruct (global_attention_weights_at F L state hidden_states encoder
              encoder_input_length context prev_weights b valid_length
              HL Hb Hlen) as [e_row [Hrow [Hshape Hw]]].
  eexists. exists e_row. split; [exact Hw|]. split; [exact Hrow|].
  destruct (global_attention_row_spec F (temperature encoder) e_row
              valid_length HF HT (Hdef e_row valid_length Hrow Hlen))
    as [_ [H2 [H3 H4]]].
  split; [exact H2|]. split; [exact H3 | exact H4].
Qed.

Lemma X6_global_attention_weights_bounded_witness :
  exists w e_row,
    nth_error (snd (global_attention (float32 0) zero_learned sample_state
                      sample_hidden (sample_encoder "global" 0) [2%Z]
                      None None)) 0 = Some w /\
    nth_error (global_attention_energies zero_learned sample_state
                 sample_hidden (sample_encoder "global" 0) None None) 0
      = Some e_row /\
    (forall j, 0 <= nth j w 0 <= 1).
Proof.
  destruct (X6_global_attention_weights_bounded (float32 0) zero_learned
              sample_state sample_hidden (sample_encoder "global" 0) [2%Z]
              None None 0 2) as [w [e_row [H1 [H2 [H3 _]]]]].
  - apply float32_ok.
  - exact zero_learned_shape_ok.
  - cbn. lia.
  - reflexivity.
  - apply zero_learned_defined.
    + apply float32_ok.
    + unfold temperature. cbn. lra.
    + cbn. lia.
    + intros len Hlen. injection Hlen as <-. lia.
  - exists w, e_row. split; [exact H1|]. split; [exact H2 | exact H3].
Defined.

End GlobalAttentionMore.

(** * Further properties of the fixed attention variants *)

Section FixedAttention.
Open Scope R_scope.

(** X7. [average_attention] weighs the valid positions uniformly: with
    1 <= valid_length <= time_steps the weight is 1/valid_length at
    every position below valid_length and 0 at every other position. *)
Theorem X7_average_attention_uniform
    (F : FloatOps) (hidden_states : tensor3) (encoder_input_length : list Z)
    (b : nat) (valid_length : Z) :
  FloatOps_ok F ->
  nth_error encoder_input_length b = Some valid_length ->
  (1 <= valid_length <= Z.of_nat (shape1 hidden_states))%Z ->
  exists w,
    nth_error (snd (average_attention F hidden_states encoder_input_length)) b
      = Some w /\
    length w = shape1 hidden_states /\
    (forall j, (j < shape1 hidden_states)%nat ->
       nth j w 0 = if (Z.of_nat j <? valid_length)%Z
                   then 1 / IZR valid_length else 0).
Proof.
  intros HF Hlen Hrange. unfold average_attention. cbv zeta. cbn [snd].
  eexists. split; [rewrite nth_error_map, Hlen; reflexivity|].
  rewrite (average_attention_row_defined F valid_length _ HF) by lia.
  unfold sequence_mask.
  rewrite map_map. split; [now rewrite length_map, length_seq|].
  intros j Hj.
  rewrite (nth_map_lt _ _ j O) by (rewrite length_seq; exact Hj).
  rewrite seq_nth by exact Hj. cbn [Nat.add].
  destruct (Z.of_nat j <? valid_length)%Z; cbn [to_floatR];
    [reflexivity | unfold Rdiv; lra].
Qed.

Lemma X7_average_attention_uniform_witness :
  exists w,
    nth_error (snd (average_attention (float32 0) sample_hidden [2%Z])) 0
      = Some w /\
    length w = shape1 sample_hidden /\
    (forall j, (j < shape1 sample_hidden)%nat ->
       nth j w 0 = if (Z.of_nat j <? 2)%Z then 1 / IZR 2 else 0).
Proof.
  apply (X7_average_attention_uniform (float32 0) sample_hidden [2%Z] 0 2).
  - apply float32_ok.
  - reflexivity.
  - cbn. lia.
Defined.

(** X8. [last_state_attention] returns a one-hot row at index
    valid_length - 1; when that index is not a position of the input
    (valid_length <= 0, or valid_length > time_steps) the row is all
    zeros, so that nothing is attended to. *)
Theorem X8_last_state_attention_one_hot
    (hidden_states : tensor3) (encoder_input_length : list Z)
    (b : nat) (valid_length : Z) :
  nth_error encoder_input_length b = Some valid_length ->
  exists w,
    nth_error (snd (last_state_attention hidden_states encoder_input_length)) b
      = Some w /\
    length w = shape1 hidden_states /\
    (forall j, (j < shape1 hidden_states)%nat ->
       nth j w 0 = if (Z.of_nat j =? valid_length - 1)%Z then 1 else 0) /\
    ((valid_length <= 0 \/ Z.of_nat (shape1 hidden_states) < valid_length)%Z ->
     w = repeat 0 (shape1 hidden_states)).
Proof.
  intros Hlen. unfold last_state_attention. cbv zeta. cbn [snd].
  eexists. split; [rewrite nth_error_map, Hlen; reflexivity|].
  split; [unfold one_hot; now rewrite !length_map, length_seq|].
  split.
  - intros j Hj. rewrite nth_one_hot.
    replace (j <? shape1 hidden_states)%nat with true
      by (symmetry; apply Nat.ltb_lt; exact Hj).
    now destruct (Z.of_nat j =? valid_length - 1)%Z.
  - intros Hout. unfold one_hot. rewrite map_map.
    rewrite (map_const_repeat _ 0); [now rewrite length_seq|].
    intros j Hj. apply in_seq in Hj.
    replace (Z.of_nat j =? valid_length - 1)%Z with false
      by (symmetry; apply Z.eqb_neq; lia).
    reflexivity.
Qed.

Lemma X8_last_state_attention_one_hot_witness :
  exists w,
    nth_error (snd (last_state_attention sample_hidden [0%Z])) 0 = Some w /\
    w = repeat 0 (shape1 sample_hidden).
Proof.
  destruct (X8_last_state_attention_one_hot sample_hidden [0%Z] 0 0 eq_refl)
    as [w [H1 [_ [_ H4]]]].
  exists w. split; [exact H1 | apply H4; left; lia].
Defined.

Lemma vadd_zeros_l (d : nat) (v : list R) :
  length v = d -> vadd (repeat 0 d) v = v.
Proof.
  revert v. induction d as [|d IH]; intros v Hv.
  - reflexivity.
  - destruct v as [|x v]; [discriminate|]. cbn [repeat vadd].
    rewrite IH by (cbn in Hv; lia). f_equal. lra.
Qed.

Lemma vadd_zeros_r (d : nat) (v : list R) :
  length v = d -> vadd v (repeat 0 d) = v.
Proof.
  revert v. induction d as [|d IH]; intros v Hv.
  - destruct v; [reflexivity | discriminate].
  - destruct v as [|x v]; [discriminate|]. cbn [repeat vadd].
    rewrite IH by (cbn in Hv; lia). f_equal. lra.
Qed.

Lemma vadd_nil_r (v : list R) : vadd v [] = v.
Proof. now destruct v. Qed.

Lemma scale_0 (h : list R) : map (Rmult 0) h = repeat 0 (length h).
Proof. apply map_const_repeat. intros x _. lra. Qed.

Lemma scale_1 (h : list R) : map (Rmult 1) h = h.
Proof.
  induction h as [|x h IH]; [reflexivity|]. cbn. rewrite IH. f_equal. lra.
Qed.

(** The sum of vectors of width [d] weighted by a one-hot row picks the
    vector at the hot index; when the hot index is outside the range it
    is the zero vector (the empty vector if there is nothing to sum). *)
Lemma weighted_sum_one_hot_from (d : nat) (i : Z) (hidden : list (list R)) :
  Forall (fun h => length h = d) hidden ->
  forall s : nat,
  weighted_sum (map (fun j => to_floatR (Z.of_nat j =? i)%Z)
                    (seq s (length hidden))) hidden =
  if ((Z.of_nat s <=? i) && (i <? Z.of_nat (s + length hidden)))%Z
  then nth (Z.to_nat i - s) hidden []
  else match hidden with
       | [] => []
       | _ :: _ => repeat 0 d
       end.
Proof.
  unfold weighted_sum, zip_with.
  induction hidden as [|h rest IH]; intros Hd s.
  - cbn. destruct ((Z.of_nat s <=? i) && (i <? Z.of_nat (s + 0)))%Z eqn:E;
      [|reflexivity].
    apply andb_true_iff in E. destruct E as [E1 E2].
    apply Z.leb_le in E1. apply Z.ltb_lt in E2. lia.
  - inversion Hd as [|h' rest' Hh Hrest]; subst.
    cbn [length seq map combine fold_right fst snd].
    specialize (IH Hrest (S s)).
    cbn [map combine fold_right] in IH. rewrite IH.
    destruct (Z.eqb_spec (Z.of_nat s) i) as [E|E].
    + cbn [to_floatR]. rewrite scale_1.
      replace ((Z.of_nat (S s) <=? i) && (i <? Z.of_nat (S s + length rest)))%Z
        with false by (symmetry; apply andb_false_iff; left; apply Z.leb_gt; lia).
      replace ((Z.of_nat s <=? i) && (i <? Z.of_nat (s + S (length rest))))%Z
        with true
        by (symmetry; apply andb_true_iff; split;
            [apply Z.leb_le | apply Z.ltb_lt]; lia).
      replace (Z.to_nat i - s)%nat with O by lia. cbn [nth].
      destruct rest; [apply vadd_nil_r | apply vadd_zeros_r; reflexivity].
    + cbn [to_floatR]. rewrite scale_0.
      destruct ((Z.of_nat (S s) <=? i) && (i <? Z.of_nat (S s + length rest)))%Z
        eqn:E2.
      * apply andb_true_iff in E2. destruct E2 as [E2 E3].
        apply Z.leb_le in E2. apply Z.ltb_lt in E3.
        replace ((Z.of_nat s <=? i) && (i <? Z.of_nat (s + S (length rest))))%Z
          with true
          by (symmetry; apply andb_true_iff; split;
              [apply Z.leb_le | apply Z.ltb_lt]; lia).
        replace (Z.to_nat i - s)%nat with (S (Z.to_nat i - S s)) by lia.
        cbn [nth]. apply vadd_zeros_l.
        rewrite Forall_forall in Hrest. apply Hrest. apply nth_In. lia.
      * replace ((Z.of_nat s <=? i) && (i <? Z.of_nat (s + S (length rest))))%Z
          with false.
        -- destruct rest; [apply vadd_nil_r | apply vadd_zeros_l, repeat_length].
        -- symmetry. apply andb_false_iff. apply andb_false_iff in E2.
           destruct E2 as [E2|E2]; [apply Z.leb_gt in E2 | apply Z.ltb_ge in E2];
             [left; apply Z.leb_gt | right; apply Z.ltb_ge]; lia.
Qed.

Lemma weighted_sum_one_hot (d : nat) (i : Z) (hidden : list (list R)) :
  Forall (fun h => length h = d) hidden ->
  (0 <= i < Z.of_nat (length hidden))%Z ->
  weighted_sum (map to_floatR (one_hot i (length hidden))) hidden =
  nth (Z.to_nat i) hidden [].
Proof.
  intros Hd Hi. unfold one_hot. rewrite map_map.
  rewrite (weighted_sum_one_hot_from d i hidden Hd 0).
  replace ((Z.of_nat 0 <=? i) && (i <? Z.of_nat (0 + length hidden)))%Z
    with true
    by (symmetry; apply andb_true_iff; split;
        [apply Z.leb_le | apply Z.ltb_lt]; lia).
  now rewrite Nat.sub_0_r.
Qed.

(** X9. The context vector of [last_state_attention] is the encoder's
    hidden state at the last valid position: for hidden states of one
    width over time_steps steps and 1 <= valid_length <= time_steps, it
    is the hidden state at index valid_length - 1. *)
Theorem X9_last_state_attention_context
    (hidden_states : tensor3) (encoder_input_length : list Z)
    (b d : nat) (valid_length : Z) (hidden : list (list R)) :
  nth_error hidden_states b = Some hidden ->
  nth_error encoder_input_length b = Some valid_length ->
  length hidden = shape1 hidden_states ->
  Forall (fun h => length h = d) hidden ->
  (1 <= valid_length <= Z.of_nat (shape1 hidden_states))%Z ->
  nth_error (fst (last_state_attention hidden_states encoder_input_length)) b
  = Some (nth (Z.to_nat (valid_length - 1)) hidden []).
Proof.
  intros Hh Hlen HT Hd Hrange.
  unfold last_state_attention. cbv zeta. cbn [fst].
  erewrite nth_error_zip_with;
    [| rewrite nth_error_map, Hlen; reflexivity | exact Hh].
  f_equal. rewrite <- HT. apply (weighted_sum_one_hot d); [exact Hd | lia].
Qed.

Lemma X9_last_state_attention_context_witness :
  nth_error (fst (last_state_attention sample_hidden [2%Z])) 0
  = Some (nth (Z.to_nat (2 - 1)) [[1; 2]; [3; 4]; [5; 6]] []).
Proof.
  apply (X9_last_state_attention_context sample_hidden [2%Z] 0 2 2
           [[1; 2]; [3; 4]; [5; 6]]).
  - reflexivity.
  - reflexivity.
  - reflexivity.
  - repeat constructor.
  - cbn. lia.
Defined.

End FixedAttention.

(** * Further properties of [softmax] and [local_attention] *)

Section LocalAttentionMore.
Open Scope R_scope.



Lemma sigmoid_range (x : R) : 0 < sigmoid x < 1.
Proof.
  unfold sigmoid. pose proof (exp_pos (- x)) as He.
  split.
  - apply Rdiv_lt_0_compat; lra.
  - apply Rmult_lt_reg_r with (1 + exp (- x)); [lra|].
    unfold Rdiv. rewrite Rmult_assoc, Rinv_l by lra. lra.
Qed.

Lemma Int_part_nonneg (r : R) : 0 <= r -> (0 <= Int_part r)%Z.
Proof.
  intros Hr. destruct (base_Int_part r) as [_ H2].
  assert (H : -1 < IZR (Int_part r)) by lra.
  apply lt_IZR in H. lia.
Qed.

Lemma local_predicted_pos_range (L : Learned) (s : list R) (len : Z) :
  (1 <= len)%Z ->
  (0 <= local_predicted_pos L s len <= len - 1)%Z.
Proof.
  intros Hlen. unfold local_predicted_pos. cbv zeta.
  set (p := hd 0 (map sigmoid _)).
  assert (Hp : 0 <= p).
  { unfold p. destruct (map sigmoid _) as [|y ys] eqn:E; [cbn; lra|].
    cbn [hd].
    destruct (weighted_sum (map tanh (weighted_sum s (Wp L))) (vp L))
      as [|z zs]; [discriminate|].
    cbn [map] in E. injection E as <- _.
    apply Rlt_le. apply sigmoid_range. }
  assert (Hfloor : (0 <= Int_part (IZR len * p))%Z).
  { apply Int_part_nonneg. apply Rmult_le_pos; [apply IZR_le; lia | exact Hp]. }
  lia.
Qed.

(** X11. The position predicted by [local_attention] is a valid
    position: for valid_length >= 1 it lies between 0 and
    valid_length - 1, whatever the state and the learned variables;
    nothing has to clamp it from below. *)
Theorem X11_local_predicted_pos_in_range (L : Learned) (s : list R) (len : Z) :
  (1 <= len)%Z ->
  (0 <= local_predicted_pos L s len <= len - 1)%Z.
Proof. exact (local_predicted_pos_range L s len). Qed.

Lemma X11_local_predicted_pos_in_range_witness :
  (0 <= local_predicted_pos zero_learned [0%R] 2 <= 2 - 1)%Z.
Proof.
  apply (X11_local_predicted_pos_in_range zero_learned [0%R] 2). lia.
Defined.





(** X13. [local_attention] with a supplied position and no window
    (attn_window_size <= 0) is hard attention on one state: at a batch
    entry with 1 <= valid_length <= time_steps and a position p >= 0,
    the weights are one-hot at min(p, valid_length - 1) and the context
    vector is the hidden state at that index. *)
Theorem X13_local_attention_supplied_position
    (L : Learned) (state : tensor2) (hidden_states : tensor3)
    (encoder : EncoderConfig) (encoder_input_length : list Z)
    (ps : list Z) (context : option tensor2)
    (b d : nat) (valid_length p : Z) (hidden : list (list R)) :
  (attn_window_size encoder <= 0)%Z ->
  nth_error hidden_states b = Some hidden ->
  nth_error encoder_input_length b = Some valid_length ->
  nth_error ps b = Some p ->
  length hidden = shape1 hidden_states ->
  Forall (fun h => length h = d) hidden ->
  (1 <= valid_length <= Z.of_nat (shape1 hidden_states))%Z ->
  (0 <= p)%Z ->
  let i := Z.min p (valid_length - 1) in
  let r := local_attention L state hidden_states encoder encoder_input_length
             (Some ps) context in
  nth_error (snd r) b = Some (map to_floatR (one_hot i (shape1 hidden_states))) /\
  nth_error (fst r) b = Some (nth (Z.to_nat i) hidden []).
Proof.
  intros Hw Hh Hlen Hp HT Hd Hrange Hp0 i r.
  unfold r, local_attention. cbv zeta. cbn [option_map].
  replace (0 <? attn_window_size encoder)%Z with false
    by (symmetry; apply Z.ltb_ge; exact Hw).
  cbn [fst snd].
  assert (Hrow : nth_error
      (map (fun p0 => map to_floatR (one_hot p0 (shape1 hidden_states)))
           (zip_with (fun p0 len0 => Z.min p0 (len0 - 1)) ps encoder_input_length))
      b = Some (map to_floatR (one_hot i (shape1 hidden_states)))).
  { rewrite nth_error_map.
    rewrite (nth_error_zip_with _ _ _ _ _ _ Hp Hlen). reflexivity. }
  split; [exact Hrow|].
  rewrite (nth_error_zip_with _ _ _ _ _ _ Hrow Hh). f_equal.
  rewrite <- HT. apply (weighted_sum_one_hot d); [exact Hd | unfold i; lia].
Qed.

Lemma X13_local_attention_supplied_position_witness :
  nth_error (snd (local_attention zero_learned sample_state sample_hidden
                    (sample_encoder "local" 0) [2%Z] (Some [5%Z]) None)) 0
  = Some (map to_floatR (one_hot (Z.min 5 (2 - 1)) (shape1 sample_hidden))).
Proof.
  apply (X13_local_attention_supplied_position zero_learned sample_state
           sample_hidden (sample_encoder "local" 0) [2%Z] [5%Z] None 0 2 2 5
           [[1; 2]; [3; 4]; [5; 6]]).
  - cbn. lia.
  - reflexivity.
  - reflexivity.
  - reflexivity.
  - reflexivity.
  - repeat constructor.
  - cbn. lia.
  - lia.
Defined.

End LocalAttentionMore.

(** * Further properties of the losses *)

Section LossesMore.
Open Scope R_scope.

Lemma div_nonneg (x y : R) : 0 <= x -> 0 < y -> 0 <= x / y.
Proof.
  intros Hx Hy. unfold Rdiv.
  apply Rmult_le_pos; [exact Hx|].
  apply Rlt_le. apply Rinv_0_lt_compat. exact Hy.
Qed.

(** The size of a batch that is not empty, as a float. *)
Lemma batch_size_pos {A} (l : list A) : l <> [] -> 0 < INR (length l).
Proof.
  intros Hne. apply lt_0_INR.
  destruct l; [contradiction | cbn; lia].
Qed.

Lemma reduce_sum_Forall_nonneg (l : list R) :
  Forall (fun x => 0 <= x) l -> 0 <= reduce_sum l.
Proof.
  unfold reduce_sum. induction 1 as [|x l Hx _ IH]; simpl; lra.
Qed.

Lemma zip_with_Rmult_nonneg (a b : list R) :
  Forall (fun x => 0 <= x) a -> Forall (fun x => 0 <= x) b ->
  Forall (fun x => 0 <= x) (zip_with Rmult a b).
Proof.
  unfold zip_with. intros Ha. revert b.
  induction Ha as [|x a Hx _ IH]; intros b Hb; [constructor|].
  destruct Hb as [|y b Hy Hb]; [constructor|].
  cbn. constructor; [apply Rmult_le_pos; assumption | apply IH; exact Hb].
Qed.

Lemma mul2_nonneg (a b : tensor2) :
  nonneg2 a -> nonneg2 b -> nonneg2 (mul2 a b).
Proof.
  unfold nonneg2, mul2, zip_with at 1. intros Ha. revert b.
  induction Ha as [|x a Hx _ IH]; intros b Hb; [constructor|].
  destruct Hb as [|y b Hy Hb]; [constructor|].
  cbn. constructor; [apply zip_with_Rmult_nonneg; assumption | apply IH; exact Hb].
Qed.

Lemma map_reduce_sum_nonneg (t : tensor2) :
  nonneg2 t -> Forall (fun x => 0 <= x) (map reduce_sum t).
Proof.
  induction 1 as [|r t Hr _ IH]; cbn; constructor;
    [apply reduce_sum_Forall_nonneg; exact Hr | exact IH].
Qed.

(** Dividing each row sum by the row's weight sum plus the epsilon. *)
Lemma averaged_nonneg (cost : list R) (weights : tensor2) :
  Forall (fun x => 0 <= x) cost -> nonneg2 weights ->
  Forall (fun x => 0 <= x)
    (zip_with (fun c w => c / (reduce_sum w + / 10 ^ 12)) cost weights).
Proof.
  unfold zip_with. intros Hc. revert weights.
  induction Hc as [|c cost Hc0 _ IH]; intros weights Hw; [constructor|].
  destruct Hw as [|w weights Hw0 Hw]; [constructor|].
  cbn [map combine fst snd]. constructor; [|apply IH; exact Hw].
  apply div_nonneg; [exact Hc0|].
  pose proof (reduce_sum_Forall_nonneg w Hw0).
  assert (0 < / 10 ^ 12) by (apply Rinv_0_lt_compat, pow_lt; lra).
  lra.
Qed.

Lemma reduce_sum_map_exp_pos (row : list R) :
  row <> [] -> 0 < reduce_sum (map exp row).
Proof.
  intros Hne. apply reduce_sum_pos.
  - destruct row; [contradiction | discriminate].
  - intros j Hj. rewrite length_map in Hj.
    rewrite (nth_map_lt _ _ j 0) by exact Hj. apply exp_pos.
Qed.

(** An entry of [tf.nn.softmax] is a probability. *)
Lemma tf_nn_softmax_entry (row : list R) (j : nat) :
  (j < length row)%nat -> 0 < nth j (tf_nn_softmax row) 0 <= 1.
Proof.
  intros Hj. unfold tf_nn_softmax.
  rewrite (nth_map_lt _ _ j 0) by exact Hj.
  assert (Hne : row <> []) by (destruct row; [cbn in Hj; lia | discriminate]).
  pose proof (reduce_sum_map_exp_pos row Hne) as HD.
  split; [apply Rdiv_lt_0_compat; [apply exp_pos | exact HD]|].
  apply Rmult_le_reg_r with (reduce_sum (map exp row)); [exact HD|].
  unfold Rdiv. rewrite Rmult_assoc, Rinv_l, Rmult_1_r, Rmult_1_l by lra.
  rewrite <- (nth_map_lt exp row j 0 0) by exact Hj.
  apply nth_le_reduce_sum.
  intros i Hi. rewrite length_map in Hi.
  rewrite (nth_map_lt _ _ i 0) by exact Hi. apply Rlt_le, exp_pos.
Qed.

(** The cross-entropy of a label of the vocabulary is not negative. *)
Lemma cross_entropy_nonneg (logits : list R) (label : Z) :
  (0 <= label < Z.of_nat (length logits))%Z ->
  0 <= sparse_softmax_cross_entropy_with_logits logits label.
Proof.
  intros Hl. unfold sparse_softmax_cross_entropy_with_logits.
  destruct (tf_nn_softmax_entry logits (Z.to_nat label)) as [Hpos Hle1]; [lia|].
  assert (ln (nth (Z.to_nat label) (tf_nn_softmax logits) 0) <= ln 1).
  { destruct Hle1 as [Hlt|Heq].
    - apply Rlt_le. apply ln_increasing; assumption.
    - rewrite Heq. lra. }
  rewrite ln_1 in H. lra.
Qed.

Lemma crossent_nonneg (logits : tensor3) (targets : list (list Z)) :
  labels_in_vocabulary logits targets ->
  nonneg2 (zip_with (zip_with sparse_softmax_cross_entropy_with_logits)
                    logits targets).
Proof.
  unfold labels_in_vocabulary, nonneg2, zip_with at 1.
  induction 1 as [|lb tb logits targets Hrow _ IH]; cbn; constructor;
    [|exact IH].
  unfold zip_with.
  induction Hrow as [|lrow label lb tb Hl _ IHrow]; cbn; constructor;
    [apply cross_entropy_nonneg; exact Hl | exact IHrow].
Qed.

(** X14. The cross-entropy loss is never negative: for labels in the
    vocabulary, weights without negative entries (such as the masks of
    [get_weights]), no rewards and, where the loss is averaged over the
    batch, a batch that is not empty, [sequence_loss] is >= 0, with or
    without averaging over time steps. *)
Theorem X14_sequence_loss_nonneg
    (logits : tensor3) (targets : list (list Z)) (weights : tensor2)
    (average_across_timesteps average_across_batch : bool) :
  labels_in_vocabulary logits targets ->
  nonneg2 weights ->
  (average_across_batch = true -> targets <> []) ->
  0 <= sequence_loss logits targets weights average_across_timesteps
                     average_across_batch None.
Proof.
  intros Hl Hw Hbatch. unfold sequence_loss. cbv zeta.
  set (crossent := zip_with (zip_with sparse_softmax_cross_entropy_with_logits)
                            logits targets).
  assert (Hc : nonneg2 crossent) by (apply crossent_nonneg; exact Hl).
  assert (Hlp : Forall (fun x => 0 <= x) (map reduce_sum (mul2 crossent weights)))
    by (apply map_reduce_sum_nonneg, mul2_nonneg; assumption).
  assert (Hcost : 0 <= reduce_sum
            (if average_across_timesteps
             then zip_with (fun lp w => lp / (reduce_sum w + / 10 ^ 12))
                           (map reduce_sum (mul2 crossent weights)) weights
             else map reduce_sum (mul2 crossent weights))).
  { apply reduce_sum_Forall_nonneg.
    destruct average_across_timesteps; [apply averaged_nonneg|]; assumption. }
  destruct average_across_batch; [|exact Hcost].
  apply div_nonneg; [exact Hcost | apply batch_size_pos; now apply Hbatch].
Qed.

Lemma X14_sequence_loss_nonneg_witness :
  0 <= sequence_loss [[[0; 1]; [2; 0]]] [[1; 0]%Z] [[1; 0]] false true None.
Proof.
  apply (X14_sequence_loss_nonneg [[[0; 1]; [2; 0]]] [[1; 0]%Z] [[1; 0]]
           false true).
  - repeat constructor; cbn; lia.
  - repeat constructor; lra.
  - discriminate.
Defined.

Lemma baseline_loss_nonneg
    (rewards weights : tensor2)
    (average_across_timesteps average_across_batch : bool) :
  nonneg2 weights ->
  (average_across_batch = true -> rewards <> []) ->
  0 <= baseline_loss rewards weights average_across_timesteps
                     average_across_batch.
Proof.
  intros Hw Hbatch. unfold baseline_loss. cbv zeta.
  set (sq := map (map (fun r => r ^ 2)) rewards).
  assert (Hsq : nonneg2 sq).
  { unfold sq, nonneg2. apply Forall_map, Forall_forall. intros row _.
    apply Forall_map, Forall_forall. intros r _. apply pow2_ge_0. }
  assert (Hc : Forall (fun x => 0 <= x) (map reduce_sum (mul2 sq weights)))
    by (apply map_reduce_sum_nonneg, mul2_nonneg; assumption).
  assert (Hcost : 0 <= reduce_sum
            (if average_across_timesteps
             then zip_with (fun c w => c / (reduce_sum w + / 10 ^ 12))
                           (map reduce_sum (mul2 sq weights)) weights
             else map reduce_sum (mul2 sq weights))).
  { apply reduce_sum_Forall_nonneg.
    destruct average_across_timesteps; [apply averaged_nonneg|]; assumption. }
  destruct average_across_batch; [|exact Hcost].
  apply div_nonneg; [exact Hcost | apply batch_size_pos; now apply Hbatch].
Qed.

(** X15. The baseline loss is never negative: for weights without
    negative entries and, where the loss is averaged over the batch, a
    batch of rewards that is not empty, [baseline_loss] is >= 0, with
    or without averaging over time steps. *)
Theorem X15_baseline_loss_nonneg
    (rewards weights : tensor2)
    (average_across_timesteps average_across_batch : bool) :
  nonneg2 weights ->
  (average_across_batch = true -> rewards <> []) ->
  0 <= baseline_loss rewards weights average_across_timesteps
                     average_across_batch.
Proof. exact (baseline_loss_nonneg rewards weights _ _). Qed.

Lemma X15_baseline_loss_nonneg_witness :
  0 <= baseline_loss [[-1; 2]] [[1; 0]] true true.
Proof.
  apply (X15_baseline_loss_nonneg [[-1; 2]] [[1; 0]] true true).
  - repeat constructor; lra.
  - discriminate.
Defined.

End LossesMore.

(** * Further properties of the decoder *)

Section DecoderMore.
Open Scope Z_scope.

(** X16. A decoder needs at least one time step: [attention_decoder]
    on a non-empty batch of input rows without any time step, whose
    graph builds (the assertion passes and [align_encoder_id] indexes
    both the attention states and the length vectors), fails when run,
    reading the first symbol from the empty tensor array; hence
    [encoder_decoder] returns nothing when the target rows hold at most
    one token (the decoder inputs are the targets without their last
    column). *)
Theorem X16_decoder_needs_a_time_step
    (U : Utils) (enet : EncoderNet) (dnet : DecoderNet) (rnd : Z -> Randomness)
    (reward_baseline : tensor3 -> tensor2)
    (decoder : DecoderConfig) (decoder_inputs : list (list Z))
    (initial_state : tensor2) (attention_states : list tensor3)
    (encoder_input_length : list (list Z)) (feed_previous : R)
    (align_encoder_id : nat) (feed_argmax : bool) :
  (supported_decoder decoder ->
   decoder_inputs <> [] ->
   shape1 decoder_inputs = O ->
   (align_encoder_id < length attention_states)%nat ->
   (align_encoder_id < length encoder_input_length)%nat ->
   attention_decoder U decoder dnet rnd decoder_inputs initial_state
     attention_states encoder_input_length feed_previous align_encoder_id
     feed_argmax = Raise OutOfRangeError) /\
  (forall encoders decoders encoder_inputs targets targets0 lengths rewards
          use_baseline,
   nth_error targets 0 = Some targets0 ->
   targets0 <> [] ->
   (shape1 targets0 <= 1)%nat ->
   exists e,
     encoder_decoder U enet dnet rnd reward_baseline encoders decoders
       encoder_inputs targets feed_previous align_encoder_id lengths
       feed_argmax rewards use_baseline = Raise e).
Proof.
  assert (Hdec : forall dec inputs st states lens fp al fa,
    inputs <> [] -> shape1 inputs = O ->
    exists e, attention_decoder U dec dnet rnd inputs st states lens fp al fa
              = Raise e /\
              (supported_decoder dec -> (al < length states)%nat ->
               (al < length lens)%nat -> e = OutOfRangeError)).
  { intros dec inputs st states lens fp al fa Hne HT.
    unfold attention_decoder.
    destruct (pred_maxout_layer dec && negb (cell_size dec mod 2 =? 0)) eqn:E.
    - eexists. split; [reflexivity|]. intros Hs.
      rewrite (supported_decoder_assert dec Hs) in E. discriminate.
    - cbv zeta. unfold index.
      destruct (nth_error states al) as [align_states|] eqn:E1; cbn [bind].
      + destruct (nth_error lens al) as [max_pos|] eqn:E2; cbn [bind].
        * unfold transpose. rewrite HT. cbn. eexists. split; reflexivity.
        * eexists. split; [reflexivity|]. intros _ _ Hl.
          apply nth_error_None in E2. lia.
      + eexists. split; [reflexivity|]. intros _ Ha.
        apply nth_error_None in E1. lia. }
  split.
  - intros Hs Hne HT Ha Hl.
    destruct (Hdec decoder decoder_inputs initial_state attention_states
                encoder_input_length feed_previous align_encoder_id feed_argmax
                Hne HT) as [e [-> He]].
    now rewrite (He Hs Ha Hl).
  - intros encoders decoders encoder_inputs targets targets0 lengths rewards
           use_baseline Ht Hne HT.
    unfold encoder_decoder, index. rewrite Ht.
    destruct (nth_error decoders 0) as [dec|]; cbn [bind];
      [|eexists; reflexivity].
    destruct (multi_encoder enet encoder_inputs encoders _ None)
      as [[[states st] lens]|e]; cbn [bind]; [|eexists; reflexivity].
    destruct (Hdec dec (map (@removelast Z) targets0) st states lens
                feed_previous align_encoder_id feed_argmax) as [e [-> _]].
    + destruct targets0; [contradiction | discriminate].
    + destruct targets0 as [|row t]; [contradiction|].
      cbn in *. destruct row as [|a [|a' row]]; cbn in *; [reflexivity.. | lia].
    + cbn [bind]. eexists. reflexivity.
Qed.

Lemma X16_decoder_needs_a_time_step_witness :
  attention_decoder sample_utils sample_decoder sample_net
    (fun _ => sample_randomness) [[]] [[0%R]] [sample_hidden] [[2]]
    0 0 true = Raise OutOfRangeError.
Proof.
  destruct (X16_decoder_needs_a_time_step sample_utils sample_enet sample_net
              (fun _ => sample_randomness) (fun _ => []) sample_decoder [[]]
              [[0%R]] [sample_hidden] [[2]] 0 0 true) as [H _].
  apply H.
  - left. reflexivity.
  - discriminate.
  - reflexivity.
  - cbn. lia.
  - cbn. lia.
Defined.

(** What one successful step does to [samples]: it writes, at the
    clock's index, the symbol it chose; under teacher forcing that is
    the next input. *)
Lemma time_step_samples
    (U : Utils) (decoder : DecoderConfig) (net : DecoderNet)
    (inputs : TensorArray (list Z)) (time_steps : Z) (rnd : Randomness)
    (feed_previous : R) (feed_argmax : bool) (max_pos : list Z)
    (v v' : LoopVars) :
  time_step U decoder net inputs time_steps rnd feed_previous feed_argmax
            max_pos v = Some v' ->
  exists symbol,
    ta_write (lv_samples v) (lv_time v) symbol = Some (lv_samples v') /\
    (lv_time v < time_steps - 1 ->
     (random_uniform rnd >= feed_previous)%R ->
     ta_read inputs (lv_time v + 1) = Some symbol).
Proof.
  unfold time_step. cbv zeta.
  destruct (look net _ (lv_input v) (lv_pos v) (lv_prev_weights v))
    as [context new_weights].
  match goal with
  | |- match ?p with _ => _ end = _ -> _ => destruct p as [predicted|] eqn:Hpred
  end; [|discriminate].
  destruct (ta_write (lv_samples v) (lv_time v) (fst predicted)) as [sa|] eqn:E1;
    [|discriminate].
  destruct (ta_write (lv_attns v) _ _); [|discriminate].
  destruct (ta_write (lv_weights v) _ _); [|discriminate].
  destruct (ta_write (lv_states v) _ _); [|discriminate].
  destruct (ta_write (lv_outputs v) _ _); [|discriminate].
  intros H. injection H as <-. cbn [lv_samples].
  exists (fst predicted). split; [exact E1|].
  intros Hlt Hu. unfold predicted_symbol in Hpred. cbv zeta in Hpred.
  replace (lv_time v <? time_steps - 1) with true in Hpred
    by (symmetry; apply Z.ltb_lt; exact Hlt).
  destruct (Rge_dec (random_uniform rnd) feed_previous); [|contradiction].
  cbn [andb] in Hpred.
  destruct (ta_read inputs (lv_time v + 1)) as [tgt|]; [|discriminate].
  cbn in Hpred. injection Hpred as <-. reflexivity.
Qed.

(** The loop under teacher forcing: besides ending with every tensor
    array fully written, it records at every step but the last the
    input of the next step. *)
Lemma decoding_loop_teacher_forcing
    (U : Utils) (decoder : DecoderConfig) (net : DecoderNet)
    (decoder_inputs : list (list Z)) (rnd : Z -> Randomness)
    (feed_previous : R) (feed_argmax : bool) (max_pos : list Z) (T : nat) :
  length decoder_inputs = T ->
  (forall t, (random_uniform (rnd t) >= feed_previous)%R) ->
  forall (fuel k : nat) (v : LoopVars),
  loop_invariant T k v ->
  (forall i, (i < k)%nat -> (i + 1 < T)%nat ->
     nth i (lv_samples v) None = nth_error decoder_inputs (i + 1)) ->
  (k <= T)%nat ->
  (T - k <= fuel)%nat ->
  exists v',
    while_loop fuel
      (fun v => lv_time v <? Z.of_nat T)
      (fun v => in_range
         (time_step U decoder net (ta_unstack decoder_inputs) (Z.of_nat T)
                    (rnd (lv_time v)) feed_previous feed_argmax max_pos v))
      v = Ok v' /\
    loop_invariant T T v' /\
    (forall i, (i + 1 < T)%nat ->
       nth i (lv_samples v') None = nth_error decoder_inputs (i + 1)).
Proof.
  intros Hin Hu. induction fuel as [|fuel IH]; intros k v Hinv Hsa Hk Hfuel.
  - assert (k = T) by lia. subst k. exists v. cbn [while_loop].
    destruct Hinv as [Ht Hrest]. rewrite Ht, Z.ltb_irrefl.
    split; [reflexivity|]. split; [split; assumption|].
    intros i Hi. apply Hsa; lia.
  - cbn [while_loop]. pose proof Hinv as [Ht [_ [_ [_ [_ [Lsa _]]]]]]. rewrite Ht.
    destruct (Z.ltb_spec (Z.of_nat k) (Z.of_nat T)) as [Hlt|Hge].
    + destruct (time_step_spec U decoder net decoder_inputs (rnd (Z.of_nat k))
                  feed_previous feed_argmax max_pos T k v Hin Hinv)
        as [v' [_ [_ [Hstep [Hinv' _]]]]]; [lia|].
      rewrite Hstep. cbn [in_range bind].
      apply (IH (S k) v' Hinv'); [|lia|lia].
      destruct (time_step_samples _ _ _ _ _ _ _ _ _ _ _ Hstep)
        as [symbol [Hwrite Htarget]].
      unfold ta_write in Hwrite. rewrite Ht in Hwrite, Htarget.
      rewrite ta_index_in in Hwrite by lia. rewrite Nat2Z.id in Hwrite.
      assert (Hw' : lv_samples v' =
                    firstn k (lv_samples v)
                    ++ Some symbol :: skipn (S k) (lv_samples v))
        by congruence.
      rewrite Hw'.
      intros i Hi HiT. rewrite nth_ta_write by lia.
      destruct (Nat.eqb_spec i k) as [->|Hne]; [|apply Hsa; lia].
      specialize (Htarget ltac:(lia) (Hu _)).
      destruct (ta_read_unstack decoder_inputs (Z.of_nat k + 1))
        as [row [Hrow Hread]]; [lia|].
      replace (Z.to_nat (Z.of_nat k + 1)) with (k + 1)%nat in Hrow by lia.
      congruence.
    + assert (k = T) by lia. subst k. exists v.
      split; [reflexivity|]. split; [exact Hinv|].
      intros i Hi. apply Hsa; lia.
Qed.

Lemma ta_stack_nth {A} (ta : TensorArray A) (l : list A) :
  ta_stack ta = Some l ->
  length l = length ta /\ forall i, nth i ta None = nth_error l i.
Proof.
  revert l. induction ta as [|x r IH]; intros l H.
  - injection H as <-. split; [reflexivity|]. intros [|i]; reflexivity.
  - destruct x as [x|]; [|discriminate]. cbn [ta_stack] in H.
    destruct (ta_stack r) as [l'|]; [|discriminate].
    injection H as <-. destruct (IH l' eq_refl) as [Hlen Hnth].
    split; [cbn; now rewrite Hlen|].
    intros [|i]; [reflexivity | apply Hnth].
Qed.

(** X17. Teacher forcing: when every uniform draw is >= feed_previous
    (as with feed_previous = 0), [attention_decoder] returns, and the
    samples it records, one per time step, are at every step but the
    last the ground-truth inputs of the next step. *)
Theorem X17_teacher_forcing_samples
    (U : Utils) (decoder : DecoderConfig) (net : DecoderNet)
    (rnd : Z -> Randomness) (decoder_inputs : list (list Z))
    (initial_state : tensor2) (attention_states : list tensor3)
    (encoder_input_length : list (list Z)) (feed_previous : R)
    (align_encoder_id : nat) (feed_argmax : bool) :
  supported_decoder decoder ->
  (1 <= shape1 decoder_inputs)%nat ->
  (align_encoder_id < length attention_states)%nat ->
  (align_encoder_id < length encoder_input_length)%nat ->
  (forall t, (random_uniform (rnd t) >= feed_previous)%R) ->
  exists out samples,
    attention_decoder U decoder net rnd decoder_inputs initial_state
      attention_states encoder_input_length feed_previous align_encoder_id
      feed_argmax = Ok out /\
    do_samples out = transpose samples /\
    length samples = shape1 decoder_inputs /\
    (forall t, (t + 1 < shape1 decoder_inputs)%nat ->
       nth_error samples t = nth_error (transpose decoder_inputs) (t + 1)).
Proof.
  intros Hs HT Ha Hl Hu. unfold attention_decoder.
  rewrite (supported_decoder_assert decoder Hs). cbv zeta.
  set (T := shape1 decoder_inputs) in *.
  destruct (ta_read_unstack (transpose decoder_inputs) 0) as [sym [_ Hread]];
    [rewrite length_transpose; fold T; lia|].
  rewrite Hread. cbn [in_range bind].
  unfold index.
  destruct (nth_error attention_states align_encoder_id) as [align_states|] eqn:E1;
    [|apply nth_error_None in E1; lia].
  destruct (nth_error encoder_input_length align_encoder_id) as [max_pos|] eqn:E2;
    [|apply nth_error_None in E2; lia].
  cbn [bind].
  match goal with
  | |- context [while_loop T ?c ?b ?v0] =>
      destruct (decoding_loop_teacher_forcing U decoder net
                  (transpose decoder_inputs) rnd feed_previous feed_argmax
                  max_pos T (length_transpose decoder_inputs) Hu T 0 v0)
        as [final [Hloop [Hinv Hsamples]]]
  end.
  { unfold loop_invariant.
    cbn [lv_time lv_outputs lv_states lv_weights lv_attns lv_samples].
    split; [reflexivity|].
    repeat split; try apply repeat_length; intros i Hi; lia. }
  { intros i Hi. lia. }
  { lia. }
  { lia. }
  rewrite Hloop. cbn [bind].
  destruct Hinv as [_ [[Lo Wo] [[Ls Ws] [[Lw Ww] [[La Wa] [Lsa Wsa]]]]]].
  rewrite <- Lo in Wo. rewrite <- Ls in Ws. rewrite <- Lw in Ww.
  rewrite <- La in Wa. rewrite <- Lsa in Wsa.
  destruct (ta_stack_written _ Wo) as [o [-> _]].
  destruct (ta_stack_written _ Ww) as [w [-> _]].
  destruct (ta_stack_written _ Ws) as [s [-> _]].
  destruct (ta_stack_written _ Wa) as [a [-> _]].
  destruct (ta_stack_written _ Wsa) as [sa [Hstack _]].
  rewrite Hstack. cbn [in_range bind].
  destruct (ta_stack_nth _ _ Hstack) as [Hlen Hnth].
  eexists _, sa. split; [reflexivity|]. cbn [do_samples].
  split; [reflexivity|]. split; [lia|].
  intros t Ht. rewrite <- Hnth. apply Hsamples. exact Ht.
Qed.

Lemma X17_teacher_forcing_samples_witness :
  exists out samples,
    attention_decoder sample_utils sample_decoder sample_net
      (fun _ => sample_randomness) [[0; 5; 6]] [[0%R]] [sample_hidden] [[2]]
      0 0 true = Ok out /\
    do_samples out = transpose samples /\
    nth_error samples 0 = Some [5].
Proof.
  destruct (X17_teacher_forcing_samples sample_utils sample_decoder sample_net
              (fun _ => sample_randomness) [[0; 5; 6]] [[0%R]] [sample_hidden]
              [[2]] 0 0 true) as [out [samples [H1 [H2 [_ H4]]]]].
  - left. reflexivity.
  - cbn. lia.
  - cbn. lia.
  - cbn. lia.
  - intros t. unfold sample_randomness. cbn. lra.
  - exists out, samples. split; [exact H1|]. split; [exact H2|].
    rewrite (H4 0%nat) by (cbn; lia). reflexivity.
Defined.

End DecoderMore.

(** * Further properties of the alignment position *)

Section AlignmentPositionMore.
Open Scope Z_scope.

(** One entry of [update_pos] for a decoder predicting edits, on
    tensors of one batch size. *)
Lemma update_pos_entry
    (U : Utils) (decoder : DecoderConfig) (pos symbol max_pos : list Z)
    (b : nat) (p s m : Z) :
  pred_edits decoder = true ->
  length pos = length symbol ->
  length max_pos = length symbol ->
  nth_error pos b = Some p ->
  nth_error symbol b = Some s ->
  nth_error max_pos b = Some m ->
  nth_error (update_pos U decoder pos symbol (Some max_pos)) b =
  Some (Z.min (p + to_float ((s =? KEEP_ID U) || (s =? DEL_ID U))) m).
Proof.
  intros Hedits Hlp Hlm Hp Hs Hm.
  unfold update_pos. rewrite Hedits. cbn [negb option_map]. cbv zeta.
  rewrite !resize_like_same by assumption.
  apply nth_error_zip_with; [|exact Hm].
  apply nth_error_zip_with; [exact Hp|].
  rewrite nth_error_map.
  erewrite nth_error_zip_with; [reflexivity | |];
    rewrite nth_error_map, Hs; reflexivity.
Qed.

(** X18. The alignment position moves forward only, by at most one
    step, and never passes the valid length: for a decoder predicting
    edits, a position p <= max_pos becomes a position p' with
    p <= p' <= p + 1 and p' <= max_pos, whatever the symbol.  A decoder
    that does not predict edits leaves the positions as they are. *)
Theorem X18_update_pos_monotone_and_bounded
    (U : Utils) (decoder : DecoderConfig) (pos symbol max_pos : list Z)
    (b : nat) (p s m : Z) :
  (pred_edits decoder = false ->
   update_pos U decoder pos symbol (Some max_pos) = pos) /\
  (pred_edits decoder = true ->
   length pos = length symbol ->
   length max_pos = length symbol ->
   nth_error pos b = Some p ->
   nth_error symbol b = Some s ->
   nth_error max_pos b = Some m ->
   p <= m ->
   exists p',
     nth_error (update_pos U decoder pos symbol (Some max_pos)) b = Some p' /\
     p <= p' <= p + 1 /\ p' <= m).
Proof.
  split.
  - intros H. unfold update_pos. now rewrite H.
  - intros Hedits Hlp Hlm Hp Hs Hm Hpm.
    eexists. split; [apply update_pos_entry; eassumption|].
    destruct ((s =? KEEP_ID U) || (s =? DEL_ID U)); cbn [to_float]; lia.
Qed.

Lemma X18_update_pos_monotone_and_bounded_witness :
  exists p',
    nth_error (update_pos sample_utils sample_decoder [2; 6] [3; 9] (Some [5; 6])) 0
      = Some p' /\
    2 <= p' <= 2 + 1 /\ p' <= 5.
Proof.
  destruct (X18_update_pos_monotone_and_bounded sample_utils sample_decoder
              [2; 6] [3; 9] [5; 6] 0 2 3 5) as [_ H].
  apply H; try reflexivity. lia.
Defined.

End AlignmentPositionMore.

(** * Further properties of [multi_encoder] *)

Section MultiEncoderMore.
Open Scope Z_scope.

Lemma multi_encoder_from_length (net : EncoderNet)
    (encoder_inputs : list (list (list Z)))
    (encoder_input_length : list (list Z)) (other : option tensor3) :
  forall (encoders : list EncoderConfig) (i : nat) rs,
  multi_encoder_from net i encoder_inputs encoders encoder_input_length other
  = Ok rs ->
  length rs = length encoders /\
  (forall j, (i <= j < i + length encoders)%nat ->
     (j < length encoder_inputs)%nat /\
     (j < length encoder_input_length)%nat).
Proof.
  induction encoders as [|e rest IH]; intros i rs H.
  - injection H as <-. cbn. split; [reflexivity | intros j Hj; lia].
  - cbn [multi_encoder_from] in H. unfold index in H.
    destruct (nth_error encoder_inputs i) as [x|] eqn:Ex; [|discriminate].
    destruct (nth_error encoder_input_length i) as [l|] eqn:El; [|discriminate].
    cbn [bind] in H.
    destruct (encoder_graph net e x l other) as [r|]; [|discriminate].
    cbn [bind] in H.
    destruct (multi_encoder_from net (S i) encoder_inputs rest
                encoder_input_length other) as [rs'|] eqn:E; [|discriminate].
    cbn [bind] in H. injection H as <-.
    destruct (IH (S i) rs' E) as [H1 H2].
    assert (i < length encoder_inputs)%nat by (apply nth_error_Some; congruence).
    assert (i < length encoder_input_length)%nat
      by (apply nth_error_Some; congruence).
    cbn [length]. split; [lia|].
    intros j Hj. destruct (Nat.eq_dec j i) as [->|Hne]; [split; assumption|].
    apply H2. lia.
Qed.

Lemma multi_encoder_from_enough (net : EncoderNet)
    (encoder_inputs : list (list (list Z)))
    (encoder_input_length : list (list Z)) (other : option tensor3)
    (encoders : list EncoderConfig) rs :
  multi_encoder_from net 0 encoder_inputs encoders encoder_input_length other
  = Ok rs ->
  (length encoders <= length encoder_inputs)%nat /\
  (length encoders <= length encoder_input_length)%nat.
Proof.
  intros H. destruct (multi_encoder_from_length _ _ _ _ _ _ _ H) as [_ H2].
  destruct encoders as [|e rest]; [cbn; lia|].
  destruct (H2 (length rest)) as [Ha Hb]; [cbn; lia|].
  cbn [length]. lia.
Qed.

(** X19. Whenever [multi_encoder] returns for at least one encoder, it
    returns exactly one tensor of hidden states and one vector of valid
    lengths per encoder, and there was an input tensor and a length
    vector for every encoder. *)
Theorem X19_multi_encoder_one_output_per_encoder
    (net : EncoderNet) (encoder_inputs : list (list (list Z)))
    (encoders : list EncoderConfig) (encoder_input_length : list (list Z))
    (other_inputs : option tensor3)
    (outputs : list tensor3) (state : tensor2) (lengths : list (list Z)) :
  encoders <> [] ->
  multi_encoder net encoder_inputs encoders encoder_input_length other_inputs
    = Ok (outputs, state, lengths) ->
  length outputs = length encoders /\
  length lengths = length encoders /\
  (length encoders <= length encoder_inputs)%nat /\
  (length encoders <= length encoder_input_length)%nat.
Proof.
  intros _. unfold multi_encoder.
  destruct (multi_encoder_from net 0 encoder_inputs encoders
              encoder_input_length other_inputs) as [rs|] eqn:E; [|discriminate].
  cbn [bind]. intros H. injection H as <- _ <-.
  destruct (multi_encoder_from_length _ _ _ _ _ _ _ E) as [H1 _].
  destruct (multi_encoder_from_enough _ _ _ _ _ _ E) as [H2 H3].
  rewrite !length_map. lia.
Qed.

Lemma X19_multi_encoder_one_output_per_encoder_witness :
  exists outputs state lengths,
    multi_encoder sample_enet [[[1; 2]]] [sample_encoder "global" 0] [[2]] None
      = Ok (outputs, state, lengths) /\
    length outputs = 1%nat /\ length lengths = 1%nat.
Proof.
  assert (H : exists outputs state lengths,
    multi_encoder sample_enet [[[1; 2]]] [sample_encoder "global" 0] [[2]] None
      = Ok (outputs, state, lengths)) by (eexists _, _, _; reflexivity).
  destruct H as [outputs [state [lengths H]]].
  exists outputs, state, lengths. split; [exact H|].
  destruct (X19_multi_encoder_one_output_per_encoder sample_enet [[[1; 2]]]
              [sample_encoder "global" 0] [[2]] None outputs state lengths)
    as [H1 [H2 _]]; [discriminate | exact H |].
  split; assumption.
Defined.

(** On supported encoders, with an input and a length vector for
    each, the loop over the encoders returns. *)
Lemma multi_encoder_from_supported (net : EncoderNet)
    (encoder_inputs : list (list (list Z)))
    (encoder_input_length : list (list Z)) (other : option tensor3) :
  forall (encoders : list EncoderConfig) (i : nat),
  Forall supported_encoder encoders ->
  (i + length encoders <= length encoder_inputs)%nat ->
  (i + length encoders <= length encoder_input_length)%nat ->
  exists rs, multi_encoder_from net i encoder_inputs encoders
               encoder_input_length other = Ok rs.
Proof.
  induction encoders as [|e rest IH]; intros i Hs Hx Hl.
  - exists []. reflexivity.
  - inversion Hs as [|e' rest' He Hrest]; subst.
    cbn [length] in Hx, Hl. cbn [multi_encoder_from]. unfold index.
    destruct (nth_error encoder_inputs i) as [x|] eqn:Ex;
      [|apply nth_error_None in Ex; lia].
    destruct (nth_error encoder_input_length i) as [l|] eqn:El;
      [|apply nth_error_None in El; lia].
    cbn [bind].
    destruct (encoder_graph_supported net e x l other He) as [r ->].
    cbn [bind].
    destruct (IH (S i) Hrest) as [rs ->]; [lia | lia |].
    cbn [bind]. eexists. reflexivity.
Qed.

(** On supported encoders the loop over the encoders raises nothing but
    IndexError. *)
Lemma multi_encoder_from_supported_raises (net : EncoderNet)
    (encoder_inputs : list (list (list Z)))
    (encoder_input_length : list (list Z)) (other : option tensor3) :
  forall (encoders : list EncoderConfig) (i : nat) e,
  Forall supported_encoder encoders ->
  multi_encoder_from net i encoder_inputs encoders encoder_input_length other
  = Raise e ->
  e = IndexError.
Proof.
  induction encoders as [|c rest IH]; intros i e Hs H; [discriminate|].
  inversion Hs as [|c' rest' Hc Hrest]; subst.
  cbn [multi_encoder_from] in H. unfold index in H.
  destruct (nth_error encoder_inputs i) as [x|]; [|cbn in H; congruence].
  destruct (nth_error encoder_input_length i) as [l|]; [|cbn in H; congruence].
  cbn [bind] in H.
  destruct (encoder_graph_supported net c x l other Hc) as [r Hr].
  rewrite Hr in H. cbn [bind] in H.
  destruct (multi_encoder_from net (S i) encoder_inputs rest
              encoder_input_length other) as [rs|e'] eqn:E;
    cbn [bind] in H; [discriminate|].
  injection H as <-. exact (IH (S i) e' Hrest E).
Qed.

(** X20. On supported encoder configurations (at least one) the only
    way [multi_encoder] can fail is a missing input: it returns when
    there is an input tensor and a length vector for every encoder, and
    raises IndexError when there are fewer of either than encoders. *)
Theorem X20_multi_encoder_supported
    (net : EncoderNet) (encoder_inputs : list (list (list Z)))
    (encoders : list EncoderConfig) (encoder_input_length : list (list Z))
    (other_inputs : option tensor3) :
  encoders <> [] ->
  Forall supported_encoder encoders ->
  ((length encoders <= length encoder_inputs)%nat ->
   (length encoders <= length encoder_input_length)%nat ->
   exists outputs state lengths,
     multi_encoder net encoder_inputs encoders encoder_input_length other_inputs
       = Ok (outputs, state, lengths)) /\
  ((length encoder_inputs < length encoders)%nat \/
   (length encoder_input_length < length encoders)%nat ->
   multi_encoder net encoder_inputs encoders encoder_input_length other_inputs
     = Raise IndexError).
Proof.
  intros _ Hs. unfold multi_encoder. split.
  - intros Hx Hl.
    destruct (multi_encoder_from_supported net encoder_inputs
                encoder_input_length other_inputs encoders 0 Hs)
      as [rs ->]; [cbn; lia | cbn; lia |].
    cbn [bind]. eexists _, _, _. reflexivity.
  - intros Hshort.
    destruct (multi_encoder_from net 0 encoder_inputs encoders
                encoder_input_length other_inputs) as [rs|e] eqn:E.
    + destruct (multi_encoder_from_enough _ _ _ _ _ _ E). lia.
    + cbn [bind]. f_equal.
      exact (multi_encoder_from_supported_raises _ _ _ _ _ _ _ Hs E).
Qed.

Lemma X20_multi_encoder_supported_witness :
  multi_encoder sample_enet [] [sample_encoder "global" 0] [[2]] None
  = Raise IndexError.
Proof.
  destruct (X20_multi_encoder_supported sample_enet []
              [sample_encoder "global" 0] [[2]] None) as [_ H].
  - discriminate.
  - constructor; [|constructor].
    split; [left; reflexivity|]. split; left; reflexivity.
  - apply H. left. cbn. lia.
Defined.

Lemma ceil_div_bounds (l s : Z) : 1 <= s -> 1 <= l -> 1 <= ceil_div l s <= l.
Proof.
  intros Hs Hl. unfold ceil_div.
  pose proof (Z.div_mod (- l) s ltac:(lia)) as H.
  pose proof (Z.mod_pos_bound (- l) s ltac:(lia)) as Hr.
  nia.
Qed.

Lemma round_up_div_bounds (l s : Z) :
  1 <= s -> 1 <= l -> 1 <= (l + s - 1) / s <= l.
Proof.
  intros Hs Hl.
  pose proof (Z.div_mod (l + s - 1) s ltac:(lia)) as H.
  pose proof (Z.mod_pos_bound (l + s - 1) s ltac:(lia)) as Hr.
  nia.
Qed.

Lemma Forall_firstn_Z (P : Z -> Prop) (n : nat) (l : list Z) :
  Forall P l -> Forall P (firstn n l).
Proof.
  revert l. induction n as [|n IH]; intros l Hl; [constructor|].
  destruct Hl as [|x l Hx Hl]; [constructor|].
  cbn. constructor; [exact Hx | apply IH; exact Hl].
Qed.

(** The time pooling of the lengths, stride after stride, is one map
    that keeps every positive length positive and does not increase it. *)
Lemma pooled_lengths (strides : list Z) :
  Forall (fun s => 1 <= s) strides ->
  forall lens : list Z,
  exists g : Z -> Z,
    fold_left (fun len stride => map (fun l => (l + stride - 1) / stride) len)
              strides lens = map g lens /\
    (forall l, 1 <= l -> 1 <= g l <= l).
Proof.
  induction 1 as [|s strides Hs _ IH]; intros lens.
  - exists (fun l => l). cbn. split; [now rewrite map_id | intros l Hl; lia].
  - cbn [fold_left].
    destruct (IH (map (fun l => (l + s - 1) / s) lens)) as [g [Hg Hb]].
    exists (fun l => g ((l + s - 1) / s)). split.
    + rewrite Hg, map_map. reflexivity.
    + intros l Hl. pose proof (round_up_div_bounds l s Hs Hl) as [H1 H2].
      specialize (Hb _ H1). lia.
Qed.

(** X21. Pooling never loses a sequence: when the loop body of
    [multi_encoder] returns for an encoder whose maxout stride (if set)
    and time-pooling strides are >= 1, every valid length that was
    >= 1 comes out >= 1 and not larger than it was; without maxout
    stride and time pooling the lengths come out as they went in. *)
Theorem X21_encoder_lengths_stay_positive
    (net : EncoderNet) (encoder : EncoderConfig)
    (encoder_inputs_ : list (list Z)) (lens : list Z)
    (other_inputs : option tensor3)
    (outputs : tensor3) (state : tensor2) (lens' : list Z) :
  encoder_graph net encoder encoder_inputs_ lens other_inputs
    = Ok (outputs, state, lens') ->
  (truthy (maxout_stride encoder) = false -> time_pooling encoder = [] ->
   lens' = lens) /\
  ((forall s, maxout_stride encoder = Some s -> 0 <= s) ->
   Forall (fun s => 1 <= s) (time_pooling encoder) ->
   length lens' = length lens /\
   forall b l, nth_error lens b = Some l -> 1 <= l ->
     exists l', nth_error lens' b = Some l' /\ 1 <= l' <= l).
Proof.
  unfold encoder_graph.
  destruct (if nonempty (convolutions encoder)
            then if binary encoder then Raise NotImplementedError else Ok tt
            else Ok tt) as [[]|]; cbn [bind]; [|discriminate].
  assert (Hmax : forall m,
    (if truthy (maxout_stride encoder)
     then if binary encoder then Raise NotImplementedError
          else let stride := match maxout_stride encoder with
                             | Some s => s
                             | None => 0
                             end in
               Ok (map (fun l => ceil_div l stride) lens)
     else Ok lens) = Ok m ->
    (truthy (maxout_stride encoder) = false -> m = lens) /\
    ((forall s, maxout_stride encoder = Some s -> 0 <= s) ->
     exists g, m = map g lens /\ forall l, 1 <= l -> 1 <= g l <= l)).
  { intros m. destruct (maxout_stride encoder) as [stride|] eqn:Es;
      cbn [truthy].
    - destruct (Z.eqb_spec stride 0) as [E0|E0]; cbn [negb].
      + intros H. injection H as <-. split; [reflexivity|].
        intros _. exists (fun l => l). split; [now rewrite map_id | intros; lia].
      + destruct (binary encoder); [discriminate|]. cbv zeta.
        intros H. injection H as <-. split; [discriminate|].
        intros Hpos. specialize (Hpos stride eq_refl).
        exists (fun l => ceil_div l stride). split; [reflexivity|].
        intros l Hl. apply ceil_div_bounds; lia.
    - intros H. injection H as <-. split; [reflexivity|].
      intros _. exists (fun l => l). split; [now rewrite map_id | intros; lia]. }
  destruct (if truthy (maxout_stride encoder) then _ else _) as [m|];
    cbn [bind]; [|discriminate].
  destruct (Hmax m eq_refl) as [Hm1 Hm2]. clear Hmax.
  destruct (if bidir encoder then _ else _) as [[]|]; cbn [bind]; [|discriminate].
  destruct (encode net encoder encoder_inputs_ other_inputs m) as [o st].
  intros H. injection H as _ _ <-. split.
  - intros Ht Hp. rewrite Hp. cbn [nonempty]. apply Hm1. exact Ht.
  - intros Hpos Hstrides.
    destruct (Hm2 Hpos) as [g [-> Hg]].
    assert (Hres : exists g', (if nonempty (time_pooling encoder)
        then fold_left
               (fun len stride => map (fun l => (l + stride - 1) / stride) len)
               (slice_to (time_pooling encoder) (layers encoder - 1))
               (map g lens)
        else map g lens) = map g' lens /\ forall l, 1 <= l -> 1 <= g' l <= l).
    { destruct (nonempty (time_pooling encoder)); [|exists g; split; auto].
      destruct (pooled_lengths (slice_to (time_pooling encoder)
                                         (layers encoder - 1))) with
        (lens := map g lens) as [g2 [Hg2 Hb2]].
      - unfold slice_to.
        destruct (0 <=? layers encoder - 1); apply Forall_firstn_Z; exact Hstrides.
      - exists (fun l => g2 (g l)). split; [rewrite Hg2, map_map; reflexivity|].
        intros l Hl. specialize (Hg l Hl). specialize (Hb2 (g l) ltac:(lia)). lia. }
    destruct Hres as [g' [-> Hg']].
    split; [apply length_map|].
    intros b l Hb Hl. exists (g' l).
    split; [rewrite nth_error_map, Hb; reflexivity | apply Hg'; exact Hl].
Qed.

Lemma X21_encoder_lengths_stay_positive_witness :
  exists outputs state lens',
    encoder_graph sample_enet (sample_encoder "global" 0) [[1; 2]] [2] None
      = Ok (outputs, state, lens') /\
    lens' = [2].
Proof.
  assert (H : exists outputs state lens',
    encoder_graph sample_enet (sample_encoder "global" 0) [[1; 2]] [2] None
      = Ok (outputs, state, lens')) by (eexists _, _, _; reflexivity).
  destruct H as [outputs [state [lens' H]]].
  exists outputs, state, lens'. split; [exact H|].
  destruct (X21_encoder_lengths_stay_positive _ _ _ _ _ _ _ _ H) as [H1 _].
  apply H1; reflexivity.
Defined.

End MultiEncoderMore.

(** * Further properties of the assemblers *)

Section AssemblersMore.
Open Scope R_scope.

(** X22. [chained_encoder_decoder] checks its arguments before building
    anything: without a decoder it raises IndexError, and with a
    decoder and targets but a number of encoders other than two it
    fails its assertion. *)
Theorem X22_chained_needs_two_encoders
    (U : Utils) (enet1 enet2 : EncoderNet) (dnet1 dnet2 : DecoderNet)
    (rnd1 rnd2 : Z -> Randomness) (cv : ChainingVars)
    (encoders : list EncoderConfig) (decoders : list DecoderConfig)
    (encoder_inputs : list (list (list Z))) (targets : list (list (list Z)))
    (feed_previous : R) (chaining_strategy : option string)
    (align_encoder_id : nat) (chaining_non_linearity : bool)
    (chaining_loss_ratio : R) (chaining_stop_gradient : bool) :
  let run :=
    chained_encoder_decoder U enet1 enet2 dnet1 dnet2 rnd1 rnd2 cv encoders
      decoders encoder_inputs targets feed_previous chaining_strategy
      align_encoder_id chaining_non_linearity chaining_loss_ratio
      chaining_stop_gradient in
  (decoders = [] -> run = Raise IndexError) /\
  (decoders <> [] -> targets <> [] -> length encoders <> 2%nat ->
   run = Raise AssertionError).
Proof.
  intros run. unfold run, chained_encoder_decoder, index. split.
  - intros ->. reflexivity.
  - intros Hd Ht Hn.
    destruct decoders as [|d ds]; [contradiction|].
    destruct targets as [|t ts]; [contradiction|].
    cbn [nth_error bind].
    apply Nat.eqb_neq in Hn. rewrite Hn. reflexivity.
Qed.

Lemma X22_chained_needs_two_encoders_witness :
  chained_encoder_decoder sample_utils sample_enet sample_enet sample_net
    sample_net (fun _ => sample_randomness) (fun _ => sample_randomness)
    sample_chaining_vars [sample_encoder "global" 0]
    [sample_encoder "global" 0] [[[5; 1]]]%Z [[[0; 7; 1]]]%Z
    0 None 0 false 1 false = Raise AssertionError.
Proof.
  destruct (X22_chained_needs_two_encoders sample_utils sample_enet sample_enet
              sample_net sample_net (fun _ => sample_randomness)
              (fun _ => sample_randomness) sample_chaining_vars
              [sample_encoder "global" 0] [sample_encoder "global" 0]
              [[[5; 1]]]%Z [[[0; 7; 1]]]%Z 0 None 0 false 1 false) as [_ H].
  apply H; [discriminate | discriminate | cbn; lia].
Defined.

(** X23. A chaining loss ratio of 0 switches the chaining loss off:
    whatever [chained_encoder_decoder] returns then carries the
    second-stage cross-entropy alone as its first loss. *)
Theorem X23_chained_ratio_zero
    (U : Utils) (enet1 enet2 : EncoderNet) (dnet1 dnet2 : DecoderNet)
    (rnd1 rnd2 : Z -> Randomness) (cv : ChainingVars)
    (encoders : list EncoderConfig) (decoders : list DecoderConfig)
    (encoder_inputs : list (list (list Z))) (targets : list (list (list Z)))
    (feed_previous : R) (chaining_strategy : option string)
    (align_encoder_id : nat) (chaining_non_linearity : bool)
    (chaining_stop_gradient : bool) (r : ModelOutputs) :
  chained_encoder_decoder U enet1 enet2 dnet1 dnet2 rnd1 rnd2 cv encoders
    decoders encoder_inputs targets feed_previous chaining_strategy
    align_encoder_id chaining_non_linearity 0 chaining_stop_gradient = Ok r ->
  exists targets0 outputs,
    nth_error targets 0 = Some targets0 /\
    mo_outputs r = [outputs] /\
    mo_losses r = [Some (chained_xent_loss U targets0 outputs); None; None].
Proof.
  intros Hr.
  destruct (chained_losses_spec _ _ _ _ _ _ _ _ _ _ _ _ _ _ _ _ _ _ _ Hr)
    as [stage1 [chaining_loss [targets0 [outputs [_ [H2 [H3 H4]]]]]]].
  exists targets0, outputs. split; [exact H2|]. split; [exact H3|].
  rewrite H4. destruct (Req_dec_T 0 0) as [_|Hne]; [reflexivity|].
  now contradiction Hne.
Qed.

Lemma X23_chained_ratio_zero_witness :
  exists r targets0 outputs,
    chained_encoder_decoder sample_utils sample_enet sample_enet sample_net
      sample_net (fun _ => sample_randomness) (fun _ => sample_randomness)
      sample_chaining_vars
      [sample_encoder "global" 0; sample_encoder "global" 0]
      [sample_encoder "global" 0] [[[5; 1]]; [[6; 1]]]%Z [[[0; 7; 1]]]%Z
      0 None 0 false 0 false = Ok r /\
    mo_losses r = [Some (chained_xent_loss sample_utils targets0 outputs);
                   None; None].
Proof.
  assert (Hs : supported_encoder (sample_encoder "global" 0)).
  { split; [left; reflexivity|]. split; left; reflexivity. }
  assert (Hd : supported_decoder (sample_encoder "global" 0))
    by (left; reflexivity).
  destruct (chained_encoder_decoder_returns sample_utils sample_enet sample_enet
              sample_net sample_net (fun _ => sample_randomness)
              (fun _ => sample_randomness) sample_chaining_vars
              (sample_encoder "global" 0) (sample_encoder "global" 0)
              (sample_encoder "global" 0) [] [[5; 1]]%Z [[6; 1]]%Z []
              [[0; 7; 1]]%Z [] 0 None false 0 false Hs Hs Hd Hd) as [r Hr].
  - discriminate.
  - cbn. lia.
  - destruct (X23_chained_ratio_zero _ _ _ _ _ _ _ _ _ _ _ _ _ _ _ _ _ _ Hr)
      as [targets0 [outputs [_ [_ H]]]].
    exists r, targets0, outputs. split; [exact Hr | exact H].
Defined.

Lemma mask_nonneg (sequence : list (list Z)) (eos_id : Z) (flag : bool) :
  nonneg2 (mask_to_float (get_weights sequence eos_id flag)).
Proof.
  unfold nonneg2, mask_to_float, get_weights.
  apply Forall_map, Forall_map, Forall_forall. intros row _.
  assert (Hshape : exists k n,
    get_weights_row eos_id flag row = repeat 1%Z k ++ repeat 0%Z n).
  { destruct flag.
    - destruct row as [|x r].
      + exists 1%nat, 0%nat. reflexivity.
      + eexists _, _. apply get_weights_row_true. discriminate.
    - eexists _, _. apply get_weights_row_false. }
  destruct Hshape as [k [n ->]].
  apply Forall_map, Forall_app. split; apply Forall_forall; intros x Hx;
    apply repeat_spec in Hx; subst x; cbn; lra.
Qed.

(** X24. [encoder_decoder] builds on every supported configuration:
    with supported encoders (at least one) that each have an input, a
    supported decoder, targets of at least two tokens per row, an
    alignment index pointing at an encoder, and rewards whenever the
    baseline is used, it returns three losses, all present; the
    baseline loss is not negative, and is 0 when the baseline is not
    used. *)
Theorem X24_encoder_decoder_returns
    (U : Utils) (enet : EncoderNet) (dnet : DecoderNet) (rnd : Z -> Randomness)
    (reward_baseline : tensor3 -> tensor2)
    (encoders : list EncoderConfig) (decoder : DecoderConfig)
    (decoders : list DecoderConfig)
    (encoder_inputs : list (list (list Z)))
    (targets0 : list (list Z)) (targets : list (list (list Z)))
    (feed_previous : R) (align_encoder_id : nat) (feed_argmax : bool)
    (rewards : option tensor2) (use_baseline : bool) :
  encoders <> [] ->
  Forall supported_encoder encoders ->
  (length encoders <= length encoder_inputs)%nat ->
  supported_decoder decoder ->
  (2 <= shape1 targets0)%nat ->
  (align_encoder_id < length encoders)%nat ->
  (use_baseline = true -> rewards <> None) ->
  exists r xent_loss reinforce_loss baseline_loss_,
    encoder_decoder U enet dnet rnd reward_baseline encoders
      (decoder :: decoders) encoder_inputs (targets0 :: targets) feed_previous
      align_encoder_id None feed_argmax rewards use_baseline = Ok r /\
    mo_losses r = [Some xent_loss; Some reinforce_loss; Some baseline_loss_] /\
    0 <= baseline_loss_ /\
    (use_baseline = false -> baseline_loss_ = 0).
Proof.
  intros Hne Hs Hx Hd Ht Ha Hrew.
  unfold encoder_decoder. cbn [index nth_error bind].
  unfold multi_encoder.
  destruct (multi_encoder_from_supported enet encoder_inputs
              (lengths_of_inputs U encoder_inputs) None encoders 0 Hs)
    as [rs Hrs]; [cbn; lia | rewrite length_lengths_of_inputs; cbn; lia |].
  rewrite Hrs. cbn [bind].
  destruct (multi_encoder_from_length _ _ _ _ _ _ _ Hrs) as [Hlen _].
  match goal with
  | |- context [attention_decoder U decoder dnet rnd ?di ?s ?a ?l ?fp ?al ?fa] =>
      destruct (attention_decoder_returns U decoder dnet rnd di s a l fp al fa)
        as [out ->]
  end.
  - apply supported_decoder_assert. exact Hd.
  - apply shape1_removelast. exact Ht.
  - rewrite length_map. lia.
  - rewrite length_map. lia.
  - cbn [bind]. destruct use_baseline.
    + destruct rewards as [rw|]; [|exfalso; now apply Hrew].
      cbn [bind]. eexists _, _, _, _. split; [reflexivity|].
      cbn [mo_losses]. split; [reflexivity|].
      split; [|discriminate].
      destruct (reinforce_baseline reward_baseline (do_outputs out) rw)
        as [|row rest] eqn:Hbase.
      * unfold baseline_loss, mul2, zip_with, reduce_sum. cbn. lra.
      * apply baseline_loss_nonneg; [apply mask_nonneg | discriminate].
    + cbn [bind]. eexists _, _, _, _. split; [reflexivity|].
      cbn [mo_losses]. split; [reflexivity|].
      split; [lra | reflexivity].
Qed.

Lemma X24_encoder_decoder_returns_witness :
  exists r xent_loss reinforce_loss baseline_loss_,
    encoder_decoder sample_utils sample_enet sample_net
      (fun _ => sample_randomness) (fun _ => []) [sample_encoder "global" 0]
      [sample_encoder "global" 0] [[[5; 1]]]%Z [[[0; 7; 1]]]%Z 0 0 None true
      None false = Ok r /\
    mo_losses r = [Some xent_loss; Some reinforce_loss; Some baseline_loss_] /\
    0 <= baseline_loss_ /\
    (false = false -> baseline_loss_ = 0).
Proof.
  apply (X24_encoder_decoder_returns sample_utils sample_enet sample_net
           (fun _ => sample_randomness) (fun _ => [])
           [sample_encoder "global" 0] (sample_encoder "global" 0) []
           [[[5; 1]]]%Z [[0; 7; 1]]%Z [] 0 0 true None false).
  - discriminate.
  - constructor; [|constructor].
    split; [left; reflexivity|]. split; left; reflexivity.
  - cbn. lia.
  - left. reflexivity.
  - cbn. lia.
  - cbn. lia.
  - discriminate.
Defined.

End AssemblersMore.

(** * Properties of [compute_energy] *)

Section EnergyBound.
Open Scope R_scope.

Lemma tanh_bound (x : R) : Rabs (tanh x) <= 1.
Proof.
  unfold tanh, sinh, cosh.
  pose proof (exp_pos x) as Ha. pose proof (exp_pos (- x)) as Hb.
  set (a := exp x) in *. set (b := exp (- x)) in *.
  replace ((a - b) / 2 / ((a + b) / 2)) with ((a - b) / (a + b))
    by (field; lra).
  apply Rabs_le. split.
  - apply Rmult_le_reg_r with (a + b); [lra|].
    unfold Rdiv. rewrite Rmult_assoc, Rinv_l by lra. lra.
  - apply Rmult_le_reg_r with (a + b); [lra|].
    unfold Rdiv. rewrite Rmult_assoc, Rinv_l by lra. lra.
Qed.

Lemma weighted_by_bounded (v t : list R) :
  Forall (fun x => Rabs x <= 1) t ->
  Rabs (reduce_sum (zip_with Rmult v t)) <= reduce_sum (map Rabs v).
Proof.
  unfold reduce_sum, zip_with. revert t.
  induction v as [|x v IH]; intros t Ht.
  - simpl. rewrite Rabs_R0. lra.
  - destruct Ht as [|y t Hy Ht].
    + simpl. rewrite Rabs_R0.
      pose proof (Rabs_pos x).
      assert (0 <= fold_right Rplus 0 (map Rabs v)).
      { apply (reduce_sum_Forall_nonneg (map Rabs v)).
        apply Forall_map, Forall_forall. intros z _. apply Rabs_pos. }
      lra.
    + cbn [map combine fold_right fst snd].
      specialize (IH t Ht).
      eapply Rle_trans; [apply Rabs_triang|].
      rewrite Rabs_mult.
      pose proof (Rabs_pos x). pose proof (Rabs_pos y).
      assert (Rabs x * Rabs y <= Rabs x) by nra.
      lra.
Qed.

Lemma energy_of_bound (v f y : list R) :
  Rabs (energy_of v f y) <= reduce_sum (map Rabs v).
Proof.
  unfold energy_of. apply weighted_by_bounded.
  apply Forall_map, Forall_forall. intros x _. apply tanh_bound.
Qed.

(** X25. The energies of [compute_energy] are bounded by the learned
    vector alone: whatever the hidden states, the state, the dropout
    noise and the layer normalisation, every energy lies within
    +- the sum of the absolute values of the entries of [v_a]. *)
Theorem X25_compute_energy_bounded
    (V : EnergyVars) (hidden : tensor3) (state : tensor2)
    (attn_keep_prob : option R) (pervasive_dropout layer_norm : bool)
    (row : list R) (e : R) :
  In row (compute_energy_src V hidden state attn_keep_prob pervasive_dropout
                             layer_norm) ->
  In e row ->
  Rabs e <= reduce_sum (map Rabs (v_a V)).
Proof.
  unfold compute_energy_src. cbv zeta. unfold zip_with at 1.
  intros Hrow He.
  apply in_map_iff in Hrow. destruct Hrow as [[f_b y_b] [<- _]].
  cbn [fst snd] in He. apply in_map_iff in He. destruct He as [f_bt [<- _]].
  apply energy_of_bound.
Qed.

Lemma X25_compute_energy_bounded_witness :
  Rabs (energy_of [2; -3] [] []) <= reduce_sum (map Rabs [2; -3]).
Proof.
  apply (X25_compute_energy_bounded
           {| W_a_kernel := []; W_a_bias := [0; 0];
              U_a_kernel := []; v_a := [2; -3];
              dropout_state := fun _ _ s => s;
              dropout_hidden := fun _ _ h => h;
              layer_norm_state := fun s => s;
              layer_norm_hidden := fun h => h |}
           [[[1; 1]]] [[0; 0]] None false false
           [energy_of [2; -3] [] []]).
  - left. reflexivity.
  - left. reflexivity.
Defined.

End EnergyBound.

(** * Properties of [multi_attention] *)

Section MultiAttention.
Open Scope R_scope.

(** The dispatcher on an encoder that is neither of type "none" nor of
    type "local". *)
Lemma attention_normalised
    (F : FloatOps) (L : Learned) (encoder : EncoderConfig) (state : tensor2)
    (hidden_states : tensor3) (encoder_input_length : list Z)
    (pos : option (list Z)) (context prev_weights : option tensor2)
    (b : nat) (len : Z) :
  FloatOps_ok F ->
  Learned_shape_ok L ->
  attention_type encoder <> "none"%string ->
  attention_type encoder <> "local"%string ->
  (b < length hidden_states)%nat ->
  nth_error encoder_input_length b = Some len ->
  (1 <= len <= Z.of_nat (shape1 hidden_states))%Z ->
  (dispatches_to_global encoder ->
   global_attention_defined F L state hidden_states encoder
                            encoder_input_length context prev_weights b) ->
  exists w,
    nth_error (snd (attention F L encoder state hidden_states
                      encoder_input_length pos context prev_weights)) b
      = Some w /\
    normalised w len (shape1 hidden_states).
Proof.
  intros HF HL Hnone Hlocal Hb Hlen Hrange Hdef.
  assert (Hglobal : dispatches_to_global encoder ->
    exists w,
      nth_error (snd (global_attention F L state hidden_states encoder
                        encoder_input_length context prev_weights)) b
        = Some w /\
      normalised w len (shape1 hidden_states)).
  { intros Hd. apply global_attention_normalised; try assumption.
    exact (Hdef Hd). }
  unfold attention. cbv zeta.
  destruct (String.eqb_spec (attention_type encoder) "global") as [E1|E1].
  { apply Hglobal. unfold dispatches_to_global. rewrite E1.
    repeat split; discriminate. }
  destruct (String.eqb_spec (attention_type encoder) "local"); [contradiction|].
  destruct (String.eqb_spec (attention_type encoder) "none"); [contradiction|].
  destruct (String.eqb_spec (attention_type encoder) "average") as [E4|E4].
  { exists (average_attention_row F len (shape1 hidden_states)).
    unfold average_attention. cbv zeta. cbn [snd].
    split; [rewrite nth_error_map, Hlen; reflexivity|].
    apply average_attention_row_normalised; assumption. }
  destruct (String.eqb_spec (attention_type encoder) "last_state") as [E5|E5].
  { exists (map to_floatR (one_hot (len - 1) (shape1 hidden_states))).
    unfold last_state_attention. cbv zeta. cbn [snd].
    split; [rewrite nth_error_map, Hlen; reflexivity|].
    apply one_hot_normalised; lia. }
  apply Hglobal. repeat split; assumption.
Qed.

Lemma optional_index_in {A} (l : option (list (option A))) (i : nat) :
  (forall l', l = Some l' -> (i < length l')%nat) ->
  exists x, optional_index l i = Ok x.
Proof.
  intros H. unfold optional_index, index. destruct l as [l'|].
  - destruct (nth_error_lt_Some l' i (H l' eq_refl)) as [x ->].
    eexists. reflexivity.
  - eexists. reflexivity.
Qed.

Lemma multi_attention_from_attended
    (F : FloatOps) (L : Learned) (state : tensor2) (b : nat)
    (pos : option (list (option (list Z))))
    (prev_weights : option (list (option tensor2))) :
  FloatOps_ok F ->
  Learned_shape_ok L ->
  (b < length state)%nat ->
  forall (items : list (tensor3 * (EncoderConfig * list Z))) (i : nat)
         (context_vector : option tensor2),
  Forall (attendable F L state b) items ->
  (forall l, pos = Some l -> (i + length items <= length l)%nat) ->
  (forall l, prev_weights = Some l -> (i + length items <= length l)%nat) ->
  exists rs,
    multi_attention_from F L state i items pos prev_weights context_vector
      = Ok rs /\
    Forall2 (attended b) items rs.
Proof.
  intros HF HL Hb. induction items as [|[hidden [encoder lens]] rest IH];
    intros i ctx Hitems Hpos Hprev.
  - exists []. split; [reflexivity | constructor].
  - inversion Hitems as [|x l' Hitem Hrest]; subst.
    destruct Hitem as [Hnone [Hlocal [Hh [Hl [[len [Hlen Hrange]] Hdef]]]]].
    cbn [length] in Hpos, Hprev. cbn [multi_attention_from].
    destruct (optional_index_in pos i) as [pos_ ->];
      [intros l E; specialize (Hpos l E); lia|].
    destruct (optional_index_in prev_weights i) as [pw_ ->];
      [intros l E; specialize (Hprev l E); lia|].
    cbn [bind]. cbv zeta.
    rewrite !resize_like_same by assumption.
    destruct (IH (S i)
                (Some (fst (attention F L encoder state hidden lens pos_ ctx
                                      pw_)))
                Hrest) as [rs [-> Hrs]].
    { intros l E. specialize (Hpos l E). lia. }
    { intros l E. specialize (Hprev l E). lia. }
    cbn [bind]. eexists. split; [reflexivity|].
    constructor; [|exact Hrs].
    destruct (attention_normalised F L encoder state hidden lens pos_ ctx pw_
                b len HF HL Hnone Hlocal) as [w [Hw Hn]];
      [rewrite Hh; exact Hb | exact Hlen | exact Hrange
      | intros Hd; exact (Hdef Hd ctx pw_) |].
    exists w, len. split; [exact Hw|]. split; [exact Hlen | exact Hn].
Qed.

(** X26. [multi_attention] keeps the weights of every encoder
    normalised: when there is at least one zipped (hidden states,
    encoder, lengths) item, every item is of the state's batch size, of
    an attention type other than "none" and "local", and of a valid
    length between 1 and its time length at a batch entry, the
    normalisation of every item handed to [global_attention] is defined
    there (a temperature that is not negative and a valid exponential
    other than 0, for every context) and, for the aggregation by sum,
    the hidden states of all items have one width, so that the context
    vectors can be stacked, then it returns one weight tensor per item,
    and each of them holds at that entry a probability distribution
    over the item's valid positions. *)
Theorem X26_multi_attention_normalised
    (F : FloatOps) (L : Learned) (state : tensor2)
    (hidden_states : list tensor3) (encoders : list EncoderConfig)
    (encoder_input_length : list (list Z))
    (pos : option (list (option (list Z)))) (aggregation_method : string)
    (prev_weights : option (list (option tensor2))) (b d : nat) :
  let items := combine hidden_states (combine encoders encoder_input_length) in
  FloatOps_ok F ->
  Learned_shape_ok L ->
  (b < length state)%nat ->
  items <> [] ->
  (aggregation_method = "sum"%string ->
   Forall (fun item => same_width d (fst item)) items) ->
  Forall (attendable F L state b) items ->
  (forall l, pos = Some l -> (length items <= length l)%nat) ->
  (forall l, prev_weights = Some l -> (length items <= length l)%nat) ->
  exists context weights,
    multi_attention F L state hidden_states encoders encoder_input_length pos
                    aggregation_method prev_weights = Ok (context, weights) /\
    length weights = length items /\
    (forall i hidden encoder lens,
       nth_error items i = Some (hidden, (encoder, lens)) ->
       exists t w len,
         nth_error weights i = Some t /\
         nth_error t b = Some w /\
         nth_error lens b = Some len /\
         normalised w len (shape1 hidden)).
Proof.
  intros items HF HL Hb _ _ Hitems Hpos Hprev. unfold multi_attention.
  fold items.
  destruct (multi_attention_from_attended F L state b pos prev_weights HF HL Hb
              items 0 None Hitems) as [rs [-> Hrs]]; [exact Hpos | exact Hprev |].
  cbn [bind]. eexists _, _. split; [reflexivity|].
  split; [rewrite length_map; symmetry; eapply Forall2_length; exact Hrs|].
  intros i hidden encoder lens Hi.
  clear Hitems Hpos Hprev. revert i Hi.
  induction Hrs as [|item r items' rs' Hitem _ IH]; intros i Hi.
  - destruct i; discriminate.
  - destruct i as [|i].
    + cbn in Hi. injection Hi as ->. destruct Hitem as [w [len [H1 [H2 H3]]]].
      exists (snd r), w, len.
      split; [reflexivity|]. split; [exact H1|]. split; [exact H2 | exact H3].
    + cbn in Hi. destruct (IH i Hi) as [t [w [len H]]].
      exists t, w, len. exact H.
Qed.

Lemma X26_multi_attention_normalised_witness :
  exists context weights,
    multi_attention (float32 0) zero_learned [[0]; [0]]
      [[[[1]; [2]]; [[3]; [4]]]; [[[5]; [6]]; [[7]; [8]]]]
      [sample_encoder "average" 0; sample_encoder "global" 0]
      [[1; 2]%Z; [2; 1]%Z] None "sum" None
      = Ok (context, weights) /\
    length weights = 2%nat.
Proof.
  destruct (X26_multi_attention_normalised (float32 0) zero_learned
              [[0]; [0]]
              [[[[1]; [2]]; [[3]; [4]]]; [[[5]; [6]]; [[7]; [8]]]]
              [sample_encoder "average" 0; sample_encoder "global" 0]
              [[1; 2]%Z; [2; 1]%Z] None "sum" None 1 1)
    as [context [weights [H1 [H2 _]]]].
  - apply float32_ok.
  - exact zero_learned_shape_ok.
  - cbn. lia.
  - discriminate.
  - intros _. repeat constructor.
  - constructor; [|constructor; [|constructor]]; cbn.
    + split; [discriminate|]. split; [discriminate|].
      split; [reflexivity|]. split; [reflexivity|].
      split; [exists 2%Z; split; [reflexivity | lia]|].
      intros [_ [_ [H _]]]. contradiction H. reflexivity.
    + split; [discriminate|]. split; [discriminate|].
      split; [reflexivity|]. split; [reflexivity|].
      split; [exists 1%Z; split; [reflexivity | lia]|].
      intros _ context prev_weights. apply zero_learned_defined.
      * apply float32_ok.
      * unfold temperature. cbn. lra.
      * cbn. lia.
      * intros len Hlen. injection Hlen as <-. lia.
  - discriminate.
  - discriminate.
  - exists context, weights. split; [exact H1 | exact H2].
Defined.

End MultiAttention.
